(** * iNetScan: the host-inventory aggregation engine

    A shallow embedding of the parsing, merging and orchestration code of
    iNetScan (scanning.py, threads.py, mdns.py, bonjour_gui.py and the
    window controller inetscan-v0.4.6.py), with the properties of its
    specification stated and settled against it.

    Conventions of the embedding.
    - A Python [str] is a Rocq [string].  The helpers [strip], [upper] and
      the regular expressions below are those of Python restricted to
      ASCII text (white space is 0x09-0x0D, 0x1C-0x20; letters are a-z);
      a decoded UTF-8 text is represented by its well-formed UTF-8 bytes.
      Where the case mapping outside ASCII decides the outcome (the vendor
      prefix of the mDNS merge), [str.upper] is a parameter and the text
      is written one character per code point.
    - A Python [dict] used as a record is a Rocq [Record]; keys that the
      code reads with [.get(key, default)] are fields holding the default.
      A [dict] used as a map is a [gmap].
    - Host dictionaries are shared between the discovery thread and the
      window (the signal carries a shallow copy of the list), so hosts
      live in a heap and both sides hold locations.
    - Signals emitted by a worker are returned as a list, in order.
    - Widgets, icons, logging and the temporary JSON file are left out. *)

From Stdlib Require Import ZArith NArith Ascii List Strings.Byte QArith_base.
From Stdlib Require String DecimalString DecimalN.
From stdpp Require Import base option list strings gmap sorting.

Local Open Scope Z_scope.

(** ** Python string primitives (ASCII) *)

Module PyStr.

Definition code (c : ascii) : N := N_of_ascii c.

Definition in_range (lo hi : N) (c : ascii) : bool :=
  ((lo <=? code c) && (code c <=? hi))%N.

(** [str.isspace] on one character; also the class [\s]. *)
Definition isspace (c : ascii) : bool :=
  in_range 9 13 c || in_range 28 32 c.

(** The class [\d]. *)
Definition isdigit (c : ascii) : bool := in_range 48 57 c.

Definition islower (c : ascii) : bool := in_range 97 122 c.

Definition upper_char (c : ascii) : ascii :=
  if islower c then ascii_of_N (code c - 32) else c.

(** [s.upper()] for ASCII text.  Python's mapping also covers the letters
    outside ASCII and can change the length there (ß becomes SS); the
    one place where that matters, the vendor prefix of the mDNS merge,
    takes the mapping as a parameter ([strip_vendor_prefix_with]). *)
Fixpoint upper (s : string) : string :=
  match s with
  | EmptyString => EmptyString
  | String c s' => String (upper_char c) (upper s')
  end.

Fixpoint lstrip_by (p : ascii -> bool) (s : string) : string :=
  match s with
  | EmptyString => EmptyString
  | String c s' => if p c then lstrip_by p s' else s
  end.

Fixpoint rstrip_by (p : ascii -> bool) (s : string) : string :=
  match s with
  | EmptyString => EmptyString
  | String c s' =>
      match rstrip_by p s' with
      | EmptyString => if p c then EmptyString else String c EmptyString
      | r => String c r
      end
  end.

(** [s.strip()] *)
Definition strip (s : string) : string := rstrip_by isspace (lstrip_by isspace s).

(** [s.rstrip('.')] *)
Definition rstrip_dot (s : string) : string :=
  rstrip_by (fun c => Ascii.eqb c "."%char) s.

(** [s.replace(c, '')] for a one-character pattern *)
Fixpoint remove_char (x : ascii) (s : string) : string :=
  match s with
  | EmptyString => EmptyString
  | String c s' => if Ascii.eqb c x then remove_char x s' else String c (remove_char x s')
  end.

(** [s[:n]] *)
Fixpoint slice_to (n : nat) (s : string) : string :=
  match n, s with
  | S n', String c s' => String c (slice_to n' s')
  | _, _ => EmptyString
  end.

(** [s[n:]] *)
Fixpoint slice_from (n : nat) (s : string) : string :=
  match n, s with
  | S n', String _ s' => slice_from n' s'
  | _, _ => s
  end.

(** [s.startswith(p)] *)
Definition startswith (s p : string) : bool := String.prefix p s.

(** The longest prefix of [s] whose characters satisfy [p], and the rest:
    a greedy character-class repetition. *)
Fixpoint span (p : ascii -> bool) (s : string) : string * string :=
  match s with
  | EmptyString => (EmptyString, EmptyString)
  | String c s' =>
      if p c then let '(a, b) := span p s' in (String c a, b)
      else (EmptyString, s)
  end.

(** [s] without the literal prefix [p], when it starts with it. *)
Fixpoint strip_prefix (p s : string) : option string :=
  match p, s with
  | EmptyString, _ => Some s
  | String a p', String b s' => if Ascii.eqb a b then strip_prefix p' s' else None
  | String _ _, EmptyString => None
  end.

(** Python truthiness of a string. *)
Definition nonempty (s : string) : bool :=
  match s with EmptyString => false | _ => true end.

(** [int(s)] for a string of decimal digits. *)
Definition int_of_digits (s : string) : Z :=
  fold_left (fun acc c => 10 * acc + Z.of_N (code c - 48)) (String.list_ascii_of_string s) 0.

(** [re.search]: the first position of [s] at which [m] matches. *)
Fixpoint search {A} (m : string -> option A) (s : string) : option A :=
  match m s with
  | Some r => Some r
  | None => match s with
            | EmptyString => None
            | String _ s' => search m s'
            end
  end.

(** [a or b] on strings *)
Definition or_str (a b : string) : string := if nonempty a then a else b.

End PyStr.

Import PyStr.

(** ** Output parsers (the regular expressions of scanning.py and threads.py) *)

(** [re.match(r"Nmap scan report for (?P<host>[^ ]+)(?: \((?P<ip>[\d\.]+)\))?", line)]:
    the groups [host] and [ip]. *)
Definition match_report (line : string) : option (string * option string) :=
  match strip_prefix "Nmap scan report for " line with
  | None => None
  | Some rest =>
      let '(host, rest1) := span (fun c => negb (Ascii.eqb c " "%char)) rest in
      if nonempty host then
        Some (host,
              match strip_prefix " (" rest1 with
              | None => None
              | Some rest2 =>
                  let '(ip, rest3) := span (fun c => isdigit c || Ascii.eqb c "."%char) rest2 in
                  if nonempty ip then
                    match strip_prefix ")" rest3 with
                    | Some _ => Some ip
                    | None => None
                    end
                  else None
              end)
      else None
  end.

Definition is_mac_char (c : ascii) : bool :=
  isdigit c || in_range 65 70 c || Ascii.eqb c ":"%char.

(** The pattern [MAC Address:\s*([0-9A-F:]+)(?:\s*\(([^)]+)\))?] anchored at
    the start of [s]. *)
Definition match_mac_here (s : string) : option (string * option string) :=
  match strip_prefix "MAC Address:" s with
  | None => None
  | Some rest =>
      let '(mac, rest1) := span is_mac_char (lstrip_by isspace rest) in
      if nonempty mac then
        Some (mac,
              match strip_prefix "(" (lstrip_by isspace rest1) with
              | None => None
              | Some rest2 =>
                  let '(v, rest3) := span (fun c => negb (Ascii.eqb c ")"%char)) rest2 in
                  if nonempty v then
                    match strip_prefix ")" rest3 with
                    | Some _ => Some v
                    | None => None
                    end
                  else None
              end)
      else None
  end.

(** [re.search(r"MAC Address:...", line)]: groups 1 and 2. *)
Definition search_mac (line : string) : option (string * option string) :=
  search match_mac_here line.

(** The pattern [Discovered open port (\d+)/tcp] anchored at the start. *)
Definition match_open_port_here (s : string) : option Z :=
  match strip_prefix "Discovered open port " s with
  | None => None
  | Some rest =>
      let '(ds, rest1) := span isdigit rest in
      if nonempty ds then
        match strip_prefix "/tcp" rest1 with
        | Some _ => Some (int_of_digits ds)
        | None => None
        end
      else None
  end.

Definition search_open_port (line : string) : option Z :=
  search match_open_port_here line.

Definition nl : string := String (ascii_of_N 10) EmptyString.

(** ** Data model *)

(** One entry of a host's [ports] list: [{"port": p, "name": name}]. *)
Record port_entry := PortEntry { port : Z; name : string }.

(** A host dictionary.  scanning.py creates it with the keys [ip],
    [hostname], [mac], [ports], [vendor] and [model]; the three mDNS keys
    are added by the window and read everywhere with [.get(key, default)]. *)
Record host := Host {
  ip : string;
  hostname : string;
  mac : string;
  ports : list port_entry;
  vendor : string;
  model : string;
  mdns_name : string;
  mdns_services : list string;
  mdns_props : gmap string string
}.

Definition set_mac (v : string) (h : host) : host :=
  Host (ip h) (hostname h) v (ports h) (vendor h) (model h)
       (mdns_name h) (mdns_services h) (mdns_props h).

Definition set_ports (v : list port_entry) (h : host) : host :=
  Host (ip h) (hostname h) (mac h) v (vendor h) (model h)
       (mdns_name h) (mdns_services h) (mdns_props h).

Definition set_vendor (v : string) (h : host) : host :=
  Host (ip h) (hostname h) (mac h) (ports h) v (model h)
       (mdns_name h) (mdns_services h) (mdns_props h).

Definition set_model (v : string) (h : host) : host :=
  Host (ip h) (hostname h) (mac h) (ports h) (vendor h) v
       (mdns_name h) (mdns_services h) (mdns_props h).

Definition set_mdns_name (v : string) (h : host) : host :=
  Host (ip h) (hostname h) (mac h) (ports h) (vendor h) (model h)
       v (mdns_services h) (mdns_props h).

Definition set_mdns_services (v : list string) (h : host) : host :=
  Host (ip h) (hostname h) (mac h) (ports h) (vendor h) (model h)
       (mdns_name h) v (mdns_props h).

Definition set_mdns_props (v : gmap string string) (h : host) : host :=
  Host (ip h) (hostname h) (mac h) (ports h) (vendor h) (model h)
       (mdns_name h) (mdns_services h) v.

(** Host dictionaries are Python objects: the discovery thread and the
    window both hold references to the same ones.  A heap is the list of
    all host objects allocated so far, a location is an index in it. *)
Abbreviation loc := nat (only parsing).
Abbreviation heap := (list host) (only parsing).

(** The hosts a list of references denotes. *)
Definition deref (hp : heap) (locs : list loc) : list host :=
  omap (fun l => hp !! l) locs.

(** [next((h for h in hosts if h['ip'] == x), None)], also the loop
    [for h in hosts: if h['ip'] == x: ...; break]: the first match. *)
Fixpoint find_host (hp : heap) (locs : list loc) (x : string) : option loc :=
  match locs with
  | [] => None
  | l :: rest =>
      match hp !! l with
      | Some h => if decide (ip h = x) then Some l else find_host hp rest x
      | None => find_host hp rest x
      end
  end.

(** The module-level tables and the library calls the code relies on. *)
Class Globals := {
  (** [manuf.MacParser().get_manufacturer], [None] when manuf is not installed *)
  mac_parser : option (string -> option string);
  (** oui_extra.json and mac_overrides.json, keys normalised *)
  extra_oui : gmap string string;
  (** apple_models.json, keys normalised *)
  apple_model_map : gmap string string;
  (** [socket.gethostbyaddr(ip)[0]], [None] when it raises *)
  gethostbyaddr : string -> option string;
  (** [socket.getservbyport(p)], [None] when it raises *)
  getservbyport : Z -> option string;
  (** the window's table loaded from nmap-services *)
  SERVICE_NAMES : gmap Z string;
  (** [ScannerWindow.is_valid_subnet] *)
  is_valid_subnet : string -> bool
}.

(** ** scanning.py: the discovery thread *)

Inductive scan_signal :=
| Sresult (snapshot : list loc)      (* result.emit({'hosts': self.hosts.copy()}) *)
| Sdiscovery_update (msg : string)
| Sdiscovery_finished
| Serror (msg : string).

Record ScanThread := {
  t_hosts : list loc;        (* self.hosts *)
  t_seen_ips : gset string   (* self.seen_ips *)
}.

Definition ScanThread_init : ScanThread :=
  {| t_hosts := []; t_seen_ips := ∅ |}.

Definition new_host (addr rdns : string) : host :=
  {| ip := addr; hostname := rdns; mac := ""; ports := []; vendor := "";
     model := ""; mdns_name := ""; mdns_services := []; mdns_props := ∅ |}.

(** [mac.replace(':', '').upper()[:6]] *)
Definition mac_prefix (m : string) : string :=
  slice_to 6 (upper (remove_char ":"%char m)).

Section Discovery.
Context `{G : Globals}.

(** The first half of the loop body (scanning.py lines 85-108). *)
Definition report_step (line : string) (hp : heap) (t : ScanThread)
  : heap * ScanThread * list scan_signal :=
  match match_report line with
  | Some (raw, g_ip) =>
      let addr := strip (default raw g_ip) in
      if decide (addr ∈ t_seen_ips t) then (hp, t, [])
      else
        let rdns := default "" (gethostbyaddr addr) in
        let l := List.length hp in
        let hosts' := t_hosts t ++ [l] in
        (hp ++ [new_host addr rdns],
         {| t_hosts := hosts'; t_seen_ips := {[addr]} ∪ t_seen_ips t |},
         [Sresult hosts';
          Sdiscovery_update ("Discovered " +:+ addr +:+ " (" +:+ rdns +:+ ")")])
  | None => (hp, t, [])
  end.

(** [mac_parser.get_manufacturer(mac) if mac_parser else '']; [None] from
    manuf counts as the empty string, the next test replaces both alike. *)
Definition manuf_vendor (m : string) : string :=
  match mac_parser with
  | Some get_manufacturer => default "" (get_manufacturer m)
  | None => ""
  end.

(** Vendor lookup (lines 119-129). *)
Definition resolve_vendor (vendor_inline : option string) (m : string) (h : host) : string :=
  let v := match vendor_inline with
           | Some v => or_str v (manuf_vendor m)
           | None => manuf_vendor m
           end in
  let prefix := mac_prefix m in
  let v := if nonempty v then v else default "" (extra_oui !! prefix) in
  let v := if nonempty v then v else default "" (mdns_props h !! "vn") in
  let v := if negb (nonempty v) && bool_decide (is_Some (apple_model_map !! prefix))
           then "Apple" else v in
  v.

(** Model lookup (lines 131-134). *)
Definition resolve_model (m : string) (h : host) : string :=
  let prefix := mac_prefix m in
  let md := default "" (mdns_props h !! "model") in
  let md := if negb (nonempty md) && bool_decide (is_Some (apple_model_map !! prefix))
            then default "" (apple_model_map !! prefix) else md in
  or_str md "".

Definition apply_mac (m : string) (vendor_inline : option string) (h : host) : host :=
  set_model (resolve_model m h) (set_vendor (resolve_vendor vendor_inline m h) (set_mac m h)).

(** The second half of the loop body (lines 110-135): [if m2 and self.hosts]. *)
Definition mac_step (line : string) (hp : heap) (t : ScanThread)
  : heap * ScanThread * list scan_signal :=
  match search_mac line, last (t_hosts t) with
  | Some (m, vendor_inline), Some l =>
      (alter (apply_mac m vendor_inline) l hp, t, [Sresult (t_hosts t)])
  | _, _ => (hp, t, [])
  end.

(** One iteration of [for line in proc.stdout]. *)
Definition process_line (line : string) (hp : heap) (t : ScanThread)
  : heap * ScanThread * list scan_signal :=
  let '(hp1, t1, out1) := report_step line hp t in
  let '(hp2, t2, out2) := mac_step line hp1 t1 in
  (hp2, t2, out1 ++ out2).

Fixpoint process_lines (lines : list string) (hp : heap) (t : ScanThread)
  : heap * ScanThread * list scan_signal :=
  match lines with
  | [] => (hp, t, [])
  | line :: rest =>
      let '(hp1, t1, out1) := process_line line hp t in
      let '(hp2, t2, out2) := process_lines rest hp1 t1 in
      (hp2, t2, out1 ++ out2)
  end.

(** [ScanThread.run] of a fresh thread.  [proc] is [inl e] when [Popen]
    raises [e], and [inr lines] for the lines the process prints, read to
    the end.  The lines are decoded text: the loop over [proc.stdout] is
    outside the [try], so a byte that cannot be decoded ends the thread
    there, after the signals of the lines read so far and with no further
    signal; that run is [process_lines] on those lines. *)
Definition ScanThread_run (proc : string + list string) (hp : heap)
  : heap * ScanThread * list scan_signal :=
  match proc with
  | inl e => (hp, ScanThread_init, [Serror ("Nmap discovery failed: " +:+ e)])
  | inr lines =>
      let '(hp', t, out) := process_lines lines hp ScanThread_init in
      (hp', t, out ++ [Sdiscovery_finished])
  end.

End Discovery.

(** ** threads.py: the per-host port scan thread *)

(** An element of the list a port result carries: the window accepts a
    bare port number or a ready [{port, name}] dictionary. *)
Inductive port_item :=
| PortInt (p : Z)
| PortDict (e : port_entry).

Inductive port_signal :=
| Presult (addr : string) (services : list port_item)
| Perror (msg : string).

Record HostPortThread := {
  hpt_ip : string;                     (* self.ip *)
  hpt_quick : bool;                    (* self.quick *)
  hpt_custom_ports : option (list Z)   (* self.custom_ports *)
}.

(** What [subprocess.run] gives: a completed process (its lines are
    [proc.stdout.splitlines()]), or an exception (timeout, launch failure). *)
Inductive proc_outcome :=
| Completed (returncode : Z) (stdout_lines : list string) (stderr : string)
| Raised (e : string).

(** The loop of lines 117-122: the ports of every matching line, in order. *)
Definition found_ports (stdout_lines : list string) : list Z :=
  omap search_open_port stdout_lines.

(** [sorted(set(found))] *)
Definition sorted_set (found : list Z) : list Z :=
  merge_sort Z.le (remove_dups found).

Section PortThread.
Context `{G : Globals}.

(** Lines 124-130: one [{"port": p, "name": name}] per distinct port. *)
Definition lookup_services (found : list Z) : list port_entry :=
  map (fun p => {| port := p; name := default "" (getservbyport p) |}) (sorted_set found).

Definition HostPortThread_run (t : HostPortThread) (proc : proc_outcome) : list port_signal :=
  let clean_ip := hpt_ip t in
  match proc with
  | Completed rc out err =>
      if decide (rc = 0)
      then [Presult clean_ip (map PortDict (lookup_services (found_ports out)))]
      else [Perror ("Port scan failed for " +:+ clean_ip +:+ ": " +:+ strip err)]
  | Raised e => [Perror ("Port scan failed for " +:+ clean_ip +:+ ": " +:+ e)]
  end.

End PortThread.

(** ** mdns.py: what the resolution worker hands to the window *)

(** One value of the mapping emitted by [mdns_done]: a dictionary with
    the keys [hostname], [services] and [mdns_props].  The window tests
    the dictionary for emptiness and the key [mdns_props] for presence,
    so each key is optional here. *)
Record mdns_fact := {
  f_hostname : option string;
  f_services : option (list string);
  f_mdns_props : option (gmap string string)
}.

(** Python truthiness of the dictionary: it has a key. *)
Definition fact_truthy (f : mdns_fact) : bool :=
  bool_decide (is_Some (f_hostname f)) || bool_decide (is_Some (f_services f))
  || bool_decide (is_Some (f_mdns_props f)).

(** The shape [MDNSWorker.run] builds: all three keys present. *)
Definition fact_complete (f : mdns_fact) : Prop :=
  is_Some (f_hostname f) ∧ is_Some (f_services f) ∧ is_Some (f_mdns_props f).

(** ** inetscan-v0.4.6.py: the window controller *)

Record ScannerWindow := {
  hosts : list loc;                                   (* self.hosts *)
  host_port_threads : gmap string HostPortThread;     (* self.host_port_threads *)
  advanced_mode : bool                                (* self.advanced_mode *)
}.

Definition set_hosts (v : list loc) (w : ScannerWindow) : ScannerWindow :=
  {| hosts := v; host_port_threads := host_port_threads w; advanced_mode := advanced_mode w |}.

Definition set_host_port_threads (v : gmap string HostPortThread) (w : ScannerWindow)
  : ScannerWindow :=
  {| hosts := hosts w; host_port_threads := v; advanced_mode := advanced_mode w |}.

Definition set_advanced_mode (v : bool) (w : ScannerWindow) : ScannerWindow :=
  {| hosts := hosts w; host_port_threads := host_port_threads w; advanced_mode := v |}.

Definition ScannerWindow_init : ScannerWindow :=
  {| hosts := []; host_port_threads := ∅; advanced_mode := false |}.

(** [_remove_empty_mdns_model_keys] *)
Definition _remove_empty_mdns_model_keys (h : host) : host :=
  if decide (is_Some (mdns_props h !! "")) then set_mdns_props (delete "" (mdns_props h)) h
  else h.

(** What [_add_host_item] does to the host it displays. *)
Definition _add_host_item (hp : heap) (l : loc) : heap :=
  alter _remove_empty_mdns_model_keys l hp.

(** The loop [for host in batch: self.hosts.append(host); self._add_host_item(host)]. *)
Definition append_hosts (batch : list loc) (hp : heap) (w : ScannerWindow)
  : heap * ScannerWindow :=
  (foldl _add_host_item hp batch, set_hosts (hosts w ++ batch) w).

(** [populate], connected to the discovery thread's [result] signal. *)
Definition populate (new_hosts : list loc) (hp : heap) (w : ScannerWindow)
  : heap * ScannerWindow :=
  match hosts w with
  | [] => append_hosts new_hosts hp (set_hosts [] w)
  | _ :: _ => append_hosts (drop (List.length (hosts w)) new_hosts) hp w
  end.

(** [reenable_scan_buttons] *)
Definition reenable_scan_buttons (w : ScannerWindow) : ScannerWindow :=
  set_advanced_mode false w.

(** [on_error] *)
Definition on_error (msg : string) (w : ScannerWindow) : ScannerWindow :=
  reenable_scan_buttons w.

(** *** Merging mDNS results *)

(** Lines 917-924: [props.get('model') or props.get('md') or ... or '']. *)
Definition md_candidate (props : gmap string string) : string :=
  or_str (default "" (props !! "model"))
    (or_str (default "" (props !! "md"))
       (or_str (default "" (props !! "am"))
          (or_str (default "" (props !! "ty"))
             (or_str (default "" (props !! "product")) "")))).

(** Lines 925-927. *)
Definition strip_vendor_prefix (vend md_val : string) : string :=
  let vendor_prefix := upper vend +:+ " " in
  if startswith (upper md_val) vendor_prefix
  then slice_from (String.length vendor_prefix) md_val
  else md_val.

Definition is_placeholder (s : string) : bool :=
  bool_decide (s = "0") || bool_decide (s = "0,1,2").

(** Lines 916-929, once [host['mdns_props']] is set. *)
Definition merge_mdns_model (h : host) : host :=
  let md_val := strip_vendor_prefix (vendor h) (md_candidate (mdns_props h)) in
  if nonempty md_val && negb (is_placeholder md_val) then set_model md_val h else h.

Definition clear_mdns (h : host) : host :=
  set_mdns_props ∅ (set_mdns_services [] (set_mdns_name "" h)).

(** The body of the first loop of [_on_mdns_done] (lines 909-933). *)
Definition mdns_merge_host (results : gmap string mdns_fact) (h : host) : host :=
  match results !! ip h with
  | Some mdns =>
      if fact_truthy mdns then
        let h1 := set_mdns_services (default [] (f_services mdns))
                    (set_mdns_name (default "" (f_hostname mdns)) h) in
        match f_mdns_props mdns with
        | Some props => merge_mdns_model (set_mdns_props props h1)
        | None => h1
        end
      else clear_mdns h
  | None => clear_mdns h
  end.

(** [_on_mdns_done]: the merge loop over [self.hosts], then the tree is
    rebuilt with [_add_host_item] for every host. *)
Definition _on_mdns_done (results : gmap string mdns_fact) (hp : heap) (w : ScannerWindow)
  : heap :=
  let hp1 := foldl (fun hp l => alter (mdns_merge_host results) l hp) hp (hosts w) in
  foldl _add_host_item hp1 (hosts w).

(** [_on_mdns_partial] *)
Definition _on_mdns_partial (addr : string) (mdns : mdns_fact) (hp : heap) (w : ScannerWindow)
  : heap :=
  match find_host hp (hosts w) addr with
  | Some l =>
      alter (fun h => set_mdns_props (default ∅ (f_mdns_props mdns))
                        (set_mdns_services (default [] (f_services mdns))
                           (set_mdns_name (default "" (f_hostname mdns)) h))) l hp
  | None => hp
  end.

(** *** Merging port results *)

Section WindowPorts.
Context `{G : Globals}.

(** Line 1670: bare port numbers get their name from [SERVICE_NAMES]. *)
Definition normalize_port (p : port_item) : port_entry :=
  match p with
  | PortInt n => {| port := n; name := default "" (SERVICE_NAMES !! n) |}
  | PortDict e => e
  end.

(** [on_host_ports_multi] *)
Definition on_host_ports_multi (addr : string) (new_ports : list port_item)
    (hp : heap) (w : ScannerWindow) : heap :=
  let clean_ip := strip addr in
  let new_ports := map normalize_port new_ports in
  match find_host hp (hosts w) clean_ip with
  | Some l => alter (set_ports new_ports) l hp
  | None => hp
  end.

End WindowPorts.

(** *** Per-host port scan tasks *)

(** [start_host_port_scan].  [current] is the address stored in the
    selected tree item ([None]: no item, or no data); [custom] is the
    parsed content of the port field when the Custom mode is on.  The
    second component is the thread that was started, if any. *)
Definition start_host_port_scan (current : option string) (custom : option (list Z))
    (w : ScannerWindow) : ScannerWindow * option HostPortThread :=
  match current with
  | None => (w, None)
  | Some addr =>
      if negb (nonempty addr) then (w, None)
      else
        let clean_ip := strip addr in
        if decide (is_Some (host_port_threads w !! clean_ip)) then (w, None)
        else
          let t := {| hpt_ip := clean_ip; hpt_quick := false; hpt_custom_ports := custom |} in
          (set_host_port_threads (<[clean_ip := t]> (host_port_threads w)) w, Some t)
  end.

(** [on_thread_finished], connected to the thread's [finished] signal. *)
Definition on_thread_finished (thread : HostPortThread) (w : ScannerWindow) : ScannerWindow :=
  let clean_ip := strip (hpt_ip thread) in
  if nonempty clean_ip && bool_decide (is_Some (host_port_threads w !! clean_ip))
  then set_host_port_threads (delete clean_ip (host_port_threads w)) w
  else w.

Section PortTasks.
Context `{G : Globals}.

(** The slots connected in [start_host_port_scan]. *)
Definition deliver_port_signal (s : port_signal) (hp : heap) (w : ScannerWindow)
  : heap * ScannerWindow :=
  match s with
  | Presult addr services => (on_host_ports_multi addr services hp w, w)
  | Perror msg => (hp, on_error msg w)
  end.

(** A port scan thread runs to its end: its signals are delivered in
    order, then [finished]. *)
Definition HostPortThread_complete (t : HostPortThread) (proc : proc_outcome)
    (hp : heap) (w : ScannerWindow) : heap * ScannerWindow :=
  let '(hp', w') :=
    foldl (fun st s => deliver_port_signal s st.1 st.2) (hp, w) (HostPortThread_run t proc) in
  (hp', on_thread_finished t w').

End PortTasks.

(** *** The scan orchestrator *)

(** The slot connected to a discovery thread's [discovery_finished]. *)
Inductive finished_handler :=
| OnDiscoveryFinished
| OnScanPassFinished (index : nat).

(** The callables given to [QTimer.singleShot]. *)
Inductive callback :=
| CbStartMdns
| CbExecuteScanPasses (index : nat)
| CbProgressHide.

Inductive action :=
| LaunchScanThread (subnet : string) (scan_flags : option (list string))
    (on_finished : finished_handler)
| LaunchMDNSWorker (timeout : Q)
| SingleShot (ms : Z) (cb : callback)
| WarningBox (title : string).

Definition passes : list (list string * string) :=
  [ (["-PR"], "ARP pass");
    (["-PE"], "ICMP pass");
    (["-PS80,443"; "-PU53"], "TCP/UDP pass") ].

(** [_execute_scan_passes]; [subnet_text] is the content of the subnet field. *)
Definition _execute_scan_passes (subnet_text : string) (index : nat) (w : ScannerWindow)
  : ScannerWindow * list action :=
  match passes !! index with
  | Some (flags, label) =>
      (w, [LaunchScanThread (strip subnet_text) (Some flags) (OnScanPassFinished index)])
  | None => (w, [SingleShot 1000 CbStartMdns])
  end.

(** [_on_scan_pass_finished] *)
Definition _on_scan_pass_finished (index : nat) (w : ScannerWindow)
  : ScannerWindow * list action :=
  let total_passes := 3%nat in
  (w, (if decide (total_passes ≤ index + 1)%nat then [SingleShot 500 CbProgressHide] else [])
      ++ [SingleShot 200 (CbExecuteScanPasses (index + 1))]).

(** [_start_mdns]: [timeout = 2.0 if self.advanced_mode else 1.0]. *)
Definition _start_mdns (w : ScannerWindow) : ScannerWindow * list action :=
  let timeout := if advanced_mode w then (2 # 1)%Q else (1 # 1)%Q in
  (w, [LaunchMDNSWorker timeout]).

(** [_on_discovery_finished]: [MDNSWorker(timeout=2.0)]. *)
Definition _on_discovery_finished (w : ScannerWindow) : ScannerWindow * list action :=
  (w, [LaunchMDNSWorker (2 # 1)%Q]).

Section Orchestrator.
Context `{G : Globals}.

(** [start_scan]: the quick scan. *)
Definition start_scan (subnet_text : string) (w : ScannerWindow)
  : ScannerWindow * list action :=
  let subnet := strip subnet_text in
  if negb (nonempty subnet) then (w, [WarningBox "Input Required"])
  else if negb (is_valid_subnet subnet) then (w, [WarningBox "Invalid subnet"])
  else (set_hosts [] w, [LaunchScanThread subnet None OnDiscoveryFinished]).

(** [start_advanced_scan]: the deep scan. *)
Definition start_advanced_scan (subnet_text : string) (w : ScannerWindow)
  : ScannerWindow * list action :=
  let subnet := strip subnet_text in
  if negb (nonempty subnet) then (w, [WarningBox "Input Required"])
  else if negb (is_valid_subnet subnet) then (w, [WarningBox "Invalid subnet"])
  else _execute_scan_passes subnet_text 0 (set_hosts [] (set_advanced_mode true w)).

(** The event loop, as far as a scan session needs it.  The state holds
    the heap, the window, the output of the discovery processes still to
    be launched, the mappings the mDNS workers still to be launched will
    emit, and the timeouts of the workers launched so far. *)
Record session := {
  s_heap : heap;
  s_win : ScannerWindow;
  s_procs : list (string + list string);
  s_mdns : list (gmap string mdns_fact);
  s_timeouts : list Q
}.

Definition run_finished_handler (h : finished_handler) (w : ScannerWindow)
  : ScannerWindow * list action :=
  match h with
  | OnDiscoveryFinished => _on_discovery_finished w
  | OnScanPassFinished index => _on_scan_pass_finished index w
  end.

Definition run_callback (subnet_text : string) (cb : callback) (w : ScannerWindow)
  : ScannerWindow * list action :=
  match cb with
  | CbStartMdns => _start_mdns w
  | CbExecuteScanPasses index => _execute_scan_passes subnet_text index w
  | CbProgressHide => (w, [])
  end.

(** The slots connected to a discovery thread's signals. *)
Definition deliver_scan_signal (on_finished : finished_handler) (sig : scan_signal)
    (st : heap * ScannerWindow * list action) : heap * ScannerWindow * list action :=
  let '(hp, w, acts) := st in
  match sig with
  | Sresult snapshot => let '(hp', w') := populate snapshot hp w in (hp', w', acts)
  | Sdiscovery_update _ => st
  | Sdiscovery_finished =>
      let '(w', more) := run_finished_handler on_finished w in (hp, w', acts ++ more)
  | Serror msg => (hp, on_error msg w, acts)
  end.

(** The signals of a discovery thread are delivered to the window, in order. *)
Definition deliver_scan_signals (on_finished : finished_handler)
    (sigs : list scan_signal) (st : heap * ScannerWindow * list action)
  : heap * ScannerWindow * list action :=
  foldl (fun st sig => deliver_scan_signal on_finished sig st) st sigs.

(** One action of the queue is carried out: a discovery thread runs to
    its end and its signals are delivered in order; an mDNS worker's
    mapping is merged; a timer fires (timers fire in the order they were
    set, whatever their delay). *)
Definition step_action (subnet_text : string) (a : action) (s : session)
  : session * list action :=
  match a with
  | LaunchScanThread _ _ on_finished =>
      let proc := default (inr []) (head (s_procs s)) in
      let '(hp1, _, sigs) := ScanThread_run proc (s_heap s) in
      let '(hp2, w2, acts) := deliver_scan_signals on_finished sigs (hp1, s_win s, []) in
      ({| s_heap := hp2; s_win := w2; s_procs := tail (s_procs s);
          s_mdns := s_mdns s; s_timeouts := s_timeouts s |}, acts)
  | LaunchMDNSWorker timeout =>
      let results := default ∅ (head (s_mdns s)) in
      ({| s_heap := _on_mdns_done results (s_heap s) (s_win s); s_win := s_win s;
          s_procs := s_procs s; s_mdns := tail (s_mdns s);
          s_timeouts := s_timeouts s ++ [timeout] |}, [])
  | SingleShot _ cb =>
      let '(w', acts) := run_callback subnet_text cb (s_win s) in
      ({| s_heap := s_heap s; s_win := w'; s_procs := s_procs s;
          s_mdns := s_mdns s; s_timeouts := s_timeouts s |}, acts)
  | WarningBox _ => (s, [])
  end.

(** The queue is run until it is empty; [None] when [fuel] runs out first. *)
Fixpoint run_actions (fuel : nat) (subnet_text : string) (pending : list action)
    (s : session) : option session :=
  match pending with
  | [] => Some s
  | a :: rest =>
      match fuel with
      | O => None
      | S fuel' =>
          let '(s', more) := step_action subnet_text a s in
          run_actions fuel' subnet_text (rest ++ more) s'
      end
  end.

Definition with_window (w : ScannerWindow) (s : session) : session :=
  {| s_heap := s_heap s; s_win := w; s_procs := s_procs s;
     s_mdns := s_mdns s; s_timeouts := s_timeouts s |}.

(** A quick scan session, from the click to the idle state. *)
Definition quick_scan_session (fuel : nat) (subnet_text : string) (s : session)
  : option session :=
  let '(w, acts) := start_scan subnet_text (s_win s) in
  run_actions fuel subnet_text acts (with_window w s).

(** A deep scan session, from the click to the idle state. *)
Definition deep_scan_session (fuel : nat) (subnet_text : string) (s : session)
  : option session :=
  let '(w, acts) := start_advanced_scan subnet_text (s_win s) in
  run_actions fuel subnet_text acts (with_window w s).

End Orchestrator.

(** The addresses of the host table, in order. *)
Definition table_ips (hp : heap) (w : ScannerWindow) : list string :=
  map ip (deref hp (hosts w)).

(** ** mdns.py and bonjour_gui.py: TXT properties *)

Abbreviation bytes := (list byte) (only parsing).

Definition byte_in (lo hi : N) (b : byte) : bool :=
  ((lo <=? Byte.to_N b) && (Byte.to_N b <=? hi))%N.

(** A continuation byte, 10xxxxxx. *)
Definition is_cont (b : byte) : bool := byte_in 128 191 b.

(** The second byte a lead byte of a three- or four-byte sequence admits
    (no overlong forms, no surrogates, nothing above U+10FFFF). *)
Definition second_ok (b0 b1 : byte) : bool :=
  if byte_in 224 224 b0 then byte_in 160 191 b1
  else if byte_in 237 237 b0 then byte_in 128 159 b1
  else if byte_in 240 240 b0 then byte_in 144 191 b1
  else if byte_in 244 244 b0 then byte_in 128 143 b1
  else is_cont b1.

(** The length of the well-formed UTF-8 sequence at the head of [bs], or
    [0] when there is none. *)
Definition utf8_seq_len (bs : bytes) : nat :=
  match bs with
  | [] => 0
  | b0 :: r0 =>
      if byte_in 0 127 b0 then 1
      else if byte_in 194 223 b0 then
        match r0 with
        | b1 :: _ => if is_cont b1 then 2 else 0
        | _ => 0
        end
      else if byte_in 224 239 b0 then
        match r0 with
        | b1 :: b2 :: _ => if second_ok b0 b1 && is_cont b2 then 3 else 0
        | _ => 0
        end
      else if byte_in 240 244 b0 then
        match r0 with
        | b1 :: b2 :: b3 :: _ =>
            if second_ok b0 b1 && is_cont b2 && is_cont b3 then 4 else 0
        | _ => 0
        end
      else 0
  end%nat.

Definition string_of_bytes (bs : bytes) : string :=
  String.string_of_list_byte bs.

(** [bs.decode('utf-8', errors='ignore')]: the well-formed sequences are
    kept, every other byte is dropped.  (CPython drops an ill-formed
    prefix as a whole; its bytes after the first are continuation bytes,
    which are dropped one by one here, to the same result.) *)
Fixpoint decode_ignore_go (fuel : nat) (bs : bytes) : string :=
  match fuel with
  | O => ""
  | S fuel' =>
      match bs with
      | [] => ""
      | _ :: r0 =>
          match utf8_seq_len bs with
          | O => decode_ignore_go fuel' r0
          | n => string_of_bytes (take n bs) +:+ decode_ignore_go fuel' (drop n bs)
          end
      end
  end.

Definition decode_ignore (bs : bytes) : string :=
  decode_ignore_go (List.length bs) bs.

(** [bs.decode('utf-8')]: [None] when it raises [UnicodeDecodeError]. *)
Fixpoint decode_strict_go (fuel : nat) (bs : bytes) : option string :=
  match fuel with
  | O => match bs with [] => Some "" | _ => None end
  | S fuel' =>
      match bs with
      | [] => Some ""
      | _ :: _ =>
          match utf8_seq_len bs with
          | O => None
          | n => (fun s => string_of_bytes (take n bs) +:+ s) <$> decode_strict_go fuel' (drop n bs)
          end
      end
  end.

Definition decode_strict (bs : bytes) : option string :=
  decode_strict_go (List.length bs) bs.

Definition hex_digit (n : N) : ascii :=
  if (n <? 10)%N then ascii_of_N (48 + n) else ascii_of_N (87 + n).

(** [bs.hex()] *)
Fixpoint hex (bs : bytes) : string :=
  match bs with
  | [] => ""
  | b :: r =>
      String (hex_digit (Byte.to_N b / 16)) (String (hex_digit (Byte.to_N b mod 16)) (hex r))
  end.

(** bonjour_gui.py, [safe_decode] on a [bytes] value. *)
Definition safe_decode (x : bytes) : string :=
  match decode_strict x with
  | Some s => s
  | None => "0x" +:+ hex x
  end.

(** What zeroconf resolves for one service instance. *)
Record ServiceInfo := {
  addresses : list bytes;
  server : string;
  type_ : string;
  (** the TXT record, in order; a key or a value may be [None] *)
  properties : list (option bytes * option bytes)
}.

(** mdns.py lines 108-114: the TXT properties of one instance. *)
Definition txt_props (props : list (option bytes * option bytes)) : gmap string string :=
  foldl (fun acc kv =>
           match kv with
           | (Some k, Some v) => <[decode_ignore k := decode_ignore v]> acc
           | _ => acc
           end) ∅ props.

(** [str(b)] for a byte. *)
Definition decimal (n : N) : string :=
  DecimalString.NilEmpty.string_of_uint (N.to_uint n).

(** [".".join(str(b) for b in addr)] *)
Definition dotted (addr : bytes) : string :=
  String.concat "." (map (fun b => decimal (Byte.to_N b)) addr).

(** mdns.py lines 102-122: one iteration of the loop over the instances. *)
Definition add_instance (acc : gmap string mdns_fact) (entry : string * option ServiceInfo)
  : gmap string mdns_fact :=
  match entry.2 with
  | None => acc
  | Some info =>
      match addresses info with
      | [] => acc
      | a :: _ =>
          let addr := dotted a in
          let fresh := {| f_hostname := Some (rstrip_dot (server info));
                          f_services := Some [];
                          f_mdns_props := Some ∅ |} in
          let e := default fresh (acc !! addr) in
          <[addr := {| f_hostname := f_hostname e;
                       f_services := Some (default [] (f_services e) ++ [type_ info]);
                       f_mdns_props :=
                         Some (txt_props (properties info) ∪ default ∅ (f_mdns_props e)) |}]> acc
      end
  end.

(** The mapping [MDNSWorker.run] emits with [mdns_done], from the
    instances found and what each resolved to. *)
Definition MDNSWorker_hosts (found : list (string * option ServiceInfo))
  : gmap string mdns_fact :=
  foldl add_instance ∅ found.

(** ** Fixtures for the concrete runs *)

Definition demo_services (p : Z) : option string :=
  if decide (p = 80) then Some "http"
  else if decide (p = 443) then Some "https"
  else None.

(** No manuf parser, one override of the OUI table, one Apple prefix. *)
Definition demo_globals : Globals := {|
  mac_parser := None;
  extra_oui := {[ "AABBCC" := "Other" ]};
  apple_model_map := {[ "F0B479" := "MacBookAir" ]};
  gethostbyaddr := fun _ => None;
  getservbyport := demo_services;
  SERVICE_NAMES := ∅;
  is_valid_subnet := fun s => bool_decide (s = "192.168.1.0/24")
|}.

Definition session_init (procs : list (string + list string)) : session :=
  {| s_heap := []; s_win := ScannerWindow_init; s_procs := procs;
     s_mdns := []; s_timeouts := [] |}.

(** ** The words of the specification *)

(** "The first non-empty value, in that order" (the empty string when
    there is none). *)
Fixpoint first_nonempty (l : list string) : string :=
  match l with
  | [] => ""
  | s :: rest => if decide (s = "") then first_nonempty rest else s
  end.

(** The value of a TXT key, empty when the key is absent. *)
Definition props_get (props : gmap string string) (key : string) : string :=
  default "" (props !! key).

(** Fixtures: a table of two hosts with mDNS fields of an earlier cycle,
    and a mapping that names only the first. *)
Definition demo_host_A : host :=
  {| ip := "10.0.0.7"; hostname := ""; mac := "AA:BB:CC:00:00:01"; ports := [];
     vendor := "Acme"; model := ""; mdns_name := "old-a.local";
     mdns_services := ["_ipp._tcp.local."]; mdns_props := {[ "ty" := "Old" ]} |}.

Definition demo_host_B : host :=
  {| ip := "10.0.0.8"; hostname := ""; mac := ""; ports := [PortEntry 22 "ssh"];
     vendor := ""; model := "Kept"; mdns_name := "old-b.local";
     mdns_services := ["_ssh._tcp.local."]; mdns_props := {[ "vn" := "Stale" ]} |}.

Definition demo_heap : list host := [demo_host_A; demo_host_B].

Definition demo_window : ScannerWindow :=
  {| hosts := [0%nat; 1%nat]; host_port_threads := ∅; advanced_mode := false |}.

Definition demo_fact : mdns_fact :=
  {| f_hostname := Some "printer.local";
     f_services := Some ["_ipp._tcp.local."];
     f_mdns_props := Some {[ "ty" := "ACME Printer 100"; "" := "x" ]} |}.

Definition demo_results : gmap string mdns_fact := {[ "10.0.0.7" := demo_fact ]}.


(** A host discovered earlier that carries an mDNS vendor hint. *)
Definition hinted_host : host :=
  {| ip := "10.0.0.7"; hostname := ""; mac := ""; ports := []; vendor := "";
     model := ""; mdns_name := ""; mdns_services := [];
     mdns_props := {[ "vn" := "Acme" ]} |}.

Definition hinted_thread : ScanThread :=
  {| t_hosts := [0%nat]; t_seen_ips := {[ "10.0.0.7" ]} |}.

(** A report line for an address, as nmap prints it. *)
Definition report_line (addr : string) : string :=
  "Nmap scan report for " +:+ addr +:+ nl.


(** A resolved service instance whose TXT record holds a value and a key
    that are not UTF-8. *)
Definition demo_info : ServiceInfo :=
  {| addresses := [[x0a; x00; x00; x07]];
     server := "printer.local.";
     type_ := "_ipp._tcp.local.";
     properties := [ (Some [x69; x64], Some [xff; xfe]);
                     (Some [xff], Some [x31]) ] |}.

(** A deep scan whose ARP pass finds 10.0.0.1 and whose ICMP pass finds
    10.0.0.2, then 10.0.0.1 again. *)
Definition demo_deep_procs : list (string + list string) :=
  [ inr [report_line "10.0.0.1"];
    inr [report_line "10.0.0.2"; report_line "10.0.0.1"];
    inr [] ].

(** A quick scan that reports 10.0.0.1 twice. *)
Definition demo_quick_procs : list (string + list string) :=
  [ inr [report_line "10.0.0.1"; report_line "10.0.0.2"; report_line "10.0.0.1"] ].


(** The discovery thread's invariant: its references are allocated, the
    addresses of its hosts are pairwise distinct, and all are in
    [seen_ips]. *)
Definition thread_inv (hp : list host) (t : ScanThread) : Prop :=
  Forall (fun l => (l < List.length hp)%nat) (t_hosts t)
  ∧ NoDup (map ip (deref hp (t_hosts t)))
  ∧ ∀ x, x ∈ map ip (deref hp (t_hosts t)) → x ∈ t_seen_ips t.


(** The signals a discovery thread emits while it reads lines. *)
Definition progress_signal (sig : scan_signal) : Prop :=
  match sig with
  | Sresult _ | Sdiscovery_update _ => True
  | Sdiscovery_finished | Serror _ => False
  end.


(** ** Views of a host used to state what an operation leaves alone *)

(** What discovery and the port scans own: everything but [model] and
    the three mDNS fields. *)
Definition discovery_fields (h : host)
  : string * string * string * list port_entry * string :=
  (ip h, hostname h, mac h, ports h, vendor h).

(** Everything but the three mDNS fields. *)
Definition non_mdns_fields (h : host)
  : string * string * string * list port_entry * string * string :=
  (ip h, hostname h, mac h, ports h, vendor h, model h).

(** The update [_on_mdns_partial] applies to the host it finds. *)
Definition set_mdns_partial (mdns : mdns_fact) (h : host) : host :=
  set_mdns_props (default ∅ (f_mdns_props mdns))
    (set_mdns_services (default [] (f_services mdns))
       (set_mdns_name (default "" (f_hostname mdns)) h)).


(** ** Views of what the mDNS worker found *)

(** The key under which an instance is filed: the dotted form of its
    first address, when it was resolved and has one. *)
Definition instance_ip (entry : string * option ServiceInfo) : option string :=
  match entry.2 with
  | Some info =>
      match addresses info with
      | a :: _ => Some (dotted a)
      | [] => None
      end
  | None => None
  end.

(** The resolved instances filed under [k], in the order they are visited. *)
Definition instances_at (k : string) (found : list (string * option ServiceInfo))
  : list ServiceInfo :=
  omap (fun entry =>
          match entry.2 with
          | Some info => if decide (instance_ip entry = Some k) then Some info else None
          | None => None
          end) found.

(** The values a TXT record gives for the decoded key [k], in order. *)
Definition txt_values (k : string) (props : list (option (list byte) * option (list byte)))
  : list string :=
  omap (fun kv =>
          match kv with
          | (Some a, Some b) =>
              if decide (decode_ignore a = k) then Some (decode_ignore b) else None
          | _ => None
          end) props.


(** ** Shapes of text used to state what the parsers accept *)

(** Every character of [s] satisfies [p]. *)
Fixpoint str_forall (p : ascii -> bool) (s : string) : bool :=
  match s with
  | EmptyString => true
  | String c s' => p c && str_forall p s'
  end.

Definition not_space (c : ascii) : bool := negb (isspace c).


(** ** Lines as nmap and the port scanner print them *)

(** [Nmap scan report for <name> (<addr>)]: a host with a resolved name. *)
Definition named_report_line (name addr : string) : string :=
  "Nmap scan report for " +:+ name +:+ " (" +:+ addr +:+ ")" +:+ nl.

(** [MAC Address: <mac> (<vendor>)] *)
Definition vendor_mac_line (m v : string) : string :=
  "MAC Address: " +:+ m +:+ " (" +:+ v +:+ ")" +:+ nl.

(** [MAC Address: <mac>], no vendor in parentheses. *)
Definition bare_mac_line (m : string) : string :=
  "MAC Address: " +:+ m +:+ nl.

(** [Discovered open port <p>/tcp on <addr>] *)
Definition open_port_line (addr : string) (p : N) : string :=
  "Discovered open port " +:+ decimal p +:+ "/tcp on " +:+ addr.

Definition is_addr_char (c : ascii) : bool := isdigit c || Ascii.eqb c "."%char.

Definition not_paren (c : ascii) : bool := negb (Ascii.eqb c ")"%char).


(** ** The port number of a matched line *)

(** The fold of [int_of_digits], from an accumulator. *)
Definition digits_value (acc : Z) (s : string) : Z :=
  fold_left (fun acc c => 10 * acc + Z.of_N (code c - 48)) (String.list_ascii_of_string s) acc.

(** ** scanning.py: the tables loaded at import *)

(** [k.upper().replace('-', '').replace(':', '')] *)
Definition normalize_key (k : string) : string :=
  remove_char ":"%char (remove_char "-"%char (upper k)).

(** The body of the loop over the two file names (lines 22-29).  A file
    is [None] when opening or [json.load] raises, or when it is not an
    object (the bare [except: continue]); else it is the items of the
    object, in order. *)
Definition load_oui_file (acc : gmap string string) (file : option (list (string * string)))
  : gmap string string :=
  match file with
  | None => acc
  | Some data => foldl (fun acc kv => <[normalize_key kv.1 := kv.2]> acc) acc data
  end.

(** [extra_oui] after the loop over [('oui_extra.json', 'mac_overrides.json')]. *)
Definition load_extra_oui (oui_extra mac_overrides : option (list (string * string)))
  : gmap string string :=
  load_oui_file (load_oui_file ∅ oui_extra) mac_overrides.

(** [apple_model_map] (lines 32-40): the dictionary comprehension, or the
    empty dictionary when the file cannot be loaded. *)
Definition load_apple_model_map (apple_models : option (list (string * string)))
  : gmap string string :=
  load_oui_file ∅ apple_models.

(** The values the two files give for the normalised key [p], in the
    order they are read. *)
Definition oui_values (p : string) (data : list (string * string)) : list string :=
  omap (fun kv => if decide (normalize_key kv.1 = p) then Some kv.2 else None) data.

Definition file_items (file : option (list (string * string))) : list (string * string) :=
  default [] file.

(** ** mdns.py: the listeners *)

(** What a [ServiceBrowser] tells its listener. *)
Inductive browse_event :=
| add_service (name : string)
| remove_service (name : string)
| update_service (name : string).

(** [TypeListener]: [self.types], a set. *)
Definition TypeListener_step (types : gset string) (ev : browse_event) : gset string :=
  match ev with
  | add_service name => {[name]} ∪ types
  | remove_service _ | update_service _ => types
  end.

(** A Python dictionary with its insertion order: [d[k] = v] keeps the
    place of a key that is present and appends a new one. *)
Definition dict_set {V} (k : string) (v : V) (d : list (string * V)) : list (string * V) :=
  if decide (k ∈ d.*1)
  then map (fun kv => if decide (kv.1 = k) then (k, v) else kv) d
  else d ++ [(k, v)].

(** [d.pop(k, None)] *)
Definition dict_pop {V} (k : string) (d : list (string * V)) : list (string * V) :=
  filter (fun kv => kv.1 ≠ k) d.

(** [HostListener]: [self.hosts]. *)
Definition HostListener_step (hosts : list (string * option ServiceInfo))
    (ev : browse_event) : list (string * option ServiceInfo) :=
  match ev with
  | add_service name => dict_set name None hosts
  | remove_service name => dict_pop name hosts
  | update_service _ => hosts
  end.

(** [discover_all_mdns]: the listener's dictionary after the events that
    the browsers delivered before [zc.close()]. *)
Definition discover_all_mdns (events : list browse_event)
  : list (string * option ServiceInfo) :=
  foldl HostListener_step [] events.

(** The last of the [add_service] and [remove_service] events about
    [name], if any. *)
Definition about (name : string) (ev : browse_event) : bool :=
  match ev with
  | add_service n | remove_service n => bool_decide (n = name)
  | update_service _ => false
  end.

Definition last_about (name : string) (events : list browse_event) : option browse_event :=
  last (omap (fun ev => if about name ev then Some ev else None) events).


(** ** mdns.py: the worker's lookups *)

(** One lookup of phase 3 (lines 93-98).  [lookup ty name] is what
    [zc.get_service_info(ty, name)] returns, [None] also when it raises. *)
Definition lookup_step (lookup : string -> string -> option ServiceInfo) (ty : string)
    (hosts : list (string * option ServiceInfo)) (name : string)
  : list (string * option ServiceInfo) :=
  match lookup ty name with
  | Some info => dict_set name (Some info) hosts
  | None => hosts
  end.

(** Phase 3 (lines 91-98): every name is looked up under every type.
    [types] is the order in which the set of types is iterated; the
    names are the keys of the dictionary when a type's turn begins.
    Events that arrive during the lookups are not modelled. *)
Definition phase3 (types : list string) (lookup : string -> string -> option ServiceInfo)
    (hosts : list (string * option ServiceInfo)) : list (string * option ServiceInfo) :=
  foldl (fun hosts ty => foldl (lookup_step lookup ty) hosts (hosts.*1)) hosts types.

(** [MDNSWorker.run]: the mapping sent with [mdns_done]. *)
Definition MDNSWorker_run (types : list string) (events : list browse_event)
    (lookup : string -> string -> option ServiceInfo) : gmap string mdns_fact :=
  MDNSWorker_hosts (phase3 types lookup (foldl HostListener_step [] events)).

(** The answer kept for [name]: the one of the last type that has one. *)
Definition last_answer (types : list string) (lookup : string -> string -> option ServiceInfo)
    (name : string) : option ServiceInfo :=
  last (omap (fun ty => lookup ty name) types).


(** What one type's turn of phase 3 makes of an entry. *)
Definition answer (lookup : string → string → option ServiceInfo) (ty : string)
    (kv : string * option ServiceInfo) : string * option ServiceInfo :=
  (kv.1, match lookup ty kv.1 with Some i => Some i | None => kv.2 end).

(** ** The vendor prefix and the case mapping *)

(** Text in which every character is ASCII: there [upper] is Python's
    [str.upper], and [String.length] and [slice_from] are Python's [len]
    and slice. *)
Definition is_ascii (s : string) : bool :=
  str_forall (fun c => (code c <? 128)%N) s.

(** Lines 925-927 with [str.upper] as a parameter; [strip_vendor_prefix]
    is this function at [upper]. *)
Definition strip_vendor_prefix_with (str_upper : string -> string)
    (vend md_val : string) : string :=
  let vendor_prefix := str_upper vend +:+ " " in
  if startswith (str_upper md_val) vendor_prefix
  then slice_from (String.length vendor_prefix) md_val
  else md_val.

(** Lines 916-929 alike; [merge_mdns_model] is this function at [upper]. *)
Definition merge_mdns_model_with (str_upper : string -> string) (h : host) : host :=
  let md_val := strip_vendor_prefix_with str_upper (vendor h) (md_candidate (mdns_props h)) in
  if nonempty md_val && negb (is_placeholder md_val) then set_model md_val h else h.

(** The letter ß (U+00DF).  In the texts below a character is one code
    point, as Python counts them. *)
Definition eszett : ascii := ascii_of_N 223.

(** [str.upper] on text made of ASCII characters and ß: ß becomes SS, so
    the result is longer than the text. *)
Fixpoint upper_eszett (s : string) : string :=
  match s with
  | EmptyString => EmptyString
  | String c s' =>
      if (code c =? 223)%N then String "S" (String "S" (upper_eszett s'))
      else String (upper_char c) (upper_eszett s')
  end.

(** The vendor Straße, and a host of that vendor that advertises the
    model Straße X1. *)
Definition eszett_vendor : string := "Stra" +:+ String eszett "e".

Definition eszett_candidate : string := eszett_vendor +:+ " X1".

Definition eszett_host : host :=
  {| ip := "10.0.0.7"; hostname := ""; mac := ""; ports := [];
     vendor := eszett_vendor; model := ""; mdns_name := ""; mdns_services := [];
     mdns_props := {[ "ty" := eszett_candidate ]} |}.

(** ** The host lists a pass sends *)

(** The snapshots carried by the [result] signals of a run, in order. *)
Definition snapshots (out : list scan_signal) : list (list loc) :=
  omap (fun sig => match sig with Sresult s => Some s | _ => None end) out.

(** * Properties *)

(** ** Sanity checks of the parsers on the lines of the specification *)

Example match_report_plain :
  match_report ("Nmap scan report for 192.168.1.5" +:+ nl)
  = Some ("192.168.1.5" +:+ nl, None)
  ∧ strip ("192.168.1.5" +:+ nl) = "192.168.1.5".
Proof. split; reflexivity. Qed.

Example match_report_named :
  match_report ("Nmap scan report for printer.local (192.168.1.9)" +:+ nl)
  = Some ("printer.local", Some "192.168.1.9").
Proof. reflexivity. Qed.

Example search_mac_vendor :
  search_mac ("MAC Address: AA:BB:CC:DD:EE:FF (Acme Corp)" +:+ nl)
  = Some ("AA:BB:CC:DD:EE:FF", Some "Acme Corp").
Proof. reflexivity. Qed.

Example search_mac_bare :
  search_mac "MAC Address: AA:BB:CC:DD:EE:FF" = Some ("AA:BB:CC:DD:EE:FF", None).
Proof. reflexivity. Qed.

Example search_open_port_line :
  search_open_port "Discovered open port 443/tcp on 10.0.0.7" = Some 443.
Proof. reflexivity. Qed.

Example decode_examples :
  decode_strict [x69; x64] = Some "id"
  ∧ decode_ignore [x69; x64] = "id"
  ∧ decode_strict [xe2; x82] = None
  ∧ decode_ignore [x41; xe2; x82; x42] = "AB"
  ∧ dotted [x0a; x00; x00; x07] = "10.0.0.7".
Proof. repeat split; reflexivity. Qed.

(** ** Strings *)

Lemma app_cons (c : ascii) (a b : string) : String c a +:+ b = String c (a +:+ b).
Proof. reflexivity. Qed.

Lemma upper_length (s : string) : String.length (upper s) = String.length s.
Proof. induction s as [|c s IH]; simpl; [reflexivity | now rewrite IH]. Qed.

Lemma upper_app (a b : string) : upper (a +:+ b) = upper a +:+ upper b.
Proof.
  induction a as [|c a IH]; [reflexivity|].
  rewrite app_cons. simpl. now rewrite IH, app_cons.
Qed.

Lemma upper_slice_to (n : nat) (s : string) : upper (slice_to n s) = slice_to n (upper s).
Proof.
  revert s; induction n as [|n IH]; intros [|c s]; simpl; try reflexivity.
  now rewrite IH.
Qed.

Lemma slice_to_from (n : nat) (s : string) : slice_to n s +:+ slice_from n s = s.
Proof.
  revert s; induction n as [|n IH]; intros [|c s]; simpl; try reflexivity.
  now rewrite app_cons, IH.
Qed.

Lemma prefix_slice_to (p s : string) :
  String.prefix p s = true → slice_to (String.length p) s = p.
Proof.
  revert s; induction p as [|a p IH]; intros [|b s]; simpl; try easy.
  destruct (Ascii.ascii_dec a b) as [->|]; [|easy].
  intros H. now rewrite (IH _ H).
Qed.

Lemma length_app_space (s : string) : String.length (s +:+ " ") = S (String.length s).
Proof.
  induction s as [|c s IH]; [reflexivity|].
  rewrite app_cons. simpl. now rewrite IH.
Qed.

Lemma nonempty_true (s : string) : nonempty s = true ↔ s ≠ "".
Proof. destruct s; simpl; split; intros; congruence. Qed.

Lemma or_str_spec (a b : string) : or_str a b = if decide (a = "") then b else a.
Proof. destruct a; reflexivity. Qed.

(** A string whose first character is kept by [rstrip_by] still starts with it. *)
Lemma rstrip_by_head (p : ascii → bool) (c : ascii) (s : string) :
  p c = false → ∃ r, rstrip_by p (String c s) = String c r.
Proof.
  intros Hc. simpl. destruct (rstrip_by p s); rewrite ?Hc; eauto.
Qed.

Lemma rstrip_by_cons (p : ascii → bool) (c : ascii) (s : string) :
  rstrip_by p (String c s) =
  match rstrip_by p s with
  | EmptyString => if p c then EmptyString else String c EmptyString
  | r => String c r
  end.
Proof. reflexivity. Qed.

Lemma rstrip_by_idem (p : ascii → bool) (s : string) :
  rstrip_by p (rstrip_by p s) = rstrip_by p s.
Proof.
  induction s as [|c s IH]; [reflexivity|].
  rewrite rstrip_by_cons.
  destruct (rstrip_by p s) as [|d r] eqn:E.
  - destruct (p c) eqn:Hc; [reflexivity|]. simpl. now rewrite Hc.
  - rewrite rstrip_by_cons, IH. reflexivity.
Qed.

Lemma lstrip_by_head (p : ascii → bool) (c : ascii) (s : string) :
  p c = false → lstrip_by p (String c s) = String c s.
Proof. intros Hc; simpl; now rewrite Hc. Qed.

Lemma lstrip_by_cases (p : ascii → bool) (s : string) :
  lstrip_by p s = "" ∨ ∃ c r, lstrip_by p s = String c r ∧ p c = false.
Proof.
  induction s as [|c s IH]; simpl; [now left|].
  destruct (p c) eqn:Hc; [exact IH | right; eauto].
Qed.

(** [strip] is idempotent: a stripped address is its own clean form. *)
Lemma strip_idem (s : string) : strip (strip s) = strip s.
Proof.
  unfold strip. destruct (lstrip_by_cases isspace s) as [E | (c & r & E & Hc)].
  - rewrite E. reflexivity.
  - rewrite E. destruct (rstrip_by_head isspace c r Hc) as [r' Hr].
    rewrite Hr, (lstrip_by_head _ _ _ Hc), <- Hr. apply rstrip_by_idem.
Qed.

(** ** The heap and the host table *)

(** A loop that updates the hosts of a list of references in place
    leaves the other locations alone. *)
Lemma foldl_alter_lookup_notin (f : host → host) (locs : list loc) (hp : heap) (l : loc) :
  l ∉ locs → foldl (fun hp l => alter f l hp) hp locs !! l = hp !! l.
Proof.
  revert hp. induction locs as [|a locs IH]; intros hp Hnin; cbn [foldl]; [reflexivity|].
  apply not_elem_of_cons in Hnin as [Hne Hnin].
  rewrite IH by exact Hnin. apply list_lookup_alter_ne. congruence.
Qed.

(** What a listed location holds afterwards, when the update is
    idempotent (a reference listed twice is updated twice). *)
Lemma foldl_alter_lookup (f : host → host) (locs : list loc) (hp : heap) (l : loc) :
  (∀ h, f (f h) = f h) → l ∈ locs →
  foldl (fun hp l => alter f l hp) hp locs !! l = f <$> (hp !! l).
Proof.
  intros Hidem. revert hp. induction locs as [|a locs IH]; intros hp Hin; cbn [foldl].
  - now apply elem_of_nil in Hin.
  - destruct (decide (a = l)) as [->|Hne].
    + destruct (decide (l ∈ locs)) as [Hl|Hl].
      * rewrite IH by exact Hl. rewrite list_lookup_alter_eq.
        destruct (hp !! l) as [h|]; cbn; [f_equal; apply Hidem | reflexivity].
      * rewrite foldl_alter_lookup_notin by exact Hl. apply list_lookup_alter_eq.
    + apply elem_of_cons in Hin as [?|Hin]; [congruence|].
      rewrite IH by exact Hin. now rewrite list_lookup_alter_ne.
Qed.

Lemma foldl_alter_length (f : host → host) (locs : list loc) (hp : heap) :
  List.length (foldl (fun hp l => alter f l hp) hp locs) = List.length hp.
Proof.
  revert hp. induction locs as [|a locs IH]; intros hp; simpl; [reflexivity|].
  now rewrite IH, length_alter.
Qed.

Lemma deref_cons (hp : heap) (a : loc) (locs : list loc) :
  deref hp (a :: locs)
  = match hp !! a with Some h => h :: deref hp locs | None => deref hp locs end.
Proof. reflexivity. Qed.

Lemma deref_app (hp : heap) (xs ys : list loc) :
  deref hp (xs ++ ys) = deref hp xs ++ deref hp ys.
Proof.
  induction xs as [|a xs IH]; [reflexivity|].
  rewrite <- app_comm_cons, !deref_cons, IH. now destruct (hp !! a).
Qed.

(** An in-place update that keeps the address keeps the addresses of
    every list of references. *)
Lemma deref_alter_ips (f : host → host) (l : loc) (hp : heap) (locs : list loc) :
  (∀ h, ip (f h) = ip h) →
  map ip (deref (alter f l hp) locs) = map ip (deref hp locs).
Proof.
  intros Hip. induction locs as [|a locs IH]; [reflexivity|].
  rewrite !deref_cons. destruct (decide (l = a)) as [->|Hne].
  - rewrite list_lookup_alter_eq. destruct (hp !! a); cbn; [|exact IH].
    now rewrite Hip, IH.
  - rewrite list_lookup_alter_ne by exact Hne.
    destruct (hp !! a); cbn; [now rewrite IH | exact IH].
Qed.

Lemma find_host_Some (hp : heap) (locs : list loc) (x : string) (l : loc) :
  find_host hp locs x = Some l → l ∈ locs ∧ ∃ h, hp !! l = Some h ∧ ip h = x.
Proof.
  induction locs as [|a locs IH]; simpl; [discriminate|].
  destruct (hp !! a) as [h|] eqn:E.
  - destruct (decide (ip h = x)) as [Hx|_].
    + intros [= <-]. split; [left | eauto].
    + intros H. destruct (IH H) as [? ?]. split; [now right | assumption].
  - intros H. destruct (IH H) as [? ?]. split; [now right | assumption].
Qed.

Lemma find_host_None (hp : heap) (locs : list loc) (x : string) :
  find_host hp locs x = None → x ∉ map ip (deref hp locs).
Proof.
  induction locs as [|a locs IH]; cbn [find_host].
  - intros _. apply not_elem_of_nil.
  - rewrite deref_cons. destruct (hp !! a) as [h|] eqn:E; cbn.
    + destruct (decide (ip h = x)) as [Hx|Hx]; [discriminate|].
      intros H [?|?]%elem_of_cons; [congruence | now apply IH].
    + exact IH.
Qed.

(** ** The mDNS merge, host by host *)

Lemma remove_empty_key_idem (h : host) :
  _remove_empty_mdns_model_keys (_remove_empty_mdns_model_keys h)
  = _remove_empty_mdns_model_keys h.
Proof.
  unfold _remove_empty_mdns_model_keys.
  destruct (decide (is_Some (mdns_props h !! ""))) as [Hs|Hn]; simpl.
  - rewrite decide_False; [reflexivity|].
    rewrite lookup_delete_eq. intros [? ?]; discriminate.
  - rewrite decide_False by exact Hn. reflexivity.
Qed.

Lemma remove_empty_key_props (h : host) :
  mdns_props (_remove_empty_mdns_model_keys h) = delete "" (mdns_props h).
Proof.
  unfold _remove_empty_mdns_model_keys.
  destruct (decide (is_Some (mdns_props h !! ""))) as [Hs|Hn]; simpl; [reflexivity|].
  symmetry. apply delete_id. destruct (mdns_props h !! ""); [|reflexivity].
  exfalso; apply Hn; eauto.
Qed.

Lemma remove_empty_key_fields (h : host) :
  let h' := _remove_empty_mdns_model_keys h in
  ip h' = ip h ∧ vendor h' = vendor h ∧ model h' = model h
  ∧ mdns_name h' = mdns_name h ∧ mdns_services h' = mdns_services h
  ∧ ports h' = ports h.
Proof.
  unfold _remove_empty_mdns_model_keys.
  destruct (decide (is_Some (mdns_props h !! ""))); simpl; auto 10.
Qed.

Lemma merge_mdns_model_fields (h : host) :
  let h' := merge_mdns_model h in
  ip h' = ip h ∧ vendor h' = vendor h ∧ mdns_name h' = mdns_name h
  ∧ mdns_services h' = mdns_services h ∧ mdns_props h' = mdns_props h.
Proof.
  unfold merge_mdns_model.
  destruct (nonempty _ && negb _); simpl; auto 10.
Qed.

Lemma mdns_merge_host_ip (results : gmap string mdns_fact) (h : host) :
  ip (mdns_merge_host results h) = ip h.
Proof.
  unfold mdns_merge_host.
  destruct (results !! ip h) as [f|]; [|reflexivity].
  destruct (fact_truthy f); [|reflexivity].
  destruct (f_mdns_props f); [|reflexivity].
  now destruct (merge_mdns_model_fields
    (set_mdns_props g (set_mdns_services (default [] (f_services f))
       (set_mdns_name (default "" (f_hostname f)) h)))) as [-> _].
Qed.

Lemma mdns_merge_host_idem (results : gmap string mdns_fact) (h : host) :
  mdns_merge_host results (mdns_merge_host results h) = mdns_merge_host results h.
Proof.
  unfold mdns_merge_host at 1. rewrite mdns_merge_host_ip.
  unfold mdns_merge_host.
  destruct (results !! ip h) as [f|]; [|reflexivity].
  destruct (fact_truthy f); [|reflexivity].
  destruct (f_mdns_props f) as [p|]; [|reflexivity].
  unfold merge_mdns_model; cbn.
  destruct (nonempty (strip_vendor_prefix (vendor h) (md_candidate p))
            && negb (is_placeholder (strip_vendor_prefix (vendor h) (md_candidate p))))
    eqn:E; cbn; rewrite E; reflexivity.
Qed.

(** What [_on_mdns_done] leaves at a location of the table. *)
Lemma on_mdns_done_lookup (results : gmap string mdns_fact) (hp : heap)
    (w : ScannerWindow) (l : loc) (h : host) :
  l ∈ hosts w → hp !! l = Some h →
  _on_mdns_done results hp w !! l
  = Some (_remove_empty_mdns_model_keys (mdns_merge_host results h)).
Proof.
  intros Hin Hl. unfold _on_mdns_done, _add_host_item.
  rewrite (foldl_alter_lookup _ _ _ _ remove_empty_key_idem Hin).
  rewrite (foldl_alter_lookup _ _ _ _ (mdns_merge_host_idem results) Hin).
  now rewrite Hl.
Qed.

(** ** The full mDNS merge *)

(** Every mapping [MDNSWorker.run] emits holds complete facts: the
    entry is created with its three keys and keeps them. *)
Lemma MDNSWorker_hosts_complete (found : list (string * option ServiceInfo)) :
  map_Forall (fun _ f => fact_complete f) (MDNSWorker_hosts found).
Proof.
  unfold MDNSWorker_hosts.
  assert (Hgen : ∀ acc, map_Forall (fun _ f => fact_complete f) acc →
            map_Forall (fun _ f => fact_complete f) (foldl add_instance acc found)).
  { induction found as [|[n oi] found IH]; intros acc Hacc; cbn [foldl]; [exact Hacc|].
    apply IH. unfold add_instance; cbn.
    destruct oi as [info|]; [|exact Hacc].
    destruct (addresses info) as [|a ?]; [exact Hacc|].
    apply map_Forall_insert_2; [|exact Hacc].
    destruct (acc !! dotted a) as [e|] eqn:E; cbn.
    - destruct (Hacc _ _ E) as (? & ? & ?). repeat split; eauto.
    - repeat split; eauto. }
  apply Hgen, map_Forall_empty.
Qed.

(** C4: when a full mDNS merge is applied, every host of the table whose
    address the mapping contains gets its [mdns_name], [mdns_services] and
    [mdns_props] from the matching fact (the window prunes the empty key
    of [mdns_props] when it redisplays the host), and every host whose
    address the mapping omits has the three fields reset to the empty
    string, the empty list and the empty map: nothing of an earlier cycle
    survives.  The facts are those the worker emits, with their three keys. *)
Theorem C4_mdns_full_resync (results : gmap string mdns_fact) (hp : list host)
    (w : ScannerWindow) (l : nat) (h : host) :
  map_Forall (fun _ f => fact_complete f) results →
  l ∈ hosts w →
  hp !! l = Some h →
  ∃ h', _on_mdns_done results hp w !! l = Some h'
        ∧ ip h' = ip h
        ∧ match results !! ip h with
          | Some f =>
              f_hostname f = Some (mdns_name h')
              ∧ f_services f = Some (mdns_services h')
              ∧ delete "" <$> f_mdns_props f = Some (mdns_props h')
          | None =>
              mdns_name h' = "" ∧ mdns_services h' = [] ∧ mdns_props h' = ∅
          end.
Proof.
  intros Hall Hin Hl.
  eexists. split; [apply (on_mdns_done_lookup _ _ _ _ _ Hin Hl)|].
  destruct (remove_empty_key_fields (mdns_merge_host results h))
    as (Hip & _ & _ & Hname & Hserv & _).
  rewrite Hip, Hname, Hserv, remove_empty_key_props, mdns_merge_host_ip.
  split; [reflexivity|].
  unfold mdns_merge_host.
  destruct (results !! ip h) as [f|] eqn:E.
  - destruct (Hall _ _ E) as ([n Hn] & [s Hs] & [p Hp]).
    unfold fact_truthy. rewrite Hn, Hs, Hp.
    rewrite (bool_decide_eq_true_2 (is_Some (Some n))) by eauto. cbn.
    destruct (merge_mdns_model_fields
      (set_mdns_props p (set_mdns_services s (set_mdns_name n h))))
      as (_ & _ & -> & -> & ->).
    repeat split.
  - cbn. rewrite delete_empty. repeat split.
Qed.

(** The table of the fixtures: host 0 is named by the mapping, host 1 is not. *)
Lemma C4_mdns_full_resync_witness :
  (∃ h', _on_mdns_done demo_results demo_heap demo_window !! 1%nat = Some h'
         ∧ ip h' = ip demo_host_B
         ∧ match demo_results !! ip demo_host_B with
           | Some f =>
               f_hostname f = Some (mdns_name h')
               ∧ f_services f = Some (mdns_services h')
               ∧ delete "" <$> f_mdns_props f = Some (mdns_props h')
           | None =>
               mdns_name h' = "" ∧ mdns_services h' = [] ∧ mdns_props h' = ∅
           end).
Proof.
  apply (C4_mdns_full_resync demo_results demo_heap demo_window 1%nat demo_host_B).
  - intros k f Hk. unfold demo_results in Hk.
    apply lookup_singleton_Some in Hk as [_ <-].
    repeat split; eexists; reflexivity.
  - right; left.
  - reflexivity.
Defined.

Example mdns_full_resync_run :
  _on_mdns_done demo_results demo_heap demo_window
  = [ {| ip := "10.0.0.7"; hostname := ""; mac := "AA:BB:CC:00:00:01"; ports := [];
         vendor := "Acme"; model := "Printer 100"; mdns_name := "printer.local";
         mdns_services := ["_ipp._tcp.local."];
         mdns_props := {[ "ty" := "ACME Printer 100" ]} |};
      {| ip := "10.0.0.8"; hostname := ""; mac := ""; ports := [PortEntry 22 "ssh"];
         vendor := ""; model := "Kept"; mdns_name := "";
         mdns_services := []; mdns_props := ∅ |} ].
Proof. vm_compute. reflexivity. Qed.

(** ** The model taken from the TXT properties *)

Lemma md_candidate_first_nonempty (p : gmap string string) :
  md_candidate p
  = first_nonempty [props_get p "model"; props_get p "md"; props_get p "am";
                    props_get p "ty"; props_get p "product"].
Proof.
  unfold md_candidate, props_get. rewrite !or_str_spec. reflexivity.
Qed.

Lemma is_placeholder_false (s : string) :
  is_placeholder s = false ↔ s ≠ "0" ∧ s ≠ "0,1,2".
Proof.
  unfold is_placeholder. rewrite orb_false_iff, !bool_decide_eq_false. reflexivity.
Qed.

(** A stripped prefix is the vendor name and a space, up to case. *)
Lemma strip_vendor_prefix_split (vend md_val : string) :
  startswith (upper md_val) (upper vend +:+ " ") = true →
  ∃ pre, md_val = pre +:+ strip_vendor_prefix vend md_val
         ∧ upper pre = upper vend +:+ " "
         ∧ strip_vendor_prefix vend md_val = slice_from (S (String.length vend)) md_val.
Proof.
  intros Hp. unfold strip_vendor_prefix. rewrite Hp.
  exists (slice_to (String.length (upper vend +:+ " ")) md_val).
  split; [symmetry; apply slice_to_from|]. split.
  - rewrite upper_slice_to. now apply prefix_slice_to.
  - now rewrite length_app_space, upper_length.
Qed.

(** For ASCII text the merge does what is expected of it: the model
    candidate is the first non-empty value among the keys [model], [md],
    [am], [ty], [product], in that order; when it starts, up to case,
    with the vendor name and a space, that prefix is removed; the host's
    model is overwritten exactly when what remains is non-empty and is
    neither ["0"] nor ["0,1,2"], and is kept otherwise.
    ["ACME Printer 100"] with vendor ["Acme"] gives ["Printer 100"]. *)
Theorem mdns_model_merge_ascii (results : gmap string mdns_fact) (hp : list host)
    (w : ScannerWindow) (l : nat) (h : host) (f : mdns_fact) (p : gmap string string) :
  l ∈ hosts w →
  hp !! l = Some h →
  results !! ip h = Some f →
  f_mdns_props f = Some p →
  is_ascii (vendor h) = true →
  is_ascii (first_nonempty [props_get p "model"; props_get p "md"; props_get p "am";
                            props_get p "ty"; props_get p "product"]) = true →
  let cand := first_nonempty [props_get p "model"; props_get p "md"; props_get p "am";
                              props_get p "ty"; props_get p "product"] in
  let has_prefix := startswith (upper cand) (upper (vendor h) +:+ " ") in
  let rest := if has_prefix then slice_from (S (String.length (vendor h))) cand else cand in
  ∃ h', _on_mdns_done results hp w !! l = Some h'
        ∧ model h' = (if decide (rest ≠ "" ∧ rest ≠ "0" ∧ rest ≠ "0,1,2")
                      then rest else model h)
        ∧ (has_prefix = true →
           ∃ pre, cand = pre +:+ rest ∧ upper pre = upper (vendor h) +:+ " ")
        ∧ strip_vendor_prefix "Acme" "ACME Printer 100" = "Printer 100".
Proof.
  intros Hin Hl Hf Hp _ _ cand has_prefix rest.
  eexists. split; [apply (on_mdns_done_lookup _ _ _ _ _ Hin Hl)|].
  destruct (remove_empty_key_fields (mdns_merge_host results h))
    as (_ & _ & -> & _).
  assert (Hrest : strip_vendor_prefix (vendor h) (md_candidate p) = rest).
  { subst rest has_prefix cand. rewrite <- md_candidate_first_nonempty.
    destruct (startswith _ _) eqn:E.
    - now destruct (strip_vendor_prefix_split _ _ E) as (_ & _ & _ & ->).
    - unfold strip_vendor_prefix. now rewrite E. }
  split; [|split; [|reflexivity]].
  - unfold mdns_merge_host. rewrite Hf, Hp.
    assert (Ht : fact_truthy f = true).
    { unfold fact_truthy. rewrite Hp.
      rewrite (bool_decide_eq_true_2 (is_Some (Some p))) by eauto.
      now rewrite orb_true_r. }
    rewrite Ht. unfold merge_mdns_model. cbn. rewrite Hrest.
    destruct (decide (rest ≠ "" ∧ rest ≠ "0" ∧ rest ≠ "0,1,2")) as [(H1 & H2)|Hn].
    + apply nonempty_true in H1. apply is_placeholder_false in H2.
      now rewrite H1, H2.
    + destruct (nonempty rest) eqn:E1; [|reflexivity].
      destruct (is_placeholder rest) eqn:E2; [reflexivity|].
      exfalso. apply Hn. apply nonempty_true in E1. apply is_placeholder_false in E2.
      tauto.
  - intros E. subst has_prefix cand. rewrite <- md_candidate_first_nonempty in *.
    destruct (strip_vendor_prefix_split _ _ E) as (pre & H1 & H2 & _).
    exists pre. split; [|exact H2]. now rewrite <- Hrest.
Qed.

(** Host 0 of the fixtures: vendor ["Acme"], candidate ["ACME Printer 100"]. *)
Lemma mdns_model_merge_ascii_witness :
  let cand := first_nonempty
                [props_get {[ "ty" := "ACME Printer 100"; "" := "x" ]} "model";
                 props_get {[ "ty" := "ACME Printer 100"; "" := "x" ]} "md";
                 props_get {[ "ty" := "ACME Printer 100"; "" := "x" ]} "am";
                 props_get {[ "ty" := "ACME Printer 100"; "" := "x" ]} "ty";
                 props_get {[ "ty" := "ACME Printer 100"; "" := "x" ]} "product"] in
  let has_prefix := startswith (upper cand) (upper (vendor demo_host_A) +:+ " ") in
  let rest := if has_prefix
              then slice_from (S (String.length (vendor demo_host_A))) cand else cand in
  ∃ h', _on_mdns_done demo_results demo_heap demo_window !! 0%nat = Some h'
        ∧ model h' = (if decide (rest ≠ "" ∧ rest ≠ "0" ∧ rest ≠ "0,1,2")
                      then rest else model demo_host_A)
        ∧ (has_prefix = true →
           ∃ pre, cand = pre +:+ rest ∧ upper pre = upper (vendor demo_host_A) +:+ " ")
        ∧ strip_vendor_prefix "Acme" "ACME Printer 100" = "Printer 100".
Proof.
  apply (mdns_model_merge_ascii demo_results demo_heap demo_window 0%nat demo_host_A
           demo_fact {[ "ty" := "ACME Printer 100"; "" := "x" ]}).
  - left.
  - reflexivity.
  - reflexivity.
  - reflexivity.
  - reflexivity.
  - reflexivity.
Defined.

(** ** The vendor prefix outside ASCII *)

Lemma strip_vendor_prefix_with_upper (vend md_val : string) :
  strip_vendor_prefix_with upper vend md_val = strip_vendor_prefix vend md_val.
Proof. reflexivity. Qed.

Lemma merge_mdns_model_with_upper (h : host) :
  merge_mdns_model_with upper h = merge_mdns_model h.
Proof. reflexivity. Qed.

(** What the slice of line 927 removes: as many characters as the
    upper-cased vendor has, and one more. *)
Lemma strip_vendor_prefix_with_cut (str_upper : string → string) (vend md_val : string) :
  startswith (str_upper md_val) (str_upper vend +:+ " ") = true →
  strip_vendor_prefix_with str_upper vend md_val
  = slice_from (S (String.length (str_upper vend))) md_val.
Proof.
  intros H. unfold strip_vendor_prefix_with. rewrite H. now rewrite length_app_space.
Qed.

(** C5 at work (the claim fails here): the vendor is Straße and the
    host advertises the model Straße X1, which starts with the vendor
    name and a space.  [str.upper] turns ß into SS, so the upper-cased
    prefix has eight characters where the prefix in the candidate has
    seven; the slice [md_val[len(vendor_prefix):]] removes eight and
    the model stored is ["1"], not ["X1"].  With ASCII text, where
    upper-casing keeps the length, the same lines strip the prefix:
    ["ACME Printer 100"] with vendor ["Acme"] gives ["Printer 100"]. *)
Theorem C5_vendor_prefix_cut_by_upper_length (str_upper : string → string) :
  str_upper eszett_vendor = "STRASSE" →
  str_upper eszett_candidate = "STRASSE X1" →
  eszett_candidate = eszett_vendor +:+ " " +:+ "X1"
  ∧ md_candidate (mdns_props eszett_host) = eszett_candidate
  ∧ strip_vendor_prefix_with str_upper eszett_vendor eszett_candidate = "1"
  ∧ model (merge_mdns_model_with str_upper eszett_host) = "1"
  ∧ String.length (str_upper eszett_vendor) = S (String.length eszett_vendor)
  ∧ model (merge_mdns_model_with upper
             (set_mdns_props {[ "ty" := "ACME Printer 100" ]} (set_vendor "Acme" eszett_host)))
    = "Printer 100".
Proof.
  intros Hv Hc.
  assert (Hcand : md_candidate (mdns_props eszett_host) = eszett_candidate)
    by reflexivity.
  assert (Hcut : strip_vendor_prefix_with str_upper eszett_vendor eszett_candidate = "1").
  { rewrite strip_vendor_prefix_with_cut; rewrite Hv, ?Hc; reflexivity. }
  repeat split; try reflexivity; try exact Hcut.
  - unfold merge_mdns_model_with. rewrite Hcand.
    change (vendor eszett_host) with eszett_vendor. rewrite Hcut. reflexivity.
  - now rewrite Hv.
Qed.

(** The hypotheses hold of [str.upper] where it is defined here: on text
    of ASCII characters and ß. *)
Lemma C5_vendor_prefix_cut_by_upper_length_witness :
  eszett_candidate = eszett_vendor +:+ " " +:+ "X1"
  ∧ md_candidate (mdns_props eszett_host) = eszett_candidate
  ∧ strip_vendor_prefix_with upper_eszett eszett_vendor eszett_candidate = "1"
  ∧ model (merge_mdns_model_with upper_eszett eszett_host) = "1"
  ∧ String.length (upper_eszett eszett_vendor) = S (String.length eszett_vendor)
  ∧ model (merge_mdns_model_with upper
             (set_mdns_props {[ "ty" := "ACME Printer 100" ]} (set_vendor "Acme" eszett_host)))
    = "Printer 100".
Proof.
  apply (C5_vendor_prefix_cut_by_upper_length upper_eszett); reflexivity.
Defined.

(** ** What the port scanner prints *)

Lemma strip_prefix_app (p s : string) : strip_prefix p (p +:+ s) = Some s.
Proof.
  induction p as [|c p IH]; [now destruct s|].
  rewrite app_cons. cbn [strip_prefix]. now rewrite Ascii.eqb_refl.
Qed.

Lemma span_app (p : ascii → bool) (a rest : string) :
  str_forall p a = true →
  match rest with EmptyString => True | String c _ => p c = false end →
  span p (a +:+ rest) = (a, rest).
Proof.
  intros Ha Hrest. induction a as [|c a IH].
  - change ("" +:+ rest) with rest. destruct rest as [|c r]; [reflexivity|].
    cbn [span]. now rewrite Hrest.
  - rewrite app_cons. cbn [str_forall] in Ha. apply andb_prop in Ha as [Hc Ha].
    cbn [span]. rewrite Hc, (IH Ha). reflexivity.
Qed.

Lemma app_empty_r (s : string) : s +:+ "" = s.
Proof. induction s as [|c s IH]; [reflexivity|]. now rewrite app_cons, IH. Qed.

Lemma nonempty_ne (s : string) : s ≠ "" → nonempty s = true.
Proof. now destruct s. Qed.

Lemma search_here {A} (f : string → option A) (s : string) (r : A) :
  f s = Some r → search f s = Some r.
Proof. intros H. destruct s; cbn [search]; now rewrite H. Qed.

Lemma digits_value_acc (d : Decimal.uint) (acc : positive) :
  digits_value (Z.pos acc) (DecimalString.NilEmpty.string_of_uint d)
  = Z.pos (Pos.of_uint_acc d acc).
Proof.
  revert acc. induction d; intros acc; [reflexivity|..];
    cbn [DecimalString.NilEmpty.string_of_uint Pos.of_uint_acc];
    unfold digits_value in *; cbn [String.list_ascii_of_string fold_left];
    (etransitivity; [|apply IHd]); f_equal; vm_compute code; lia.
Qed.

Lemma digits_value_uint (d : Decimal.uint) :
  digits_value 0 (DecimalString.NilEmpty.string_of_uint d) = Z.of_N (Pos.of_uint d).
Proof.
  induction d; [reflexivity|..];
    cbn [DecimalString.NilEmpty.string_of_uint Pos.of_uint];
    unfold digits_value in *; cbn [String.list_ascii_of_string fold_left].
  - exact IHd.
  - apply (digits_value_acc d 1).
  - apply (digits_value_acc d 2).
  - apply (digits_value_acc d 3).
  - apply (digits_value_acc d 4).
  - apply (digits_value_acc d 5).
  - apply (digits_value_acc d 6).
  - apply (digits_value_acc d 7).
  - apply (digits_value_acc d 8).
  - apply (digits_value_acc d 9).
Qed.

Lemma int_of_digits_decimal (n : N) : int_of_digits (decimal n) = Z.of_N n.
Proof.
  unfold int_of_digits, decimal.
  change (fold_left _ _ 0) with
    (digits_value 0 (DecimalString.NilEmpty.string_of_uint (N.to_uint n))).
  rewrite digits_value_uint.
  change (Pos.of_uint (N.to_uint n)) with (N.of_uint (N.to_uint n)).
  now rewrite DecimalN.Unsigned.of_to.
Qed.

Lemma string_of_uint_digits (d : Decimal.uint) :
  str_forall isdigit (DecimalString.NilEmpty.string_of_uint d) = true.
Proof. induction d; [reflexivity|..]; exact IHd. Qed.

Lemma decimal_nonempty (n : N) : decimal n ≠ "".
Proof.
  unfold decimal. destruct n as [|p]; [discriminate|].
  intros H. pose proof (DecimalN.Unsigned.of_to (N.pos p)) as Hof.
  destruct (N.to_uint (N.pos p)); cbn in H; try discriminate H.
  cbn in Hof. discriminate Hof.
Qed.

Lemma search_open_port_of_line (addr : string) (p : N) :
  search_open_port (open_port_line addr p) = Some (Z.of_N p).
Proof.
  apply search_here. unfold match_open_port_here, open_port_line.
  rewrite strip_prefix_app.
  rewrite span_app; [|unfold decimal; apply string_of_uint_digits|reflexivity].
  rewrite (nonempty_ne _ (decimal_nonempty p)).
  change ("/tcp on " +:+ addr) with ("/tcp" +:+ (" on " +:+ addr)).
  rewrite strip_prefix_app.
  now rewrite int_of_digits_decimal.
Qed.

Lemma found_ports_of_lines (addr : string) (ps : list N) :
  found_ports (map (open_port_line addr) ps) = map Z.of_N ps.
Proof.
  unfold found_ports. induction ps as [|p ps IH]; [reflexivity|].
  cbn [map omap list_omap]. now rewrite search_open_port_of_line, IH.
Qed.

(** ** Port results *)

Lemma sorted_set_elem (found : list Z) (p : Z) : p ∈ sorted_set found ↔ p ∈ found.
Proof.
  unfold sorted_set. rewrite (merge_sort_Permutation Z.le). apply elem_of_remove_dups.
Qed.

Lemma StronglySorted_le_lt (l : list Z) :
  StronglySorted Z.le l → NoDup l → StronglySorted Z.lt l.
Proof.
  induction 1 as [|x l Hs IH Hall]; intros Hnd; constructor.
  - apply IH. now apply NoDup_cons in Hnd as [_ ?].
  - apply NoDup_cons in Hnd as [Hx _].
    rewrite Forall_forall in Hall |- *. intros y Hy.
    assert (x ≠ y) by (intros ->; contradiction).
    specialize (Hall y Hy). lia.
Qed.

(** [sorted(set(found))] is strictly ascending: sorted, without duplicates. *)
Lemma sorted_set_sorted (found : list Z) : StronglySorted Z.lt (sorted_set found).
Proof.
  apply StronglySorted_le_lt.
  - apply (StronglySorted_merge_sort Z.le).
  - unfold sorted_set. rewrite (merge_sort_Permutation Z.le). apply NoDup_remove_dups.
Qed.

Lemma map_normalize_PortDict `{G : Globals} (es : list port_entry) :
  map normalize_port (map PortDict es) = es.
Proof. induction es as [|e es IH]; simpl; [reflexivity | now rewrite IH]. Qed.

Lemma on_host_ports_multi_found `{G : Globals} (addr : string) (new_ports : list port_item)
    (hp : list host) (w : ScannerWindow) (l : nat) :
  find_host hp (hosts w) (strip addr) = Some l →
  on_host_ports_multi addr new_ports hp w
  = alter (set_ports (map normalize_port new_ports)) l hp.
Proof. intros H. unfold on_host_ports_multi. now rewrite H. Qed.

(** C3: a port-scan result for an address replaces the [ports] field of
    that host as a whole, whatever it held; the stored list has one entry
    per distinct port found, in strictly ascending order, each with the
    name the service table gives the port or the empty string; the other
    hosts are untouched.  The ports found are those of the lines the
    scanner printed: when it prints [Discovered open port <p>/tcp on <a>]
    for the ports 443, 80, 80, the host ends with 80/http, 443/https. *)
Theorem C3_port_result_replaces_ports `{G : Globals} (t : HostPortThread)
    (out : list string) (err : string) (hp : list host) (w : ScannerWindow)
    (l : nat) (h : host) :
  find_host hp (hosts w) (strip (hpt_ip t)) = Some l →
  hp !! l = Some h →
  let found := found_ports out in
  let hp' := (HostPortThread_complete t (Completed 0 out err) hp w).1 in
  hp' !! l
  = Some (set_ports
            (map (fun p => PortEntry p (default "" (getservbyport p))) (sorted_set found)) h)
  ∧ (∀ l', l' ≠ l → hp' !! l' = hp !! l')
  ∧ StronglySorted Z.lt (sorted_set found)
  ∧ (∀ p, p ∈ sorted_set found ↔ p ∈ found)
  ∧ (getservbyport 80 = Some "http" → getservbyport 443 = Some "https" →
     lookup_services [443; 80; 80] = [PortEntry 80 "http"; PortEntry 443 "https"])
  ∧ (∀ a ps, Forall (fun p => (p < 65536)%N) ps →
             out = map (open_port_line a) ps →
             found = map Z.of_N ps
             ∧ ports <$> hp' !! l
               = Some (map (fun p => PortEntry p (default "" (getservbyport p)))
                         (sorted_set (map Z.of_N ps))))
  ∧ (∀ a, getservbyport 80 = Some "http" → getservbyport 443 = Some "https" →
          out = map (open_port_line a) [443; 80; 80]%N →
          ports <$> hp' !! l = Some [PortEntry 80 "http"; PortEntry 443 "https"]).
Proof.
  intros Hfind Hl found hp'.
  assert (Hhp : hp' = alter (set_ports (lookup_services found)) l hp).
  { subst hp'. unfold HostPortThread_complete, HostPortThread_run.
    destruct (decide (0 = 0)) as [_|]; [|congruence].
    cbn [foldl deliver_port_signal fst snd].
    rewrite (on_host_ports_multi_found _ _ _ _ _ Hfind).
    now rewrite map_normalize_PortDict. }
  assert (Hports : ports <$> hp' !! l = Some (lookup_services found)).
  { rewrite Hhp, list_lookup_alter_eq, Hl. reflexivity. }
  rewrite Hports. rewrite Hhp. repeat split.
  - rewrite list_lookup_alter_eq, Hl. reflexivity.
  - intros l' Hne. apply list_lookup_alter_ne. congruence.
  - apply sorted_set_sorted.
  - apply sorted_set_elem.
  - apply sorted_set_elem.
  - intros H80 H443. unfold lookup_services.
    change (sorted_set [443; 80; 80]) with [80; 443]. cbn. now rewrite H80, H443.
  - subst found. rewrite H0. apply found_ports_of_lines.
  - subst found. rewrite H0, found_ports_of_lines. reflexivity.
  - intros a H80 H443 Hout. subst found. rewrite Hout, found_ports_of_lines.
    unfold lookup_services.
    change (sorted_set (map Z.of_N [443; 80; 80]%N)) with [80; 443].
    cbn. now rewrite H80, H443.
Qed.

Lemma C3_port_result_replaces_ports_witness :
  let t := {| hpt_ip := "10.0.0.8"; hpt_quick := false; hpt_custom_ports := None |} in
  let out := ["Discovered open port 443/tcp on 10.0.0.8";
              "Discovered open port 80/tcp on 10.0.0.8";
              "Discovered open port 80/tcp on 10.0.0.8"] in
  let found := found_ports out in
  let hp' := (@HostPortThread_complete demo_globals t (Completed 0 out "")
                demo_heap demo_window).1 in
  hp' !! 1%nat
  = Some (set_ports
            (map (fun p => PortEntry p (default "" (@getservbyport demo_globals p)))
               (sorted_set found)) demo_host_B)
  ∧ (∀ l', l' ≠ 1%nat → hp' !! l' = demo_heap !! l')
  ∧ StronglySorted Z.lt (sorted_set found)
  ∧ (∀ p, p ∈ sorted_set found ↔ p ∈ found)
  ∧ (@getservbyport demo_globals 80 = Some "http" →
     @getservbyport demo_globals 443 = Some "https" →
     @lookup_services demo_globals [443; 80; 80]
     = [PortEntry 80 "http"; PortEntry 443 "https"])
  ∧ (∀ a ps, Forall (fun p => (p < 65536)%N) ps →
             out = map (open_port_line a) ps →
             found = map Z.of_N ps
             ∧ ports <$> hp' !! 1%nat
               = Some (map (fun p => PortEntry p
                                       (default "" (@getservbyport demo_globals p)))
                         (sorted_set (map Z.of_N ps))))
  ∧ (∀ a, @getservbyport demo_globals 80 = Some "http" →
          @getservbyport demo_globals 443 = Some "https" →
          out = map (open_port_line a) [443; 80; 80]%N →
          ports <$> hp' !! 1%nat = Some [PortEntry 80 "http"; PortEntry 443 "https"]).
Proof.
  apply (@C3_port_result_replaces_ports demo_globals
           {| hpt_ip := "10.0.0.8"; hpt_quick := false; hpt_custom_ports := None |}
           _ "" demo_heap demo_window 1%nat demo_host_B).
  - reflexivity.
  - reflexivity.
Defined.

Example port_result_run :
  let t := {| hpt_ip := "10.0.0.8"; hpt_quick := false; hpt_custom_ports := None |} in
  let out := ["Discovered open port 443/tcp on 10.0.0.8";
              "Discovered open port 80/tcp on 10.0.0.8";
              "Discovered open port 80/tcp on 10.0.0.8"] in
  ports <$> (@HostPortThread_complete demo_globals t (Completed 0 out "")
               demo_heap demo_window).1 !! 1%nat
  = Some [PortEntry 80 "http"; PortEntry 443 "https"].
Proof. vm_compute. reflexivity. Qed.

(** C6, as the code has it: a port result never fails and never adds a
    record.  For a known address the first host with that address gets
    the delivered ports; for an unknown address the table is left as it
    was and the result is dropped. *)
Theorem C6_port_result_never_creates `{G : Globals} (addr : string)
    (new_ports : list port_item) (hp : list host) (w : ScannerWindow) :
  let hp' := on_host_ports_multi addr new_ports hp w in
  table_ips hp' w = table_ips hp w
  ∧ match find_host hp (hosts w) (strip addr) with
    | Some l =>
        ∃ h, hp !! l = Some h
             ∧ hp' !! l = Some (set_ports (map normalize_port new_ports) h)
    | None => hp' = hp ∧ strip addr ∉ table_ips hp' w
    end.
Proof.
  intros hp'. subst hp'. unfold on_host_ports_multi, table_ips.
  destruct (find_host hp (hosts w) (strip addr)) as [l|] eqn:E.
  - split; [now apply deref_alter_ips|].
    destruct (find_host_Some _ _ _ _ E) as (_ & h & Hl & _).
    exists h. split; [exact Hl|]. now rewrite list_lookup_alter_eq, Hl.
  - repeat split. now apply find_host_None.
Qed.

(** A port scan of 10.0.0.9 completes with port 80 open while the table
    does not hold 10.0.0.9: no record for it exists afterwards. *)
Lemma C6_port_result_unknown_ip_dropped :
  let t := {| hpt_ip := "10.0.0.9"; hpt_quick := false; hpt_custom_ports := None |} in
  let out := ["Discovered open port 80/tcp on 10.0.0.9"] in
  let hp' := (@HostPortThread_complete demo_globals t (Completed 0 out "")
                demo_heap demo_window).1 in
  @HostPortThread_run demo_globals t (Completed 0 out "")
  = [Presult "10.0.0.9" [PortDict (PortEntry 80 "http")]]
  ∧ table_ips hp' demo_window = ["10.0.0.7"; "10.0.0.8"]
  ∧ ¬ (∃ h, h ∈ deref hp' (hosts demo_window) ∧ ip h = "10.0.0.9").
Proof.
  cbv zeta. split; [vm_compute; reflexivity|]. split; [vm_compute; reflexivity|].
  intros (h & Hin & Hip).
  assert (Hmem : ip h ∈ ["10.0.0.7"; "10.0.0.8"]).
  { change ["10.0.0.7"; "10.0.0.8"] with
      (map ip (deref (@HostPortThread_complete demo_globals
         {| hpt_ip := "10.0.0.9"; hpt_quick := false; hpt_custom_ports := None |}
         (Completed 0 ["Discovered open port 80/tcp on 10.0.0.9"] "")
         demo_heap demo_window).1 (hosts demo_window))).
    apply list_elem_of_In, in_map, list_elem_of_In, Hin. }
  rewrite Hip in Hmem.
  apply elem_of_cons in Hmem as [?|Hmem]; [discriminate|].
  apply elem_of_cons in Hmem as [?|Hmem]; [discriminate|].
  now apply elem_of_nil in Hmem.
Qed.

(** ** MAC lines of the discovery output *)

Lemma resolve_vendor_first_nonempty `{G : Globals} (vendor_inline : option string)
    (m : string) (h : host) :
  resolve_vendor vendor_inline m h
  = first_nonempty
      [default "" vendor_inline;
       manuf_vendor m;
       default "" (extra_oui !! mac_prefix m);
       props_get (mdns_props h) "vn";
       if bool_decide (is_Some (apple_model_map !! mac_prefix m)) then "Apple" else ""].
Proof.
  unfold resolve_vendor, props_get.
  generalize (manuf_vendor m) (default "" (extra_oui !! mac_prefix m))
    (default "" (mdns_props h !! "vn"))
    (bool_decide (is_Some (apple_model_map !! mac_prefix m))).
  intros a b c d.
  destruct vendor_inline as [[|? ?]|], a, b, c, d; reflexivity.
Qed.

Lemma apply_mac_fields `{G : Globals} (m : string) (vendor_inline : option string) (h : host) :
  ip (apply_mac m vendor_inline h) = ip h
  ∧ mac (apply_mac m vendor_inline h) = m
  ∧ vendor (apply_mac m vendor_inline h) = resolve_vendor vendor_inline m h.
Proof. repeat split. Qed.

(** C2, as the code has it: when a MAC line is processed for the most
    recently discovered host, the vendor is the first non-empty of
    (1) the inline hint of the line, (2) the OUI lookup (manuf, then the
    override table), (3) the host's mDNS hint [vn], (4) ["Apple"] when the
    prefix is in the Apple-model table.  A prefix of the Apple table with
    a non-empty [vn] hint, no inline hint and no OUI entry resolves to the
    hint. *)
Theorem C2_vendor_priority `{G : Globals} (line m : string)
    (vendor_inline : option string) (hp : list host) (t : ScanThread) (l : nat) (h : host) :
  search_mac line = Some (m, vendor_inline) →
  last (t_hosts t) = Some l →
  hp !! l = Some h →
  let prefix := mac_prefix m in
  let hp' := (mac_step line hp t).1.1 in
  ∃ h', hp' !! l = Some h'
        ∧ mac h' = m
        ∧ vendor h'
          = first_nonempty
              [default "" vendor_inline;
               manuf_vendor m;
               default "" (extra_oui !! prefix);
               props_get (mdns_props h) "vn";
               if bool_decide (is_Some (apple_model_map !! prefix)) then "Apple" else ""]
        ∧ (vendor_inline = None → manuf_vendor m = "" → extra_oui !! prefix = None →
           is_Some (apple_model_map !! prefix) → props_get (mdns_props h) "vn" ≠ "" →
           vendor h' = props_get (mdns_props h) "vn").
Proof.
  intros Hm Hlast Hl prefix hp'. subst hp' prefix.
  unfold mac_step. rewrite Hm, Hlast. cbn [fst].
  exists (apply_mac m vendor_inline h).
  rewrite list_lookup_alter_eq, Hl.
  destruct (apply_mac_fields m vendor_inline h) as (_ & Hmac & Hv).
  rewrite Hmac, Hv, resolve_vendor_first_nonempty.
  repeat split.
  intros -> Hman Houi _ Hvn. cbn [first_nonempty default].
  rewrite Hman, Houi. cbn [default].
  rewrite !(decide_True (P := "" = "")) by reflexivity.
  now rewrite decide_False by exact Hvn.
Qed.

Lemma C2_vendor_priority_witness :
  let prefix := mac_prefix "F0:B4:79:00:00:01" in
  let hp' := (@mac_step demo_globals ("MAC Address: F0:B4:79:00:00:01" +:+ nl)
                [hinted_host] hinted_thread).1.1 in
  ∃ h', hp' !! 0%nat = Some h'
        ∧ mac h' = "F0:B4:79:00:00:01"
        ∧ vendor h'
          = first_nonempty
              [default "" None;
               @manuf_vendor demo_globals "F0:B4:79:00:00:01";
               default "" (@extra_oui demo_globals !! prefix);
               props_get (mdns_props hinted_host) "vn";
               if bool_decide (is_Some (@apple_model_map demo_globals !! prefix))
               then "Apple" else ""]
        ∧ (@None string = None → @manuf_vendor demo_globals "F0:B4:79:00:00:01" = "" →
           @extra_oui demo_globals !! prefix = None →
           is_Some (@apple_model_map demo_globals !! prefix) →
           props_get (mdns_props hinted_host) "vn" ≠ "" →
           vendor h' = props_get (mdns_props hinted_host) "vn").
Proof.
  apply (@C2_vendor_priority demo_globals
           ("MAC Address: F0:B4:79:00:00:01" +:+ nl) "F0:B4:79:00:00:01"
           None [hinted_host] hinted_thread 0%nat hinted_host).
  - reflexivity.
  - reflexivity.
  - reflexivity.
Defined.

(** The inline hint wins over the override table: the prefix AABBCC maps
    to ["Other"] there. *)
Example vendor_inline_wins :
  @extra_oui demo_globals !! mac_prefix "AA:BB:CC:DD:EE:FF" = Some "Other"
  ∧ vendor <$> (@mac_step demo_globals ("MAC Address: AA:BB:CC:DD:EE:FF (Acme)" +:+ nl)
                  [new_host "10.0.0.7" ""] hinted_thread).1.1 !! 0%nat
    = Some "Acme".
Proof. split; vm_compute; reflexivity. Qed.

(** The MAC F0:B4:79:00:00:01 has no inline hint and no OUI entry, its
    prefix is in the Apple-model table, and the host has the mDNS hint
    [vn = "Acme"]: the vendor resolves to ["Acme"], where the claim says
    ["Apple"]. *)
Lemma C2_apple_after_mdns_hint :
  let line := "MAC Address: F0:B4:79:00:00:01" +:+ nl in
  search_mac line = Some ("F0:B4:79:00:00:01", None)
  ∧ @manuf_vendor demo_globals "F0:B4:79:00:00:01" = ""
  ∧ @extra_oui demo_globals !! mac_prefix "F0:B4:79:00:00:01" = None
  ∧ @apple_model_map demo_globals !! mac_prefix "F0:B4:79:00:00:01" = Some "MacBookAir"
  ∧ mdns_props hinted_host !! "vn" = Some "Acme"
  ∧ vendor <$> (@mac_step demo_globals line [hinted_host] hinted_thread).1.1 !! 0%nat
    = Some "Acme"
  ∧ "Acme" ≠ "Apple".
Proof. cbv zeta. repeat split; try (vm_compute; reflexivity). discriminate. Qed.

(** C10: within a discovery pass, a line that is not a host report and
    comes while the thread's host list is still empty (a MAC Address line
    before any report line) is ignored: the heap and the thread state are
    unchanged, no signal is emitted, and the following lines are processed
    as if it were not there. *)
Theorem C10_mac_line_before_any_host `{G : Globals} (line : string)
    (rest : list string) (hp : list host) (t : ScanThread) :
  t_hosts t = [] →
  match_report line = None →
  process_line line hp t = (hp, t, [])
  ∧ process_lines (line :: rest) hp t = process_lines rest hp t.
Proof.
  intros Hempty Hrep.
  assert (H1 : process_line line hp t = (hp, t, [])).
  { unfold process_line, report_step, mac_step. rewrite Hrep, Hempty. cbn [last].
    now destruct (search_mac line) as [[? ?]|]. }
  split; [exact H1|].
  cbn [process_lines]. rewrite H1.
  now destruct (process_lines rest hp t) as [[? ?] ?].
Qed.

Lemma C10_mac_line_before_any_host_witness :
  @process_line demo_globals ("MAC Address: AA:BB:CC:DD:EE:FF (Acme Corp)" +:+ nl)
    [] ScanThread_init
  = ([], ScanThread_init, [])
  ∧ @process_lines demo_globals
      (("MAC Address: AA:BB:CC:DD:EE:FF (Acme Corp)" +:+ nl) :: [report_line "10.0.0.7"])
      [] ScanThread_init
    = @process_lines demo_globals [report_line "10.0.0.7"] [] ScanThread_init.
Proof.
  apply (@C10_mac_line_before_any_host demo_globals
           ("MAC Address: AA:BB:CC:DD:EE:FF (Acme Corp)" +:+ nl)
           [report_line "10.0.0.7"] [] ScanThread_init).
  - reflexivity.
  - reflexivity.
Defined.

(** ** Port scan tasks *)

Lemma strip_nonempty (addr : string) : strip addr ≠ "" → nonempty addr = true.
Proof. destruct addr; [intros H; now elim H | reflexivity]. Qed.

(** Delivering the signals of a finished port thread leaves the task map
    to [on_thread_finished]. *)
Lemma HostPortThread_complete_threads `{G : Globals} (t : HostPortThread)
    (proc : proc_outcome) (hp : list host) (w : ScannerWindow) :
  host_port_threads (HostPortThread_complete t proc hp w).2
  = host_port_threads (on_thread_finished t w).
Proof.
  unfold HostPortThread_complete, HostPortThread_run.
  destruct proc as [rc out err|e]; [destruct (decide (rc = 0))|];
    cbn [foldl deliver_port_signal fst snd];
    unfold on_thread_finished, on_error, reenable_scan_buttons; cbn;
    now destruct (nonempty _ && _).
Qed.

(** C7: at most one port scan is in flight per address.  A request for an
    address whose entry is in the task map changes nothing and starts no
    thread; a request for a free address starts one thread and records it;
    when that thread finishes, whatever its process did, the entry is
    removed, and the next request for the address is admitted.  Addresses
    are those of the tree items: non-empty once stripped. *)
Theorem C7_single_flight `{G : Globals} (addr : string) (custom custom' : option (list Z))
    (proc : proc_outcome) (hp : list host) (w : ScannerWindow) :
  strip addr ≠ "" →
  (is_Some (host_port_threads w !! strip addr) →
   start_host_port_scan (Some addr) custom w = (w, None))
  ∧ (host_port_threads w !! strip addr = None →
     let t := {| hpt_ip := strip addr; hpt_quick := false; hpt_custom_ports := custom |} in
     let w1 := set_host_port_threads (<[strip addr := t]> (host_port_threads w)) w in
     let w2 := (HostPortThread_complete t proc hp w1).2 in
     start_host_port_scan (Some addr) custom w = (w1, Some t)
     ∧ start_host_port_scan (Some addr) custom' w1 = (w1, None)
     ∧ host_port_threads w2 = host_port_threads w
     ∧ ∃ w3 t', start_host_port_scan (Some addr) custom' w2 = (w3, Some t')).
Proof.
  intros Hne. pose proof (strip_nonempty _ Hne) as Hnz. split.
  - intros Hbusy. unfold start_host_port_scan. rewrite Hnz. cbn [negb].
    now rewrite decide_True by exact Hbusy.
  - intros Hfree t w1 w2.
    assert (Hw2 : host_port_threads w2 = host_port_threads w).
    { subst w2. rewrite HostPortThread_complete_threads.
      unfold on_thread_finished. cbn [hpt_ip t]. rewrite strip_idem.
      apply nonempty_true in Hne. rewrite Hne. subst w1. cbn.
      rewrite lookup_insert_eq.
      rewrite (bool_decide_eq_true_2 (is_Some (Some t))) by eauto. cbn.
      rewrite delete_insert_eq. now apply delete_id. }
    repeat split.
    + unfold start_host_port_scan. rewrite Hnz, Hfree. cbn [negb].
      rewrite decide_False; [reflexivity | intros [? ?]; discriminate].
    + unfold start_host_port_scan. rewrite Hnz. cbn [negb].
      rewrite decide_True; [reflexivity|].
      subst w1. cbn. rewrite lookup_insert_eq. eauto.
    + exact Hw2.
    + unfold start_host_port_scan. rewrite Hnz, Hw2, Hfree. cbn [negb].
      rewrite decide_False; [eauto | intros [? ?]; discriminate].
Qed.

Lemma C7_single_flight_witness :
  (is_Some (host_port_threads demo_window !! strip " 10.0.0.8 ") →
   start_host_port_scan (Some " 10.0.0.8 ") None demo_window = (demo_window, None))
  ∧ (host_port_threads demo_window !! strip " 10.0.0.8 " = None →
     let t := {| hpt_ip := strip " 10.0.0.8 "; hpt_quick := false;
                 hpt_custom_ports := None |} in
     let w1 := set_host_port_threads
                 (<[strip " 10.0.0.8 " := t]> (host_port_threads demo_window))
                 demo_window in
     let w2 := (@HostPortThread_complete demo_globals t (Raised "timed out")
                  demo_heap w1).2 in
     start_host_port_scan (Some " 10.0.0.8 ") None demo_window = (w1, Some t)
     ∧ start_host_port_scan (Some " 10.0.0.8 ") (Some [22; 80]) w1 = (w1, None)
     ∧ host_port_threads w2 = host_port_threads demo_window
     ∧ ∃ w3 t', start_host_port_scan (Some " 10.0.0.8 ") (Some [22; 80]) w2
                = (w3, Some t')).
Proof.
  apply (@C7_single_flight demo_globals " 10.0.0.8 " None (Some [22; 80])
           (Raised "timed out") demo_heap demo_window).
  vm_compute. discriminate.
Defined.

(** ** TXT properties that are not UTF-8 *)

(** Where decoding succeeds, ignoring errors changes nothing. *)
Lemma decode_strict_ignore_go (fuel : nat) (bs : list byte) (s : string) :
  decode_strict_go fuel bs = Some s → decode_ignore_go fuel bs = s.
Proof.
  revert bs s. induction fuel as [|fuel IH]; intros bs s.
  - destruct bs; cbn; [now intros [= <-] | discriminate].
  - cbn [decode_strict_go decode_ignore_go]. destruct bs as [|b r]; [now intros [= <-]|].
    destruct (utf8_seq_len (b :: r)) as [|n]; [discriminate|].
    set (rest := drop (S n) (b :: r)).
    destruct (decode_strict_go fuel rest) as [s'|] eqn:E; [|discriminate].
    intros H. cbv [fmap option_fmap option_map] in H. injection H as <-.
    now rewrite (IH _ _ E).
Qed.

Lemma decode_strict_ignore (bs : list byte) (s : string) :
  decode_strict bs = Some s → decode_ignore bs = s.
Proof. apply decode_strict_ignore_go. Qed.

(** C8 at work (the claim fails here): the TXT value ff fe is not UTF-8;
    mdns.py stores the empty string for it, where the Bonjour browser's
    [safe_decode] gives the hexadecimal form "0xfffe"; the key 6d ff loses
    its last byte; the key ff becomes the empty key, which the window then
    prunes, so the entry is gone from the host. *)
Theorem C8_txt_decode_drops_bytes :
  decode_strict [xff; xfe] = None
  ∧ txt_props [(Some [x69; x64], Some [xff; xfe])] = {[ "id" := "" ]}
  ∧ safe_decode [xff; xfe] = "0xfffe"
  ∧ decode_strict [x6d; xff] = None
  ∧ txt_props [(Some [x6d; xff], Some [x31])] = {[ "m" := "1" ]}
  ∧ txt_props [(Some [xff], Some [x31])] = {[ "" := "1" ]}
  ∧ f_mdns_props <$> MDNSWorker_hosts [("printer", Some demo_info)] !! "10.0.0.7"
    = Some (Some {[ "id" := ""; "" := "1" ]})
  ∧ mdns_props <$> _on_mdns_done (MDNSWorker_hosts [("printer", Some demo_info)])
                     demo_heap demo_window !! 0%nat
    = Some {[ "id" := "" ]}.
Proof. repeat split; vm_compute; reflexivity. Qed.

(** ** One discovery pass never duplicates an address *)

Lemma deref_snoc_old (hp : list host) (h : host) (locs : list nat) :
  Forall (fun l => (l < List.length hp)%nat) locs →
  deref (hp ++ [h]) locs = deref hp locs.
Proof.
  induction 1 as [|a locs Ha _ IH]; [reflexivity|].
  rewrite !deref_cons, IH. now rewrite lookup_app_l by exact Ha.
Qed.

Lemma deref_snoc_new (hp : list host) (h : host) :
  deref (hp ++ [h]) [List.length hp] = [h].
Proof.
  rewrite deref_cons. rewrite lookup_app_r by lia.
  now rewrite Nat.sub_diag.
Qed.

Lemma thread_inv_init (hp : list host) : thread_inv hp ScanThread_init.
Proof.
  repeat split; cbn.
  - constructor.
  - constructor.
  - intros x Hx. now apply elem_of_nil in Hx.
Qed.

Lemma report_step_inv `{G : Globals} (line : string) (hp : list host) (t : ScanThread) :
  thread_inv hp t →
  thread_inv (report_step line hp t).1.1 (report_step line hp t).1.2.
Proof.
  intros (Hval & Hnd & Hseen). unfold report_step.
  destruct (match_report line) as [[raw g_ip]|]; [|now repeat split].
  set (addr := strip (default raw g_ip)).
  destruct (decide (addr ∈ t_seen_ips t)) as [Hin|Hnin]; [now repeat split|].
  unfold thread_inv. cbn [fst snd t_hosts t_seen_ips].
  assert (Hd : deref (hp ++ [new_host addr (default "" (gethostbyaddr addr))])
                 (t_hosts t ++ [List.length hp])
               = deref hp (t_hosts t) ++ [new_host addr (default "" (gethostbyaddr addr))]).
  { now rewrite deref_app, deref_snoc_old, deref_snoc_new. }
  rewrite Hd, map_app. cbn [map new_host ip].
  repeat split.
  - apply Forall_app. split.
    + eapply Forall_impl; [exact Hval|]. intros l Hl. cbn in Hl |- *.
      rewrite length_app. cbn. lia.
    + constructor; [|constructor]. rewrite length_app. cbn. lia.
  - apply NoDup_app. repeat split; [exact Hnd| |apply NoDup_singleton].
    intros x Hx Hx'. apply list_elem_of_singleton in Hx' as ->.
    apply Hnin, Hseen, Hx.
  - intros x [Hx|Hx]%elem_of_app.
    + apply elem_of_union_r, Hseen, Hx.
    + apply list_elem_of_singleton in Hx as ->. apply elem_of_union_l.
      now apply elem_of_singleton.
Qed.

Lemma apply_mac_ip `{G : Globals} (m : string) (v : option string) (h : host) :
  ip (apply_mac m v h) = ip h.
Proof. reflexivity. Qed.

Lemma mac_step_inv `{G : Globals} (line : string) (hp : list host) (t : ScanThread) :
  thread_inv hp t →
  thread_inv (mac_step line hp t).1.1 (mac_step line hp t).1.2.
Proof.
  intros (Hval & Hnd & Hseen). unfold mac_step.
  destruct (search_mac line) as [[m v]|]; [|now repeat split].
  destruct (last (t_hosts t)) as [l|]; [|now repeat split].
  unfold thread_inv. cbn [fst snd].
  rewrite length_alter, (deref_alter_ips _ _ _ _ (apply_mac_ip m v)).
  now repeat split.
Qed.

Lemma process_line_inv `{G : Globals} (line : string) (hp : list host) (t : ScanThread) :
  thread_inv hp t →
  thread_inv (process_line line hp t).1.1 (process_line line hp t).1.2.
Proof.
  intros Hinv. unfold process_line.
  pose proof (report_step_inv line hp t Hinv) as H1.
  destruct (report_step line hp t) as [[hp1 t1] out1]. cbn [fst snd] in H1.
  pose proof (mac_step_inv line hp1 t1 H1) as H2.
  now destruct (mac_step line hp1 t1) as [[hp2 t2] out2].
Qed.

Lemma process_lines_inv `{G : Globals} (lines : list string) (hp : list host) (t : ScanThread) :
  thread_inv hp t →
  thread_inv (process_lines lines hp t).1.1 (process_lines lines hp t).1.2.
Proof.
  revert hp t. induction lines as [|line lines IH]; intros hp t Hinv; [exact Hinv|].
  cbn [process_lines].
  pose proof (process_line_inv line hp t Hinv) as H1.
  destruct (process_line line hp t) as [[hp1 t1] out1]. cbn [fst snd] in H1.
  specialize (IH hp1 t1 H1).
  now destruct (process_lines lines hp1 t1) as [[hp2 t2] out2].
Qed.

(** The window side: [populate] keeps the table equal to the last
    snapshot as long as each snapshot extends the table. *)
Lemma foldl_add_host_item_ips (batch : list nat) (hp : list host) (locs : list nat) :
  map ip (deref (foldl _add_host_item hp batch) locs) = map ip (deref hp locs).
Proof.
  revert hp. induction batch as [|a batch IH]; intros hp; cbn [foldl]; [reflexivity|].
  rewrite IH. unfold _add_host_item. apply deref_alter_ips.
  intros h. now destruct (remove_empty_key_fields h) as [-> _].
Qed.

Lemma populate_extends (pre ext : list nat) (hp : list host) (w : ScannerWindow) :
  hosts w = pre →
  hosts (populate (pre ++ ext) hp w).2 = pre ++ ext
  ∧ advanced_mode (populate (pre ++ ext) hp w).2 = advanced_mode w
  ∧ ∀ locs, map ip (deref (populate (pre ++ ext) hp w).1 locs) = map ip (deref hp locs).
Proof.
  intros Hpre. unfold populate, append_hosts. rewrite Hpre.
  destruct pre as [|a pre]; cbn [fst snd hosts set_hosts advanced_mode].
  - repeat split. apply foldl_add_host_item_ips.
  - rewrite drop_app_length. repeat split. apply foldl_add_host_item_ips.
Qed.

Lemma deliver_scan_signals_app `{G : Globals} (h : finished_handler)
    (a b : list scan_signal) (st : list host * ScannerWindow * list action) :
  deliver_scan_signals h (a ++ b) st = deliver_scan_signals h b (deliver_scan_signals h a st).
Proof. apply foldl_app. Qed.

Lemma deliver_snapshot `{G : Globals} (h : finished_handler) (pre ext : list nat)
    (hpw : list host) (w : ScannerWindow) (acts : list action) :
  hosts w = pre →
  let st := deliver_scan_signals h [Sresult (pre ++ ext)] (hpw, w, acts) in
  hosts st.1.2 = pre ++ ext ∧ st.2 = acts ∧ advanced_mode st.1.2 = advanced_mode w
  ∧ ∀ locs, map ip (deref st.1.1 locs) = map ip (deref hpw locs).
Proof.
  intros Hpre st. subst st. unfold deliver_scan_signals. cbn [foldl deliver_scan_signal].
  destruct (populate_extends pre ext hpw w Hpre) as (H1 & H2 & H3).
  destruct (populate (pre ++ ext) hpw w) as [hp' w']. cbn [fst snd] in *. auto.
Qed.

(** Delivering the signals of some lines keeps the window's table equal
    to the thread's host list, schedules nothing, and changes no address. *)
Lemma deliver_process_line `{G : Globals} (h : finished_handler) (line : string)
    (hp : list host) (t : ScanThread) (hpw : list host) (w : ScannerWindow)
    (acts : list action) :
  hosts w = t_hosts t →
  let r := process_line line hp t in
  let st := deliver_scan_signals h r.2 (hpw, w, acts) in
  hosts st.1.2 = t_hosts r.1.2 ∧ st.2 = acts ∧ advanced_mode st.1.2 = advanced_mode w
  ∧ ∀ locs, map ip (deref st.1.1 locs) = map ip (deref hpw locs).
Proof.
  intros Hsync r st. subst st r. unfold process_line.
  assert (H1 : let r1 := report_step line hp t in
               let st1 := deliver_scan_signals h r1.2 (hpw, w, acts) in
               hosts st1.1.2 = t_hosts r1.1.2 ∧ st1.2 = acts
               ∧ advanced_mode st1.1.2 = advanced_mode w
               ∧ ∀ locs, map ip (deref st1.1.1 locs) = map ip (deref hpw locs)).
  { unfold report_step. destruct (match_report line) as [[raw g_ip]|]; [|cbn; auto].
    destruct (decide (_ ∈ t_seen_ips t)); [cbn; auto|].
    cbn [fst snd t_hosts].
    change [Sresult (t_hosts t ++ [List.length hp]); ?u]
      with ([Sresult (t_hosts t ++ [List.length hp])] ++ [u]).
    rewrite deliver_scan_signals_app.
    destruct (deliver_snapshot h (t_hosts t) [List.length hp] hpw w acts Hsync)
      as (Ha & Hb & Hc & Hd).
    destruct (deliver_scan_signals h [Sresult _] (hpw, w, acts)) as [[hp' w'] acts'].
    cbn [fst snd] in *. unfold deliver_scan_signals. cbn. auto. }
  destruct (report_step line hp t) as [[hp1 t1] out1]. cbn [fst snd] in H1.
  destruct H1 as (Ha & Hb & Hc & Hd).
  unfold mac_step.
  destruct (search_mac line) as [[m v]|];
    [destruct (last (t_hosts t1)) as [l|]|]; cbn [fst snd];
    rewrite ?app_nil_r; auto.
  rewrite deliver_scan_signals_app.
  destruct (deliver_scan_signals h out1 (hpw, w, acts)) as [[hp' w'] acts'].
  cbn [fst snd] in *. subst acts'.
  pose proof (deliver_snapshot h (t_hosts t1) [] hp' w' acts Ha) as H2.
  rewrite app_nil_r in H2. cbn zeta in H2.
  destruct H2 as (Ha' & Hb' & Hc' & Hd').
  repeat split; [exact Ha' | exact Hb' | congruence |].
  intros locs. now rewrite Hd', Hd.
Qed.

Lemma deliver_process_lines `{G : Globals} (h : finished_handler) (lines : list string)
    (hp : list host) (t : ScanThread) (hpw : list host) (w : ScannerWindow)
    (acts : list action) :
  hosts w = t_hosts t →
  let r := process_lines lines hp t in
  let st := deliver_scan_signals h r.2 (hpw, w, acts) in
  hosts st.1.2 = t_hosts r.1.2 ∧ st.2 = acts ∧ advanced_mode st.1.2 = advanced_mode w
  ∧ ∀ locs, map ip (deref st.1.1 locs) = map ip (deref hpw locs).
Proof.
  revert hp t hpw w. induction lines as [|line lines IH]; intros hp t hpw w Hsync.
  - cbn. auto.
  - cbn [process_lines].
    pose proof (deliver_process_line h line hp t hpw w acts Hsync) as H1.
    destruct (process_line line hp t) as [[hp1 t1] out1]. cbn [fst snd] in H1.
    cbn zeta in H1. destruct H1 as (Ha & Hb & Hc & Hd).
    destruct (deliver_scan_signals h out1 (hpw, w, acts)) as [[hp' w'] acts'] eqn:E.
    cbn [fst snd] in *. subst acts'.
    pose proof (IH hp1 t1 hp' w' Ha) as H2.
    destruct (process_lines lines hp1 t1) as [[hp2 t2] out2]. cbn [fst snd] in *.
    cbn zeta in H2. destruct H2 as (Ha' & Hb' & Hc' & Hd').
    rewrite deliver_scan_signals_app, E.
    repeat split; [exact Ha' | exact Hb' | congruence |].
    intros locs. now rewrite Hd', Hd.
Qed.

(** Within one discovery pass no address is recorded twice: whatever the
    process prints, once the signals of a pass that started on an empty
    table are delivered, the addresses of the table are pairwise distinct
    (the thread's [seen_ips] keeps a repeated report out). *)
Theorem single_pass_no_duplicates `{G : Globals} (h : finished_handler)
    (lines : list string) (hp : list host) (w : ScannerWindow) :
  hosts w = [] →
  let r := ScanThread_run (inr lines) hp in
  let st := deliver_scan_signals h r.2 (r.1.1, w, []) in
  NoDup (table_ips st.1.1 st.1.2)
  ∧ hosts st.1.2 = t_hosts r.1.2
  ∧ st.2 = (run_finished_handler h w).2
  ∧ advanced_mode st.1.2 = advanced_mode w.
Proof.
  intros Hempty r st. subst st r. unfold ScanThread_run.
  pose proof (process_lines_inv lines hp ScanThread_init (thread_inv_init hp))
    as (_ & Hnd & _).
  pose proof (deliver_process_lines h lines hp ScanThread_init
                (process_lines lines hp ScanThread_init).1.1 w [] Hempty) as Hs.
  destruct (process_lines lines hp ScanThread_init) as [[hp1 t1] out1].
  cbn [fst snd] in *. cbn zeta in Hs.
  rewrite deliver_scan_signals_app.
  destruct (deliver_scan_signals h out1 (hp1, w, [])) as [[hp' w'] acts'].
  cbn [fst snd] in *. destruct Hs as (Ha & -> & Hc & Hd).
  unfold deliver_scan_signals. cbn [foldl deliver_scan_signal].
  assert (Hh : ∀ w0, (run_finished_handler h w0).1 = w0
                    ∧ (run_finished_handler h w0).2 = (run_finished_handler h w).2).
  { intros w0. destruct h; cbn; auto. }
  destruct (Hh w') as [H1 H2].
  destruct (run_finished_handler h w') as [w'' more]. cbn [fst snd] in *. subst w''.
  repeat split; [| exact Ha | now rewrite app_nil_l | exact Hc].
  unfold table_ips. now rewrite Ha, Hd.
Qed.

Lemma on_mdns_done_ips (results : gmap string mdns_fact) (hp : list host)
    (w : ScannerWindow) (locs : list nat) :
  map ip (deref (_on_mdns_done results hp w) locs) = map ip (deref hp locs).
Proof.
  unfold _on_mdns_done. rewrite foldl_add_host_item_ips.
  generalize (hosts w). intros ls. revert hp.
  induction ls as [|a ls IH]; intros hp; cbn [foldl]; [reflexivity|].
  rewrite IH. apply deref_alter_ips. apply mdns_merge_host_ip.
Qed.

(** A quick scan session, whatever its discovery process prints: it ends,
    the table holds each address once, and its mDNS worker was started
    with the timeout 2.0. *)
Theorem quick_scan_session_table `{G : Globals} (subnet_text : string)
    (lines : list string) (s : session) (fuel : nat) :
  strip subnet_text ≠ "" →
  is_valid_subnet (strip subnet_text) = true →
  head (s_procs s) = Some (inr lines) →
  ∃ s', quick_scan_session (S (S fuel)) subnet_text s = Some s'
        ∧ NoDup (table_ips (s_heap s') (s_win s'))
        ∧ s_timeouts s' = s_timeouts s ++ [(2 # 1)%Q].
Proof.
  intros Hne Hvalid Hproc. unfold quick_scan_session, start_scan.
  apply nonempty_true in Hne. rewrite Hne, Hvalid. cbn [negb].
  cbn [run_actions step_action with_window s_procs s_win s_heap].
  rewrite Hproc.
  change (default (inr []) (Some (inr lines))) with (@inr string _ lines).
  pose proof (single_pass_no_duplicates OnDiscoveryFinished lines (s_heap s)
                (set_hosts [] (s_win s)) eq_refl) as Hp.
  cbn zeta in Hp.
  destruct (ScanThread_run (inr lines) (s_heap s)) as [[hp1 t1] sigs].
  cbn [fst snd] in Hp.
  destruct (deliver_scan_signals OnDiscoveryFinished sigs
              (hp1, set_hosts [] (s_win s), [])) as [[hp2 w2] acts].
  cbn [fst snd] in Hp. destruct Hp as (Hnd & _ & -> & _).
  cbn. destruct fuel;
    (eexists; split; [reflexivity|]; cbn; split; [|reflexivity];
     unfold table_ips; rewrite on_mdns_done_ips; exact Hnd).
Qed.

(** ** Deep scan sessions *)

Lemma process_lines_progress `{G : Globals} (lines : list string) (hp : list host)
    (t : ScanThread) :
  Forall progress_signal (process_lines lines hp t).2.
Proof.
  revert hp t. induction lines as [|line lines IH]; intros hp t; [constructor|].
  cbn [process_lines].
  assert (H1 : Forall progress_signal (process_line line hp t).2).
  { unfold process_line, report_step, mac_step.
    destruct (match_report line) as [[raw g_ip]|];
      [destruct (decide (_ ∈ t_seen_ips t))|];
      cbn [fst snd];
      (destruct (search_mac line) as [[m v]|]; [destruct (last _)|]);
      cbn [fst snd app]; repeat constructor. }
  destruct (process_line line hp t) as [[hp1 t1] out1].
  specialize (IH hp1 t1).
  destruct (process_lines lines hp1 t1) as [[hp2 t2] out2].
  cbn [snd] in *. now apply Forall_app.
Qed.

Lemma populate_advanced_mode (snapshot : list nat) (hp : list host) (w : ScannerWindow) :
  advanced_mode (populate snapshot hp w).2 = advanced_mode w.
Proof. unfold populate, append_hosts. now destruct (hosts w). Qed.

Lemma deliver_progress `{G : Globals} (h : finished_handler) (sigs : list scan_signal)
    (hp : list host) (w : ScannerWindow) (acts : list action) :
  Forall progress_signal sigs →
  (deliver_scan_signals h sigs (hp, w, acts)).2 = acts
  ∧ advanced_mode (deliver_scan_signals h sigs (hp, w, acts)).1.2 = advanced_mode w.
Proof.
  intros Hall. revert hp w. induction Hall as [|sig sigs Hsig _ IH]; intros hp w.
  - now split.
  - unfold deliver_scan_signals. cbn [foldl].
    fold (deliver_scan_signals h sigs (deliver_scan_signal h sig (hp, w, acts))).
    destruct sig as [snapshot|msg| |msg]; try contradiction; cbn [deliver_scan_signal].
    + pose proof (populate_advanced_mode snapshot hp w) as Hp.
      destruct (populate snapshot hp w) as [hp' w']. cbn [snd] in Hp.
      destruct (IH hp' w') as [-> ->]. now split.
    + apply IH.
Qed.

(** A discovery pass that could be launched ends by running its
    [discovery_finished] slot, once, and leaves the scan mode as it was. *)
Lemma scan_pass_step `{G : Globals} (subnet_text subnet : string)
    (flags : option (list string)) (h : finished_handler) (lines : list string)
    (s : session) :
  head (s_procs s) = Some (inr lines) →
  ∃ s', step_action subnet_text (LaunchScanThread subnet flags h) s
        = (s', (run_finished_handler h (s_win s')).2)
        ∧ (run_finished_handler h (s_win s')).1 = s_win s'
        ∧ advanced_mode (s_win s') = advanced_mode (s_win s)
        ∧ s_procs s' = tail (s_procs s)
        ∧ s_mdns s' = s_mdns s
        ∧ s_timeouts s' = s_timeouts s.
Proof.
  intros Hproc. cbn [step_action]. rewrite Hproc.
  change (default (inr []) (Some (inr lines))) with (@inr string _ lines).
  unfold ScanThread_run.
  pose proof (process_lines_progress lines (s_heap s) ScanThread_init) as Hprog.
  destruct (process_lines lines (s_heap s) ScanThread_init) as [[hp1 t1] out1].
  cbn [snd] in Hprog.
  rewrite deliver_scan_signals_app.
  destruct (deliver_progress h out1 hp1 (s_win s) [] Hprog) as [Ha Hm].
  destruct (deliver_scan_signals h out1 (hp1, s_win s, [])) as [[hp2 w2] acts].
  cbn [fst snd] in Ha, Hm. subst acts.
  unfold deliver_scan_signals. cbn [foldl deliver_scan_signal].
  exists {| s_heap := hp2; s_win := w2; s_procs := tail (s_procs s);
            s_mdns := s_mdns s; s_timeouts := s_timeouts s |}.
  cbn [s_win s_procs s_mdns s_timeouts].
  destruct h; cbn; repeat split; exact Hm.
Qed.

Lemma run_actions_cons `{G : Globals} (fuel : nat) (subnet_text : string) (a : action)
    (rest : list action) (s : session) :
  run_actions (S fuel) subnet_text (a :: rest) s
  = run_actions fuel subnet_text (rest ++ (step_action subnet_text a s).2)
      (step_action subnet_text a s).1.
Proof. cbn [run_actions]. now destruct (step_action subnet_text a s). Qed.

(** A deep scan session whose three passes could be launched: it ends,
    and its mDNS worker was started with the timeout 2.0, the timeout of
    a quick scan's worker. *)
Theorem deep_scan_session_timeout `{G : Globals} (subnet_text : string)
    (l1 l2 l3 : list string) (rest : list (string + list string)) (s : session)
    (fuel : nat) :
  strip subnet_text ≠ "" →
  is_valid_subnet (strip subnet_text) = true →
  s_procs s = inr l1 :: inr l2 :: inr l3 :: rest →
  ∃ s', deep_scan_session (9 + fuel) subnet_text s = Some s'
        ∧ s_timeouts s' = s_timeouts s ++ [(2 # 1)%Q].
Proof.
  intros Hne Hvalid Hprocs. unfold deep_scan_session, start_advanced_scan.
  apply nonempty_true in Hne. rewrite Hne, Hvalid. cbn [negb].
  cbn [_execute_scan_passes passes lookup list_lookup].
  set (s0 := with_window _ s).
  assert (H0 : s_procs s0 = inr l1 :: inr l2 :: inr l3 :: rest
               ∧ advanced_mode (s_win s0) = true ∧ s_timeouts s0 = s_timeouts s)
    by (subst s0; cbn; auto).
  clearbody s0. destruct H0 as (Hp0 & Hm0 & Ht0).
  change (9 + fuel)%nat with (S (S (S (S (S (S (S (S (S fuel))))))))).
  (* the ARP pass *)
  destruct (scan_pass_step subnet_text (strip subnet_text) (Some ["-PR"])
              (OnScanPassFinished 0) l1 s0) as (s1 & E1 & _ & Hm1 & Hp1 & _ & Ht1);
    [now rewrite Hp0|].
  rewrite run_actions_cons, E1. cbn [fst snd app run_finished_handler
    _on_scan_pass_finished]. rewrite decide_False by lia. cbn [app].
  rewrite run_actions_cons.
  cbn [step_action run_callback _execute_scan_passes passes lookup list_lookup
         Nat.add fst snd app s_win].
  set (s1' := {| s_heap := s_heap s1 |}).
  assert (H1 : s_procs s1' = inr l2 :: inr l3 :: rest
               ∧ advanced_mode (s_win s1') = true ∧ s_timeouts s1' = s_timeouts s)
    by (subst s1'; cbn; rewrite Hp1, Hp0, Hm1, Hm0, Ht1, Ht0; auto).
  clearbody s1'. clear dependent s1. clear dependent s0.
  destruct H1 as (Hp1 & Hm1 & Ht1).
  (* the ICMP pass *)
  destruct (scan_pass_step subnet_text (strip subnet_text) (Some ["-PE"])
              (OnScanPassFinished 1) l2 s1') as (s2 & E2 & _ & Hm2 & Hp2 & _ & Ht2);
    [now rewrite Hp1|].
  rewrite run_actions_cons, E2. cbn [fst snd app run_finished_handler
    _on_scan_pass_finished]. rewrite decide_False by lia. cbn [app].
  rewrite run_actions_cons.
  cbn [step_action run_callback _execute_scan_passes passes lookup list_lookup
         Nat.add fst snd app s_win].
  set (s2' := {| s_heap := s_heap s2 |}).
  assert (H2 : s_procs s2' = inr l3 :: rest
               ∧ advanced_mode (s_win s2') = true ∧ s_timeouts s2' = s_timeouts s)
    by (subst s2'; cbn; rewrite Hp2, Hp1, Hm2, Hm1, Ht2, Ht1; auto).
  clearbody s2'. clear dependent s2. clear dependent s1'.
  destruct H2 as (Hp2 & Hm2 & Ht2).
  (* the TCP/UDP pass *)
  destruct (scan_pass_step subnet_text (strip subnet_text) (Some ["-PS80,443"; "-PU53"])
              (OnScanPassFinished 2) l3 s2') as (s3 & E3 & _ & Hm3 & Hp3 & _ & Ht3);
    [now rewrite Hp2|].
  rewrite run_actions_cons, E3. cbn [fst snd app run_finished_handler
    _on_scan_pass_finished]. rewrite decide_True by lia. cbn [app].
  (* the timers, then the worker *)
  do 3 (rewrite run_actions_cons;
        cbn [step_action run_callback _execute_scan_passes passes lookup list_lookup
               Nat.add fst snd app s_win _start_mdns]).
  rewrite Hm3, Hm2.
  rewrite run_actions_cons. cbn [step_action fst snd app].
  destruct fuel; (eexists; split; [reflexivity|]; cbn; now rewrite Ht3, Ht2).
Qed.

(** ** The timeout of the mDNS cycle *)

(** In every window state the worker [_start_mdns] starts (the deep
    scan's) has a timeout at most that of the worker
    [_on_discovery_finished] starts (the quick scan's); after an error
    reset the scan mode it is 1.0. *)
Lemma mdns_timeout_deep_le_quick (w : ScannerWindow) :
  ∃ t_quick t_deep,
    (_on_discovery_finished w).2 = [LaunchMDNSWorker t_quick]
    ∧ (_start_mdns w).2 = [LaunchMDNSWorker t_deep]
    ∧ (t_deep <= t_quick)%Q
    ∧ ∀ msg, (_start_mdns (on_error msg w)).2 = [LaunchMDNSWorker (1 # 1)%Q].
Proof.
  unfold _on_discovery_finished, _start_mdns. cbn [snd].
  destruct (advanced_mode w); do 2 eexists; repeat split; discriminate.
Qed.

(** C9 at work (the claim fails here): whatever the discovery processes
    print, a quick scan's mDNS worker is started with the timeout 2.0 s
    (by [_on_discovery_finished]) and so is a deep scan's (by [_start_mdns]
    in advanced mode): the deep scan's timeout is equal, not longer. *)
Theorem C9_mdns_timeouts_equal `{G : Globals} (subnet_text : string)
    (lq l1 l2 l3 : list string) (rest_q rest_d : list (string + list string))
    (sq sd : session) (fuel : nat) :
  strip subnet_text ≠ "" →
  is_valid_subnet (strip subnet_text) = true →
  s_procs sq = inr lq :: rest_q →
  s_procs sd = inr l1 :: inr l2 :: inr l3 :: rest_d →
  ∃ sq' sd',
    quick_scan_session (2 + fuel) subnet_text sq = Some sq'
    ∧ deep_scan_session (9 + fuel) subnet_text sd = Some sd'
    ∧ s_timeouts sq' = s_timeouts sq ++ [(2 # 1)%Q]
    ∧ s_timeouts sd' = s_timeouts sd ++ [(2 # 1)%Q].
Proof.
  intros Hne Hvalid Hq Hd.
  destruct (quick_scan_session_table subnet_text lq sq fuel Hne Hvalid)
    as (sq' & Eq & _ & Tq); [now rewrite Hq|].
  destruct (deep_scan_session_timeout subnet_text l1 l2 l3 rest_d sd fuel Hne Hvalid Hd)
    as (sd' & Ed & Td).
  exists sq', sd'. auto.
Qed.

Lemma C9_mdns_timeouts_equal_witness :
  ∃ sq' sd',
    @quick_scan_session demo_globals (2 + 0) "192.168.1.0/24" (session_init demo_quick_procs)
    = Some sq'
    ∧ @deep_scan_session demo_globals (9 + 0) "192.168.1.0/24"
        (session_init demo_deep_procs)
      = Some sd'
    ∧ s_timeouts sq' = s_timeouts (session_init demo_quick_procs) ++ [(2 # 1)%Q]
    ∧ s_timeouts sd' = s_timeouts (session_init demo_deep_procs) ++ [(2 # 1)%Q].
Proof.
  apply (@C9_mdns_timeouts_equal demo_globals "192.168.1.0/24"
           [report_line "10.0.0.1"; report_line "10.0.0.2"; report_line "10.0.0.1"]
           [report_line "10.0.0.1"] [report_line "10.0.0.2"; report_line "10.0.0.1"] []
           [] [] (session_init demo_quick_procs) (session_init demo_deep_procs) 0%nat).
  - vm_compute. discriminate.
  - reflexivity.
  - reflexivity.
  - reflexivity.
Defined.

(** ** Addresses recorded twice *)

(** C1 at work (the claim fails here): in a deep scan the ARP pass finds
    10.0.0.1, the ICMP pass finds 10.0.0.2 and then 10.0.0.1 again;
    [populate] appends by position, so the table ends with two records
    for 10.0.0.1 and none for 10.0.0.2.  (Within one pass the thread's
    [seen_ips] keeps a repeated report out: [single_pass_no_duplicates].) *)
Theorem C1_deep_scan_duplicates_ip :
  ∃ s', @deep_scan_session demo_globals 9 "192.168.1.0/24" (session_init demo_deep_procs)
        = Some s'
        ∧ table_ips (s_heap s') (s_win s') = ["10.0.0.1"; "10.0.0.1"]
        ∧ ¬ NoDup (table_ips (s_heap s') (s_win s'))
        ∧ List.length (s_heap s') = 3%nat.
Proof.
  eexists. split; [vm_compute; reflexivity|].
  split; [vm_compute; reflexivity|]. split; [|vm_compute; reflexivity].
  change (¬ NoDup ["10.0.0.1"; "10.0.0.1"]).
  intros Hnd. apply NoDup_cons in Hnd as [Hnin _]. apply Hnin. left.
Qed.

(** The same reports within one quick scan are recorded once each. *)
Example quick_scan_repeated_report :
  (fun s => table_ips (s_heap s) (s_win s))
    <$> @quick_scan_session demo_globals 2 "192.168.1.0/24" (session_init demo_quick_procs)
  = Some ["10.0.0.1"; "10.0.0.2"].
Proof. vm_compute. reflexivity. Qed.


(** * More of the window controller *)

(** ** [populate] *)

Lemma set_hosts_id (w : ScannerWindow) : set_hosts (hosts w) w = w.
Proof. now destruct w. Qed.

(** [populate] appends exactly the entries of the snapshot that lie beyond
    the table's current length, whatever hosts they are, and never
    removes, reorders or rewrites the address of an existing entry; a
    snapshot no longer than a non-empty table changes nothing at all. *)
Theorem populate_appends_by_position (snapshot : list nat) (hp : list host)
    (w : ScannerWindow) :
  hosts (populate snapshot hp w).2 = hosts w ++ drop (List.length (hosts w)) snapshot
  ∧ List.length (populate snapshot hp w).1 = List.length hp
  ∧ (∀ locs, map ip (deref (populate snapshot hp w).1 locs) = map ip (deref hp locs))
  ∧ host_port_threads (populate snapshot hp w).2 = host_port_threads w
  ∧ advanced_mode (populate snapshot hp w).2 = advanced_mode w
  ∧ (hosts w ≠ [] → (List.length snapshot ≤ List.length (hosts w))%nat →
     populate snapshot hp w = (hp, w)).
Proof.
  assert (Hfresh : populate snapshot hp w
                   = (foldl _add_host_item hp (drop (List.length (hosts w)) snapshot),
                      set_hosts (hosts w ++ drop (List.length (hosts w)) snapshot) w)).
  { unfold populate, append_hosts. now destruct (hosts w). }
  rewrite Hfresh. cbn [fst snd hosts set_hosts host_port_threads advanced_mode].
  split; [reflexivity|]. split; [apply foldl_alter_length|].
  split; [intros locs; apply foldl_add_host_item_ips|].
  split; [reflexivity|]. split; [reflexivity|].
  intros _ Hlen. rewrite drop_ge by exact Hlen. cbn [foldl].
  now rewrite app_nil_r, set_hosts_id.
Qed.

(** ** Port results, one after the other *)

Lemma find_host_alter (f : host → host) (l : nat) (hp : list host) (locs : list nat)
    (x : string) :
  (∀ h, ip (f h) = ip h) →
  find_host (alter f l hp) locs x = find_host hp locs x.
Proof.
  intros Hip. induction locs as [|a locs IH]; [reflexivity|].
  cbn [find_host]. rewrite IH. destruct (decide (l = a)) as [->|Hne].
  - rewrite list_lookup_alter_eq. destruct (hp !! a) as [h|]; cbn; [|reflexivity].
    now rewrite Hip.
  - now rewrite list_lookup_alter_ne.
Qed.

(** The last port result for an address wins: a second result replaces
    the first as if the first had never been delivered (and the same
    result delivered twice is delivered once). *)
Theorem on_host_ports_multi_last_wins `{G : Globals} (addr : string)
    (first second : list port_item) (hp : list host) (w : ScannerWindow) :
  on_host_ports_multi addr second (on_host_ports_multi addr first hp w) w
  = on_host_ports_multi addr second hp w.
Proof.
  unfold on_host_ports_multi.
  destruct (find_host hp (hosts w) (strip addr)) as [l|] eqn:E.
  - rewrite find_host_alter by reflexivity. rewrite E.
    rewrite list_alter_alter_eq. now apply list_alter_ext.
  - now rewrite E.
Qed.

(** ** The mDNS merges, composed *)

(** What the full merge leaves at any location. *)
Lemma on_mdns_done_lookup_all (results : gmap string mdns_fact) (hp : list host)
    (w : ScannerWindow) (l : nat) :
  _on_mdns_done results hp w !! l
  = if decide (l ∈ hosts w)
    then (fun h => _remove_empty_mdns_model_keys (mdns_merge_host results h)) <$> hp !! l
    else hp !! l.
Proof.
  unfold _on_mdns_done, _add_host_item.
  destruct (decide (l ∈ hosts w)) as [Hin|Hnin].
  - rewrite (foldl_alter_lookup _ _ _ _ remove_empty_key_idem Hin).
    rewrite (foldl_alter_lookup _ _ _ _ (mdns_merge_host_idem results) Hin).
    now destruct (hp !! l).
  - now rewrite !foldl_alter_lookup_notin.
Qed.

Lemma mdns_merge_host_fields (results : gmap string mdns_fact) (h : host) :
  discovery_fields (_remove_empty_mdns_model_keys (mdns_merge_host results h))
  = discovery_fields h.
Proof.
  unfold discovery_fields.
  destruct (remove_empty_key_fields (mdns_merge_host results h))
    as (-> & -> & _ & _ & _ & ->).
  assert (Hk : ∀ x, hostname (_remove_empty_mdns_model_keys x) = hostname x
                    ∧ mac (_remove_empty_mdns_model_keys x) = mac x).
  { intros x. unfold _remove_empty_mdns_model_keys. now destruct (decide _). }
  destruct (Hk (mdns_merge_host results h)) as [-> ->].
  unfold mdns_merge_host.
  destruct (results !! ip h) as [f|]; [|reflexivity].
  destruct (fact_truthy f); [|reflexivity].
  destruct (f_mdns_props f) as [p|]; [|reflexivity].
  unfold merge_mdns_model. now destruct (nonempty _ && negb _).
Qed.

(** The full mDNS merge never adds or removes a host and never touches
    what discovery and the port scans wrote: address, host name, MAC,
    ports and vendor of every host are as before. *)
Theorem on_mdns_done_keeps_discovery (results : gmap string mdns_fact)
    (hp : list host) (w : ScannerWindow) :
  map discovery_fields (_on_mdns_done results hp w) = map discovery_fields hp.
Proof.
  apply list_eq. intros l.
  change (map discovery_fields) with (fmap (M := list) discovery_fields).
  rewrite !list_lookup_fmap, on_mdns_done_lookup_all.
  destruct (decide (l ∈ hosts w)); [|reflexivity].
  destruct (hp !! l) as [h|]; cbn; [|reflexivity].
  now rewrite mdns_merge_host_fields.
Qed.

Lemma merge_after_remove_empty (results : gmap string mdns_fact) (h : host) :
  _remove_empty_mdns_model_keys
    (mdns_merge_host results (_remove_empty_mdns_model_keys (mdns_merge_host results h)))
  = _remove_empty_mdns_model_keys (mdns_merge_host results h).
Proof.
  assert (Hip : ip (_remove_empty_mdns_model_keys (mdns_merge_host results h)) = ip h).
  { destruct (remove_empty_key_fields (mdns_merge_host results h)) as [-> _].
    apply mdns_merge_host_ip. }
  unfold mdns_merge_host at 1. rewrite Hip.
  unfold mdns_merge_host.
  destruct (results !! ip h) as [f|].
  2:{ destruct h; reflexivity. }
  destruct (fact_truthy f).
  2:{ destruct h; reflexivity. }
  destruct (f_mdns_props f) as [p|].
  - destruct h as [i hn m ps v md nm sv pr]. unfold merge_mdns_model. cbn.
    destruct (nonempty (strip_vendor_prefix v (md_candidate p))
              && negb (is_placeholder (strip_vendor_prefix v (md_candidate p)))) eqn:E;
      unfold _remove_empty_mdns_model_keys; cbn;
      destruct (decide (is_Some (p !! ""))); cbn; rewrite E; cbn;
      try (rewrite decide_True by assumption); try (rewrite decide_False by assumption);
      reflexivity.
  - destruct h as [i hn m ps v md nm sv pr].
    unfold _remove_empty_mdns_model_keys; cbn.
    destruct (decide (is_Some (pr !! ""))) as [Hs|Hn]; cbn.
    + rewrite decide_False; [reflexivity|].
      rewrite lookup_delete_eq. intros [? ?]; discriminate.
    + now rewrite decide_False.
Qed.

(** The full mDNS merge is idempotent: the same mapping merged twice
    leaves the hosts as after the first merge. *)
Theorem on_mdns_done_idempotent (results : gmap string mdns_fact) (hp : list host)
    (w : ScannerWindow) :
  _on_mdns_done results (_on_mdns_done results hp w) w = _on_mdns_done results hp w.
Proof.
  apply list_eq. intros l. rewrite !on_mdns_done_lookup_all.
  destruct (decide (l ∈ hosts w)); [|reflexivity].
  destruct (hp !! l) as [h|]; cbn; [|reflexivity].
  now rewrite merge_after_remove_empty.
Qed.

Lemma merge_after_partial (results : gmap string mdns_fact) (mdns : mdns_fact) (h : host) :
  map_Forall (fun _ f => fact_complete f) results →
  mdns_merge_host results (set_mdns_partial mdns h) = mdns_merge_host results h.
Proof.
  intros Hall. unfold mdns_merge_host. cbn [set_mdns_partial ip set_mdns_props
    set_mdns_services set_mdns_name].
  destruct (results !! ip h) as [f|] eqn:E; [|reflexivity].
  destruct (Hall _ _ E) as (_ & _ & [p Hp]). rewrite Hp.
  now destruct (fact_truthy f).
Qed.

(** A partial mDNS update is transient: once the full mapping of the
    cycle is merged, the hosts are as if the partial update had never
    been applied. *)
Theorem on_mdns_done_overrides_partial (results : gmap string mdns_fact)
    (addr : string) (mdns : mdns_fact) (hp : list host) (w : ScannerWindow) :
  map_Forall (fun _ f => fact_complete f) results →
  _on_mdns_done results (_on_mdns_partial addr mdns hp w) w = _on_mdns_done results hp w.
Proof.
  intros Hall. unfold _on_mdns_partial.
  destruct (find_host hp (hosts w) addr) as [l0|] eqn:E; [|reflexivity].
  fold (set_mdns_partial mdns).
  destruct (find_host_Some _ _ _ _ E) as (Hin & _).
  apply list_eq. intros l. rewrite !on_mdns_done_lookup_all.
  destruct (decide (l = l0)) as [->|Hne].
  - destruct (decide (l0 ∈ hosts w)); [|contradiction].
    rewrite list_lookup_alter_eq.
    destruct (hp !! l0) as [h|]; cbn; [|reflexivity].
    now rewrite merge_after_partial.
  - rewrite list_lookup_alter_ne by congruence. reflexivity.
Qed.

Lemma find_host_notin (hp : list host) (locs : list nat) (x : string) :
  x ∉ map ip (deref hp locs) → find_host hp locs x = None.
Proof.
  induction locs as [|a locs IH]; [reflexivity|].
  cbn [find_host]. rewrite deref_cons.
  destruct (hp !! a) as [h|]; [|exact IH].
  cbn [map]. intros Hnin. apply not_elem_of_cons in Hnin as [Hne Hnin].
  rewrite decide_False by congruence. now apply IH.
Qed.

(** A partial mDNS update changes nothing but the three mDNS fields (the
    model is left alone, unlike in the full merge), only on a host with
    exactly the given address, and does nothing for an address that is
    not in the table. *)
Theorem on_mdns_partial_scope (addr : string) (mdns : mdns_fact) (hp : list host)
    (w : ScannerWindow) :
  map non_mdns_fields (_on_mdns_partial addr mdns hp w) = map non_mdns_fields hp
  ∧ (∀ l, (∀ h, hp !! l = Some h → ip h ≠ addr) →
          _on_mdns_partial addr mdns hp w !! l = hp !! l)
  ∧ (addr ∉ table_ips hp w → _on_mdns_partial addr mdns hp w = hp).
Proof.
  unfold _on_mdns_partial, table_ips.
  destruct (find_host hp (hosts w) addr) as [l0|] eqn:E.
  - destruct (find_host_Some _ _ _ _ E) as (_ & h0 & Hl0 & Hip0).
    repeat split.
    + apply list_eq. intros l.
      change (map non_mdns_fields) with (fmap (M := list) non_mdns_fields).
      rewrite !list_lookup_fmap. destruct (decide (l0 = l)) as [->|Hne].
      * rewrite list_lookup_alter_eq. now destruct (hp !! l).
      * now rewrite list_lookup_alter_ne.
    + intros l Hl. destruct (decide (l0 = l)) as [->|Hne].
      * now elim (Hl _ Hl0).
      * now rewrite list_lookup_alter_ne.
    + intros Hnin. apply find_host_notin in Hnin. congruence.
  - repeat split.
Qed.

(** ** Scan sessions that do not get going *)

Lemma with_window_id `{G : Globals} (s : session) : with_window (s_win s) s = s.
Proof. now destruct s. Qed.

(** An empty or invalid subnet starts nothing: the quick scan and the
    deep scan both return at once, the previous table is kept (it is
    cleared only after validation), no process is launched, no mDNS
    worker is started and the scan mode is unchanged. *)
Theorem scan_with_bad_subnet_is_noop `{G : Globals} (subnet_text : string) (s : session)
    (fuel : nat) :
  strip subnet_text = "" ∨ is_valid_subnet (strip subnet_text) = false →
  quick_scan_session (S fuel) subnet_text s = Some s
  ∧ deep_scan_session (S fuel) subnet_text s = Some s.
Proof.
  intros Hbad. unfold quick_scan_session, deep_scan_session, start_scan,
    start_advanced_scan.
  destruct (nonempty (strip subnet_text)) eqn:Hn; cbn [negb].
  - destruct Hbad as [Hbad|Hbad]; [rewrite Hbad in Hn; discriminate|].
    rewrite Hbad. cbn [negb run_actions step_action app].
    rewrite with_window_id. now destruct fuel.
  - cbn [run_actions step_action app]. rewrite with_window_id. now destruct fuel.
Qed.

(** A discovery process that cannot be launched ends the session: the
    failing pass emits only its error, so [discovery_finished] never
    arrives, the remaining passes are not launched, no mDNS worker is
    started, and the error handler leaves the advanced mode off.  Here
    for a quick scan, and for a deep scan failing at its second pass. *)
Theorem launch_failure_ends_session `{G : Globals} (subnet_text e : string)
    (l1 : list string) (rest : list (string + list string)) (sq sd : session)
    (fuel : nat) :
  strip subnet_text ≠ "" →
  is_valid_subnet (strip subnet_text) = true →
  s_procs sq = inl e :: rest →
  s_procs sd = inr l1 :: inl e :: rest →
  ∃ sq' sd',
    quick_scan_session (1 + fuel) subnet_text sq = Some sq'
    ∧ deep_scan_session (3 + fuel) subnet_text sd = Some sd'
    ∧ s_timeouts sq' = s_timeouts sq ∧ s_timeouts sd' = s_timeouts sd
    ∧ s_procs sq' = rest ∧ s_procs sd' = rest
    ∧ s_mdns sq' = s_mdns sq ∧ s_mdns sd' = s_mdns sd
    ∧ advanced_mode (s_win sq') = false ∧ advanced_mode (s_win sd') = false
    ∧ hosts (s_win sq') = [] ∧ s_heap sq' = s_heap sq.
Proof.
  intros Hne Hvalid Hq Hd.
  apply nonempty_true in Hne.
  (* the quick scan *)
  assert (Eq : ∃ sq', quick_scan_session (1 + fuel) subnet_text sq = Some sq'
                 ∧ s_timeouts sq' = s_timeouts sq ∧ s_procs sq' = rest
                 ∧ s_mdns sq' = s_mdns sq ∧ advanced_mode (s_win sq') = false
                 ∧ hosts (s_win sq') = [] ∧ s_heap sq' = s_heap sq).
  { unfold quick_scan_session, start_scan. rewrite Hne, Hvalid. cbn [negb].
    change (1 + fuel)%nat with (S fuel).
    cbn [run_actions step_action with_window s_procs s_win s_heap s_mdns s_timeouts].
    rewrite Hq. cbn. destruct fuel; eexists; (split; [reflexivity|]); cbn; auto 10. }
  (* the deep scan *)
  assert (Ed : ∃ sd', deep_scan_session (3 + fuel) subnet_text sd = Some sd'
                 ∧ s_timeouts sd' = s_timeouts sd ∧ s_procs sd' = rest
                 ∧ s_mdns sd' = s_mdns sd ∧ advanced_mode (s_win sd') = false).
  { unfold deep_scan_session, start_advanced_scan. rewrite Hne, Hvalid. cbn [negb].
    cbn [_execute_scan_passes passes lookup list_lookup].
    set (s0 := with_window _ sd).
    assert (H0 : s_procs s0 = inr l1 :: inl e :: rest ∧ s_timeouts s0 = s_timeouts sd
                 ∧ s_mdns s0 = s_mdns sd) by (subst s0; cbn; auto).
    clearbody s0. destruct H0 as (Hp0 & Ht0 & Hm0).
    change (3 + fuel)%nat with (S (S (S fuel))).
    destruct (scan_pass_step subnet_text (strip subnet_text) (Some ["-PR"])
                (OnScanPassFinished 0) l1 s0) as (s1 & E1 & _ & _ & Hp1 & Hm1 & Ht1);
      [now rewrite Hp0|].
    rewrite run_actions_cons, E1. cbn [fst snd app run_finished_handler
      _on_scan_pass_finished]. rewrite decide_False by lia. cbn [app].
    rewrite run_actions_cons.
    cbn [step_action run_callback _execute_scan_passes passes lookup list_lookup
           Nat.add fst snd app s_win].
    rewrite run_actions_cons.
    cbn [step_action s_procs s_heap s_win s_mdns s_timeouts]. rewrite Hp1, Hp0.
    cbn. destruct fuel; eexists; (split; [reflexivity|]); cbn;
      rewrite ?Ht1, ?Hm1; auto 10. }
  destruct Eq as (sq' & ? & ? & ? & ? & ? & ? & ?).
  destruct Ed as (sd' & ? & ? & ? & ? & ?).
  exists sq', sd'. auto 20.
Qed.

(** ** Port scans that fail, and slots of other hosts *)

(** A port scan that fails (exception, or non-zero exit whatever it
    printed) delivers no result: every host keeps the ports it had, the
    table is unchanged; the error handler switches the advanced mode off,
    so an mDNS cycle started by [_start_mdns] afterwards runs with 1.0 s. *)
Theorem port_scan_failure_keeps_ports `{G : Globals} (t : HostPortThread)
    (proc : proc_outcome) (hp : list host) (w : ScannerWindow) :
  match proc with Completed rc _ _ => rc ≠ 0 | Raised _ => True end →
  (HostPortThread_complete t proc hp w).1 = hp
  ∧ hosts (HostPortThread_complete t proc hp w).2 = hosts w
  ∧ advanced_mode (HostPortThread_complete t proc hp w).2 = false
  ∧ (_start_mdns (HostPortThread_complete t proc hp w).2).2
    = [LaunchMDNSWorker (1 # 1)%Q]
  ∧ ∃ msg, HostPortThread_run t proc = [Perror msg].
Proof.
  intros Hfail. unfold HostPortThread_complete, HostPortThread_run, _start_mdns.
  destruct proc as [rc out err|e].
  - rewrite decide_False by exact Hfail. cbn [foldl deliver_port_signal fst snd].
    unfold on_thread_finished. destruct (nonempty _ && _); cbn; eauto 10.
  - cbn [foldl deliver_port_signal fst snd].
    unfold on_thread_finished. destruct (nonempty _ && _); cbn; eauto 10.
Qed.

Lemma port_scan_failure_keeps_ports_witness :
  let t := {| hpt_ip := "10.0.0.8"; hpt_quick := false; hpt_custom_ports := None |} in
  let proc := Completed 1 ["Discovered open port 80/tcp on 10.0.0.8"] "denied" in
  let w := set_advanced_mode true demo_window in
  (@HostPortThread_complete demo_globals t proc demo_heap w).1 = demo_heap
  ∧ hosts (@HostPortThread_complete demo_globals t proc demo_heap w).2 = hosts w
  ∧ advanced_mode (@HostPortThread_complete demo_globals t proc demo_heap w).2 = false
  ∧ (_start_mdns (@HostPortThread_complete demo_globals t proc demo_heap w).2).2
    = [LaunchMDNSWorker (1 # 1)%Q]
  ∧ ∃ msg, @HostPortThread_run demo_globals t proc = [Perror msg].
Proof.
  apply (@port_scan_failure_keeps_ports demo_globals
           {| hpt_ip := "10.0.0.8"; hpt_quick := false; hpt_custom_ports := None |}
           (Completed 1 ["Discovered open port 80/tcp on 10.0.0.8"] "denied")
           demo_heap (set_advanced_mode true demo_window)).
  cbn. discriminate.
Defined.

(** The slots of the task map are independent: starting a port scan for
    one address, and the end of that scan, leave the entry of every other
    address as it was. *)
Theorem port_slots_independent `{G : Globals} (addr other : string)
    (custom : option (list Z)) (t : HostPortThread) (proc : proc_outcome)
    (hp : list host) (w : ScannerWindow) :
  other ≠ strip addr →
  other ≠ strip (hpt_ip t) →
  host_port_threads (start_host_port_scan (Some addr) custom w).1 !! other
  = host_port_threads w !! other
  ∧ host_port_threads (HostPortThread_complete t proc hp w).2 !! other
    = host_port_threads w !! other.
Proof.
  intros H1 H2. split.
  - unfold start_host_port_scan.
    destruct (negb (nonempty addr)); [reflexivity|].
    destruct (decide (is_Some _)); [reflexivity|].
    cbn. now rewrite lookup_insert_ne.
  - rewrite HostPortThread_complete_threads. unfold on_thread_finished.
    destruct (nonempty _ && _); [|reflexivity].
    cbn. now rewrite lookup_delete_ne.
Qed.

Lemma port_slots_independent_witness :
  let t := {| hpt_ip := "10.0.0.8"; hpt_quick := false; hpt_custom_ports := None |} in
  let w := set_host_port_threads
             {[ "10.0.0.7" := {| hpt_ip := "10.0.0.7"; hpt_quick := false;
                                 hpt_custom_ports := None |};
                "10.0.0.8" := t ]} demo_window in
  host_port_threads (start_host_port_scan (Some "10.0.0.9") None w).1 !! "10.0.0.7"
  = host_port_threads w !! "10.0.0.7"
  ∧ host_port_threads
      (@HostPortThread_complete demo_globals t (Raised "timed out") demo_heap w).2
      !! "10.0.0.7"
    = host_port_threads w !! "10.0.0.7".
Proof.
  apply (@port_slots_independent demo_globals "10.0.0.9" "10.0.0.7" None
           {| hpt_ip := "10.0.0.8"; hpt_quick := false; hpt_custom_ports := None |}
           (Raised "timed out") demo_heap).
  - vm_compute. discriminate.
  - vm_compute. discriminate.
Defined.

Lemma on_mdns_done_overrides_partial_witness :
  _on_mdns_done demo_results
    (_on_mdns_partial "10.0.0.8" demo_fact demo_heap demo_window) demo_window
  = _on_mdns_done demo_results demo_heap demo_window.
Proof.
  apply (on_mdns_done_overrides_partial demo_results "10.0.0.8" demo_fact
           demo_heap demo_window).
  intros k f Hk. unfold demo_results in Hk.
  apply lookup_singleton_Some in Hk as [_ <-].
  repeat split; eexists; reflexivity.
Defined.

Lemma scan_with_bad_subnet_is_noop_witness :
  @quick_scan_session demo_globals 1 "10.0.0.0/33" (session_init demo_quick_procs)
  = Some (session_init demo_quick_procs)
  ∧ @deep_scan_session demo_globals 1 "10.0.0.0/33" (session_init demo_quick_procs)
    = Some (session_init demo_quick_procs).
Proof.
  apply (@scan_with_bad_subnet_is_noop demo_globals "10.0.0.0/33"
           (session_init demo_quick_procs) 0%nat).
  right. reflexivity.
Defined.

Lemma launch_failure_ends_session_witness :
  ∃ sq' sd',
    @quick_scan_session demo_globals (1 + 0) "192.168.1.0/24"
      (session_init [inl "No such file"; inr [report_line "10.0.0.3"]]) = Some sq'
    ∧ @deep_scan_session demo_globals (3 + 0) "192.168.1.0/24"
        (session_init [inr [report_line "10.0.0.1"]; inl "No such file";
                       inr [report_line "10.0.0.3"]]) = Some sd'
    ∧ s_timeouts sq'
      = s_timeouts (session_init [inl "No such file"; inr [report_line "10.0.0.3"]])
    ∧ s_timeouts sd'
      = s_timeouts (session_init [inr [report_line "10.0.0.1"]; inl "No such file";
                                  inr [report_line "10.0.0.3"]])
    ∧ s_procs sq' = [inr [report_line "10.0.0.3"]]
    ∧ s_procs sd' = [inr [report_line "10.0.0.3"]]
    ∧ s_mdns sq'
      = s_mdns (session_init [inl "No such file"; inr [report_line "10.0.0.3"]])
    ∧ s_mdns sd'
      = s_mdns (session_init [inr [report_line "10.0.0.1"]; inl "No such file";
                              inr [report_line "10.0.0.3"]])
    ∧ advanced_mode (s_win sq') = false ∧ advanced_mode (s_win sd') = false
    ∧ hosts (s_win sq') = []
    ∧ s_heap sq'
      = s_heap (session_init [inl "No such file"; inr [report_line "10.0.0.3"]]).
Proof.
  apply (@launch_failure_ends_session demo_globals "192.168.1.0/24" "No such file"
           [report_line "10.0.0.1"] [inr [report_line "10.0.0.3"]]
           (session_init [inl "No such file"; inr [report_line "10.0.0.3"]])
           (session_init [inr [report_line "10.0.0.1"]; inl "No such file";
                          inr [report_line "10.0.0.3"]]) 0%nat).
  - vm_compute. discriminate.
  - reflexivity.
  - reflexivity.
  - reflexivity.
Defined.

(** * More of the mDNS worker *)

(** The TXT properties of an instance: the value stored under a key is
    the last one the record gives for a key that decodes to it; pairs with
    a missing key or value are skipped; a key that no pair decodes to is
    absent.  (Two different byte keys that decode alike share one entry.) *)
Theorem txt_props_last_wins (props : list (option (list byte) * option (list byte)))
    (k : string) :
  txt_props props !! k = last (txt_values k props).
Proof.
  unfold txt_props.
  assert (Hgen : ∀ acc : gmap string string,
            foldl (fun acc kv =>
                     match kv with
                     | (Some a, Some b) => <[decode_ignore a := decode_ignore b]> acc
                     | _ => acc
                     end) acc props !! k
            = match last (txt_values k props) with
              | Some v => Some v
              | None => acc !! k
              end).
  { induction props as [|[[a|] [b|]] props IH]; intros acc; cbn [foldl]; try apply IH.
    - reflexivity.
    - rewrite IH. unfold txt_values. cbn [omap list_omap].
      fold (txt_values k props).
      destruct (decide (decode_ignore a = k)) as [Heq|Hne].
      + subst k. rewrite lookup_insert_eq.
        destruct (txt_values (decode_ignore a) props) as [|v vs]; [reflexivity|].
        rewrite last_cons_cons.
        destruct (last (v :: vs)) eqn:E; [reflexivity|].
        now apply last_None in E.
      + now rewrite lookup_insert_ne. }
  rewrite Hgen, lookup_empty. now destruct (last _).
Qed.

(** The entry an instance list builds, first instance first. *)
Lemma foldl_instances_entry (e : mdns_fact) (infos : list ServiceInfo) :
  foldl (fun o info =>
           Some {| f_hostname := f_hostname (default
                                   {| f_hostname := Some (rstrip_dot (server info));
                                      f_services := Some [];
                                      f_mdns_props := Some ∅ |} o);
                   f_services := Some (default [] (f_services (default
                                   {| f_hostname := Some (rstrip_dot (server info));
                                      f_services := Some [];
                                      f_mdns_props := Some ∅ |} o)) ++ [type_ info]);
                   f_mdns_props := Some (txt_props (properties info)
                                         ∪ default ∅ (f_mdns_props (default
                                   {| f_hostname := Some (rstrip_dot (server info));
                                      f_services := Some [];
                                      f_mdns_props := Some ∅ |} o))) |})
    (Some e) infos
  = Some {| f_hostname := f_hostname e;
            f_services := Some (default [] (f_services e) ++ map type_ infos);
            f_mdns_props :=
              Some (foldl (fun acc info => txt_props (properties info) ∪ acc)
                      (default ∅ (f_mdns_props e)) infos) |} ∨ infos = [].
Proof.
  revert e. induction infos as [|i infos IH]; intros e; [now right|]. left.
  cbn [foldl default from_option id].
  destruct (IH {| f_hostname := f_hostname e;
                  f_services := Some (default [] (f_services e) ++ [type_ i]);
                  f_mdns_props := Some (txt_props (properties i)
                                        ∪ default ∅ (f_mdns_props e)) |})
    as [->| ->].
  - cbn. now rewrite <- app_assoc.
  - reflexivity.
Qed.

(** The mapping the worker emits, entry by entry: an address is a key
    exactly when some resolved instance has it as first address; the entry
    takes its host name from the first such instance (trailing dots
    removed), lists the service types of all of them in order, and merges
    their TXT properties key by key, later instances overriding earlier
    ones.  Unresolved instances and instances without address leave no
    trace. *)
Theorem MDNSWorker_hosts_entry (found : list (string * option ServiceInfo)) (k : string) :
  MDNSWorker_hosts found !! k
  = match instances_at k found with
    | [] => None
    | first :: others =>
        Some {| f_hostname := Some (rstrip_dot (server first));
                f_services := Some (map type_ (first :: others));
                f_mdns_props :=
                  Some (foldl (fun acc info => txt_props (properties info) ∪ acc)
                          ∅ (first :: others)) |}
    end.
Proof.
  unfold MDNSWorker_hosts.
  set (step := fun (o : option mdns_fact) (info : ServiceInfo) =>
           Some {| f_hostname := f_hostname (default
                                   {| f_hostname := Some (rstrip_dot (server info));
                                      f_services := Some [];
                                      f_mdns_props := Some ∅ |} o);
                   f_services := Some (default [] (f_services (default
                                   {| f_hostname := Some (rstrip_dot (server info));
                                      f_services := Some [];
                                      f_mdns_props := Some ∅ |} o)) ++ [type_ info]);
                   f_mdns_props := Some (txt_props (properties info)
                                         ∪ default ∅ (f_mdns_props (default
                                   {| f_hostname := Some (rstrip_dot (server info));
                                      f_services := Some [];
                                      f_mdns_props := Some ∅ |} o))) |}).
  assert (Hgen : ∀ acc : gmap string mdns_fact,
            foldl add_instance acc found !! k
            = foldl step (acc !! k) (instances_at k found)).
  { induction found as [|[n oi] found IH]; intros acc; [reflexivity|].
    cbn [foldl]. rewrite IH. unfold instances_at. cbn [omap list_omap].
    fold (instances_at k found).
    unfold add_instance, instance_ip. cbn [snd].
    destruct oi as [info|]; [|reflexivity].
    destruct (addresses info) as [|a ?]; [now rewrite decide_False|].
    destruct (decide (Some (dotted a) = Some k)) as [[= ->]|Hne].
    - cbn [foldl]. now rewrite lookup_insert_eq.
    - rewrite lookup_insert_ne by congruence. reflexivity. }
  rewrite Hgen, lookup_empty.
  destruct (instances_at k found) as [|first others]; [reflexivity|].
  cbn [foldl]. unfold step at 2. cbn [default from_option id f_hostname f_services
    f_mdns_props app].
  match goal with |- foldl step (Some ?e) others = _ =>
    destruct (foldl_instances_entry e others) as [H| ->] end.
  - subst step. rewrite H. cbn. reflexivity.
  - cbn. rewrite (right_id ∅ (∪)). reflexivity.
Qed.

(** ** Decoding TXT bytes *)

(** On well-formed UTF-8 the three decoders agree: the worker's lenient
    decoding and the Bonjour browser's [safe_decode] both give the text
    the strict decoding gives; nothing is dropped and no hexadecimal form
    appears. *)
Theorem decoders_agree_on_utf8 (bs : list byte) (s : string) :
  decode_strict bs = Some s →
  decode_ignore bs = s ∧ safe_decode bs = s.
Proof.
  intros H. split; [now apply decode_strict_ignore|].
  unfold safe_decode. now rewrite H.
Qed.

Lemma decoders_agree_on_utf8_witness :
  decode_ignore [xe2; x82; xac; x35] = String.string_of_list_byte [xe2; x82; xac; x35]
  ∧ safe_decode [xe2; x82; xac; x35] = String.string_of_list_byte [xe2; x82; xac; x35].
Proof.
  apply (decoders_agree_on_utf8 [xe2; x82; xac; x35]
           (String.string_of_list_byte [xe2; x82; xac; x35])).
  reflexivity.
Defined.

Lemma decode_strict_go_ascii (fuel : nat) (bs : list byte) :
  (List.length bs ≤ fuel)%nat →
  Forall (fun b => byte_in 0 127 b = true) bs →
  decode_strict_go fuel bs = Some (string_of_bytes bs).
Proof.
  revert bs. induction fuel as [|fuel IH]; intros bs Hlen Hall.
  - destruct bs; [reflexivity | cbn in Hlen; lia].
  - destruct bs as [|b r]; [reflexivity|].
    apply Forall_cons in Hall as [Hb Hr].
    cbn [decode_strict_go utf8_seq_len]. rewrite Hb.
    cbn [take drop]. rewrite drop_0, take_0. rewrite IH; [reflexivity | cbn [List.length] in Hlen; lia | exact Hr].
Qed.

(** Bytes that are all ASCII always decode, to themselves. *)
Theorem decode_ascii_is_identity (bs : list byte) :
  Forall (fun b => byte_in 0 127 b = true) bs →
  decode_strict bs = Some (string_of_bytes bs)
  ∧ decode_ignore bs = string_of_bytes bs
  ∧ safe_decode bs = string_of_bytes bs.
Proof.
  intros Hall.
  assert (H : decode_strict bs = Some (string_of_bytes bs))
    by (now apply decode_strict_go_ascii).
  split; [exact H|]. split; [now apply decode_strict_ignore|].
  unfold safe_decode. now rewrite H.
Qed.

Lemma decode_ascii_is_identity_witness :
  decode_strict [x6d; x6f; x64; x65; x6c] = Some (string_of_bytes [x6d; x6f; x64; x65; x6c])
  ∧ decode_ignore [x6d; x6f; x64; x65; x6c] = string_of_bytes [x6d; x6f; x64; x65; x6c]
  ∧ safe_decode [x6d; x6f; x64; x65; x6c] = string_of_bytes [x6d; x6f; x64; x65; x6c].
Proof.
  apply (decode_ascii_is_identity [x6d; x6f; x64; x65; x6c]).
  repeat constructor.
Defined.

Lemma hex_digit_inj (x y : N) :
  (x < 16)%N → (y < 16)%N → hex_digit x = hex_digit y → x = y.
Proof.
  intros Hx Hy H. unfold hex_digit in H.
  apply (f_equal N_of_ascii) in H.
  destruct (x <? 10)%N eqn:Ex, (y <? 10)%N eqn:Ey;
    rewrite ?N.ltb_lt, ?N.ltb_ge in Ex, Ey;
    rewrite !N_ascii_embedding in H by lia; lia.
Qed.

Lemma byte_of_nibbles (a b : byte) :
  (Byte.to_N a / 16 = Byte.to_N b / 16)%N →
  (Byte.to_N a mod 16 = Byte.to_N b mod 16)%N →
  a = b.
Proof.
  intros Hd Hm.
  assert (H : Byte.to_N a = Byte.to_N b).
  { rewrite (N.div_mod (Byte.to_N a) 16), (N.div_mod (Byte.to_N b) 16) by lia.
    now rewrite Hd, Hm. }
  apply (f_equal Byte.of_N) in H. rewrite !Byte.of_to_N in H. now injection H.
Qed.

Lemma hex_inj (a b : list byte) : hex a = hex b → a = b.
Proof.
  revert b. induction a as [|x a IH]; intros [|y b] H; cbn in H; try discriminate.
  - reflexivity.
  - injection H as H1 H2 H3.
    assert (Hx : (Byte.to_N x < 256)%N) by (pose proof (Byte.to_N_bounded x); lia).
    assert (Hy : (Byte.to_N y < 256)%N) by (pose proof (Byte.to_N_bounded y); lia).
    f_equal; [|now apply IH].
    apply byte_of_nibbles.
    + apply hex_digit_inj; [| |exact H1]; apply N.Div0.div_lt_upper_bound; lia.
    + apply hex_digit_inj; [| |exact H2]; apply N.mod_lt; lia.
Qed.

Lemma hex_length (a : list byte) : String.length (hex a) = (2 * List.length a)%nat.
Proof. induction a as [|x a IH]; [reflexivity|]. cbn [hex String.length List.length]. lia. Qed.

(** The hexadecimal fallback of [safe_decode] loses nothing: two byte
    strings that are not UTF-8 and are shown alike are the same bytes,
    and the form shown has two digits per byte after ["0x"]. *)
Theorem safe_decode_hex_lossless (a b : list byte) :
  decode_strict a = None →
  decode_strict b = None →
  String.length (safe_decode a) = (2 + 2 * List.length a)%nat
  ∧ (safe_decode a = safe_decode b → a = b).
Proof.
  intros Ha Hb. unfold safe_decode. rewrite Ha, Hb. split.
  - change ("0x" +:+ hex a) with (String "0" (String "x" (hex a))).
    cbn [String.length]. now rewrite hex_length.
  - intros H. injection H as H. now apply hex_inj.
Qed.

Lemma safe_decode_hex_lossless_witness :
  String.length (safe_decode [xff; xfe]) = (2 + 2 * List.length [xff; xfe])%nat
  ∧ (safe_decode [xff; xfe] = safe_decode [xc3] → [xff; xfe] = [xc3]).
Proof.
  apply (safe_decode_hex_lossless [xff; xfe] [xc3]); reflexivity.
Defined.

(** * More of the discovery thread *)

Lemma report_step_grows `{G : Globals} (n0 : nat) (line : string) (hp : list host)
    (t : ScanThread) :
  (n0 ≤ List.length hp)%nat →
  Forall (fun l => (n0 ≤ l)%nat) (t_hosts t) →
  let r := report_step line hp t in
  (n0 ≤ List.length r.1.1)%nat
  ∧ Forall (fun l => (n0 ≤ l)%nat) (t_hosts r.1.2)
  ∧ take n0 r.1.1 = take n0 hp
  ∧ (List.length r.1.1 + List.length (t_hosts t)
     = List.length hp + List.length (t_hosts r.1.2))%nat.
Proof.
  intros Hn Hall r. subst r. unfold report_step.
  destruct (match_report line) as [[raw g_ip]|]; [|cbn; auto].
  destruct (decide (_ ∈ t_seen_ips t)); [cbn; auto|].
  cbn [fst snd t_hosts]. rewrite !length_app. cbn [List.length].
  repeat split.
  - lia.
  - apply Forall_app. split; [exact Hall|]. now repeat constructor.
  - now rewrite take_app_le.
  - lia.
Qed.

Lemma mac_step_grows `{G : Globals} (n0 : nat) (line : string) (hp : list host)
    (t : ScanThread) :
  (n0 ≤ List.length hp)%nat →
  Forall (fun l => (n0 ≤ l)%nat) (t_hosts t) →
  let r := mac_step line hp t in
  (n0 ≤ List.length r.1.1)%nat
  ∧ Forall (fun l => (n0 ≤ l)%nat) (t_hosts r.1.2)
  ∧ take n0 r.1.1 = take n0 hp
  ∧ (List.length r.1.1 + List.length (t_hosts t)
     = List.length hp + List.length (t_hosts r.1.2))%nat.
Proof.
  intros Hn Hall r. subst r. unfold mac_step.
  destruct (search_mac line) as [[m v]|]; [|cbn; auto].
  destruct (last (t_hosts t)) as [l|] eqn:El; [|cbn; auto].
  cbn [fst snd]. rewrite length_alter. repeat split; auto.
  rewrite take_alter. apply last_Some_elem_of in El.
  rewrite Forall_forall in Hall. specialize (Hall l El).
  rewrite decide_False by lia. reflexivity.
Qed.

Lemma process_lines_grows `{G : Globals} (n0 : nat) (lines : list string)
    (hp : list host) (t : ScanThread) :
  (n0 ≤ List.length hp)%nat →
  Forall (fun l => (n0 ≤ l)%nat) (t_hosts t) →
  let r := process_lines lines hp t in
  (n0 ≤ List.length r.1.1)%nat
  ∧ Forall (fun l => (n0 ≤ l)%nat) (t_hosts r.1.2)
  ∧ take n0 r.1.1 = take n0 hp
  ∧ (List.length r.1.1 + List.length (t_hosts t)
     = List.length hp + List.length (t_hosts r.1.2))%nat.
Proof.
  revert hp t. induction lines as [|line lines IH]; intros hp t Hn Hall; [cbn; auto|].
  cbn [process_lines]. unfold process_line.
  pose proof (report_step_grows n0 line hp t Hn Hall) as H1.
  destruct (report_step line hp t) as [[hp1 t1] out1]. cbn [fst snd] in H1.
  cbn zeta in H1. destruct H1 as (Hn1 & Hall1 & Ht1 & Hl1).
  pose proof (mac_step_grows n0 line hp1 t1 Hn1 Hall1) as H2.
  destruct (mac_step line hp1 t1) as [[hp2 t2] out2]. cbn [fst snd] in H2.
  cbn zeta in H2. destruct H2 as (Hn2 & Hall2 & Ht2 & Hl2).
  pose proof (IH hp2 t2 Hn2 Hall2) as H3.
  destruct (process_lines lines hp2 t2) as [[hp3 t3] out3]. cbn [fst snd] in H3 |- *.
  cbn zeta in H3. destruct H3 as (Hn3 & Hall3 & Ht3 & Hl3).
  repeat split; auto; [congruence | lia].
Qed.

(** Whatever the discovery process prints (or if it cannot be launched),
    the thread ends with hosts of pairwise distinct addresses, all of
    them in [seen_ips]; every host of its list is one it allocated itself,
    and the hosts that existed before the pass are exactly as they were. *)
Theorem ScanThread_run_invariants `{G : Globals} (proc : string + list string)
    (hp : list host) :
  let r := ScanThread_run proc hp in
  NoDup (map ip (deref r.1.1 (t_hosts r.1.2)))
  ∧ (∀ x, x ∈ map ip (deref r.1.1 (t_hosts r.1.2)) → x ∈ t_seen_ips r.1.2)
  ∧ take (List.length hp) r.1.1 = hp
  ∧ List.length r.1.1 = (List.length hp + List.length (t_hosts r.1.2))%nat
  ∧ Forall (fun l => (List.length hp ≤ l < List.length r.1.1)%nat) (t_hosts r.1.2).
Proof.
  intros r. subst r. unfold ScanThread_run. destruct proc as [e|lines].
  - cbn. rewrite firstn_all. repeat split; try constructor.
    + intros x Hx. now apply elem_of_nil in Hx.
    + lia.
  - pose proof (process_lines_inv lines hp ScanThread_init (thread_inv_init hp))
      as (Hval & Hnd & Hseen).
    pose proof (process_lines_grows (List.length hp) lines hp ScanThread_init
                  (le_n _) (Forall_nil_2 _)) as Hg.
    destruct (process_lines lines hp ScanThread_init) as [[hp1 t1] out1].
    cbn [fst snd] in *. cbn zeta in Hg. destruct Hg as (_ & Hge & Htake & Hlen).
    rewrite firstn_all in Htake. cbn in Hlen.
    repeat split; auto; [lia|].
    rewrite Forall_forall in Hval, Hge |- *. intros l Hl.
    specialize (Hval l Hl). specialize (Hge l Hl). cbn in Hval. lia.
Qed.

(** A discovery pass that starts on an empty table ends with the table
    holding exactly the thread's host list, each address once. *)
Theorem discovery_pass_fills_table `{G : Globals} (h : finished_handler)
    (lines : list string) (hp : list host) (w : ScannerWindow) :
  hosts w = [] →
  let r := ScanThread_run (inr lines) hp in
  let st := deliver_scan_signals h r.2 (r.1.1, w, []) in
  hosts st.1.2 = t_hosts r.1.2
  ∧ NoDup (table_ips st.1.1 st.1.2)
  ∧ table_ips st.1.1 st.1.2 = map ip (deref r.1.1 (t_hosts r.1.2)).
Proof.
  intros Hempty r st.
  destruct (single_pass_no_duplicates h lines hp w Hempty) as (Hnd & Hsync & _ & _).
  fold r st in Hnd, Hsync. repeat split; auto.
  subst st r. unfold ScanThread_run in *.
  pose proof (deliver_process_lines h lines hp ScanThread_init
                (process_lines lines hp ScanThread_init).1.1 w [] Hempty) as Hs.
  destruct (process_lines lines hp ScanThread_init) as [[hp1 t1] out1].
  cbn [fst snd] in *. cbn zeta in Hs.
  rewrite deliver_scan_signals_app in *.
  destruct (deliver_scan_signals h out1 (hp1, w, [])) as [[hp' w'] acts'].
  cbn [fst snd] in *. destruct Hs as (Ha & _ & _ & Hd).
  unfold deliver_scan_signals in *. cbn [foldl deliver_scan_signal] in *.
  destruct (run_finished_handler h w') as [w'' more] eqn:E.
  assert (w'' = w') by (destruct h; cbn in E; now injection E). subst w''.
  cbn [fst snd] in *. unfold table_ips. now rewrite Ha, Hd.
Qed.

Lemma discovery_pass_fills_table_witness :
  let r := @ScanThread_run demo_globals
             (inr [report_line "10.0.0.1"; report_line "10.0.0.2";
                   report_line "10.0.0.1"]) [] in
  let st := deliver_scan_signals OnDiscoveryFinished r.2
              (r.1.1, ScannerWindow_init, []) in
  hosts st.1.2 = t_hosts r.1.2
  ∧ NoDup (table_ips st.1.1 st.1.2)
  ∧ table_ips st.1.1 st.1.2 = map ip (deref r.1.1 (t_hosts r.1.2)).
Proof.
  apply (@discovery_pass_fills_table demo_globals OnDiscoveryFinished
           [report_line "10.0.0.1"; report_line "10.0.0.2"; report_line "10.0.0.1"]
           [] ScannerWindow_init).
  reflexivity.
Defined.

(** ** MAC lines: the model, and the host they land on *)

(** When a MAC line is processed, the most recent host gets as model the
    mDNS property [model] if it has one, else the entry of the Apple-model
    table for the MAC prefix, else the empty string: the model it had is
    not kept.  Address, host name, ports and mDNS fields stay, every
    other host is untouched, and one snapshot of the unchanged host list
    is emitted. *)
Theorem mac_line_sets_model `{G : Globals} (line m : string)
    (vendor_inline : option string) (hp : list host) (t : ScanThread) (l : nat) (h : host) :
  search_mac line = Some (m, vendor_inline) →
  last (t_hosts t) = Some l →
  hp !! l = Some h →
  ∃ h', (mac_step line hp t).1.1 !! l = Some h'
        ∧ model h' = first_nonempty [props_get (mdns_props h) "model";
                                     default "" (apple_model_map !! mac_prefix m)]
        ∧ (ip h', hostname h', ports h', mdns_name h', mdns_services h', mdns_props h')
          = (ip h, hostname h, ports h, mdns_name h, mdns_services h, mdns_props h)
        ∧ (∀ l', l' ≠ l → (mac_step line hp t).1.1 !! l' = hp !! l')
        ∧ (mac_step line hp t).1.2 = t
        ∧ (mac_step line hp t).2 = [Sresult (t_hosts t)].
Proof.
  intros Hm Hlast Hl. unfold mac_step. rewrite Hm, Hlast. cbn [fst snd].
  exists (apply_mac m vendor_inline h). rewrite list_lookup_alter_eq, Hl.
  repeat split.
  - change (model (apply_mac m vendor_inline h)) with (resolve_model m h).
    unfold resolve_model, props_get. generalize (mac_prefix m) as p. intros p.
    destruct (default "" (mdns_props h !! "model")) as [|c s]; [|reflexivity].
    destruct (apple_model_map !! p) as [[|c s]|]; reflexivity.
  - intros l' Hne. now rewrite list_lookup_alter_ne.
Qed.

Lemma mac_line_sets_model_witness :
  ∃ h', (@mac_step demo_globals ("MAC Address: F0:B4:79:00:00:01" +:+ nl)
           [hinted_host] hinted_thread).1.1 !! 0%nat = Some h'
        ∧ model h' = first_nonempty
                       [props_get (mdns_props hinted_host) "model";
                        default "" (@apple_model_map demo_globals
                                      !! mac_prefix "F0:B4:79:00:00:01")]
        ∧ (ip h', hostname h', ports h', mdns_name h', mdns_services h', mdns_props h')
          = (ip hinted_host, hostname hinted_host, ports hinted_host,
             mdns_name hinted_host, mdns_services hinted_host, mdns_props hinted_host)
        ∧ (∀ l', l' ≠ 0%nat →
             (@mac_step demo_globals ("MAC Address: F0:B4:79:00:00:01" +:+ nl)
                [hinted_host] hinted_thread).1.1 !! l' = [hinted_host] !! l')
        ∧ (@mac_step demo_globals ("MAC Address: F0:B4:79:00:00:01" +:+ nl)
             [hinted_host] hinted_thread).1.2 = hinted_thread
        ∧ (@mac_step demo_globals ("MAC Address: F0:B4:79:00:00:01" +:+ nl)
             [hinted_host] hinted_thread).2 = [Sresult (t_hosts hinted_thread)].
Proof.
  apply (@mac_line_sets_model demo_globals ("MAC Address: F0:B4:79:00:00:01" +:+ nl)
           "F0:B4:79:00:00:01" None [hinted_host] hinted_thread 0%nat hinted_host);
    reflexivity.
Defined.

(** A report line for an address the thread has already seen is skipped
    as a whole, so a MAC line that follows it is attached to the last
    host that was new, not to the host the report names. *)
Theorem mac_after_repeated_report `{G : Globals} (report mac_line raw m : string)
    (g_ip vendor_inline : option string) (hp : list host) (t : ScanThread)
    (l : nat) (h : host) :
  match_report report = Some (raw, g_ip) →
  search_mac report = None →
  strip (default raw g_ip) ∈ t_seen_ips t →
  match_report mac_line = None →
  search_mac mac_line = Some (m, vendor_inline) →
  last (t_hosts t) = Some l →
  hp !! l = Some h →
  process_lines [report; mac_line] hp t = process_lines [mac_line] hp t
  ∧ (process_lines [report; mac_line] hp t).1.1 !! l = Some (apply_mac m vendor_inline h)
  ∧ (process_lines [report; mac_line] hp t).1.2 = t.
Proof.
  intros Hrep Hnomac Hseen Hnorep Hmac Hlast Hl.
  assert (H1 : process_line report hp t = (hp, t, [])).
  { unfold process_line, report_step, mac_step. rewrite Hrep, Hnomac.
    now rewrite decide_True by exact Hseen. }
  assert (H2 : process_line mac_line hp t
               = (alter (apply_mac m vendor_inline) l hp, t, [Sresult (t_hosts t)])).
  { unfold process_line, report_step, mac_step. now rewrite Hnorep, Hmac, Hlast. }
  cbn [process_lines]. rewrite H1, H2. cbn [fst snd app].
  repeat split. now rewrite list_lookup_alter_eq, Hl.
Qed.

Lemma mac_after_repeated_report_witness :
  let hp := [new_host "10.0.0.1" ""; new_host "10.0.0.2" ""] in
  let t := {| t_hosts := [0%nat; 1%nat];
              t_seen_ips := {[ "10.0.0.1" ]} ∪ {[ "10.0.0.2" ]} |} in
  let report := report_line "10.0.0.1" in
  let mac_line := "MAC Address: F0:B4:79:00:00:01 (Apple)" +:+ nl in
  @process_lines demo_globals [report; mac_line] hp t
    = @process_lines demo_globals [mac_line] hp t
  ∧ (@process_lines demo_globals [report; mac_line] hp t).1.1 !! 1%nat
    = Some (@apply_mac demo_globals "F0:B4:79:00:00:01" (Some "Apple")
              (new_host "10.0.0.2" ""))
  ∧ (@process_lines demo_globals [report; mac_line] hp t).1.2 = t.
Proof.
  intros hp t report mac_line.
  apply (@mac_after_repeated_report demo_globals report mac_line
           ("10.0.0.1" +:+ nl) "F0:B4:79:00:00:01" None (Some "Apple") hp t 1%nat
           (new_host "10.0.0.2" "")); reflexivity || (vm_compute; exact I).
Defined.

(** * What the parsers accept *)

Lemma app_assoc_str (a b c : string) : (a +:+ b) +:+ c = a +:+ (b +:+ c).
Proof.
  induction a as [|x a IH]; [reflexivity|]. rewrite !app_cons. now rewrite IH.
Qed.

Lemma lstrip_no_space (a rest : string) :
  a ≠ "" → str_forall not_space a = true →
  lstrip_by isspace (a +:+ rest) = a +:+ rest.
Proof.
  intros Hne Ha. destruct a as [|c a]; [contradiction|].
  rewrite app_cons. cbn [str_forall] in Ha. apply andb_prop in Ha as [Hc _].
  unfold not_space in Hc. apply negb_true_iff in Hc. cbn [lstrip_by]. now rewrite Hc.
Qed.

Lemma rstrip_no_space (a : string) :
  str_forall not_space a = true → rstrip_by isspace (a +:+ nl) = a.
Proof.
  induction a as [|c a IH]; intros Ha; [reflexivity|].
  cbn [str_forall] in Ha. apply andb_prop in Ha as [Hc Ha].
  unfold not_space in Hc. apply negb_true_iff in Hc.
  rewrite app_cons, rstrip_by_cons, (IH Ha). rewrite Hc. now destruct a.
Qed.

Lemma rstrip_no_space_id (a : string) :
  str_forall not_space a = true → rstrip_by isspace a = a.
Proof.
  induction a as [|c a IH]; intros Ha; [reflexivity|].
  cbn [str_forall] in Ha. apply andb_prop in Ha as [Hc Ha].
  unfold not_space in Hc. apply negb_true_iff in Hc.
  rewrite rstrip_by_cons, (IH Ha). rewrite Hc. now destruct a.
Qed.

Lemma str_forall_impl (p q : ascii → bool) (s : string) :
  (∀ c, p c = true → q c = true) → str_forall p s = true → str_forall q s = true.
Proof.
  intros Hpq. induction s as [|c s IH]; [reflexivity|]. cbn [str_forall].
  intros H. apply andb_prop in H as [Hc Hs]. now rewrite (Hpq c Hc), (IH Hs).
Qed.

Lemma addr_char_not_space (c : ascii) : is_addr_char c = true → not_space c = true.
Proof.
  destruct c as [[] [] [] [] [] [] [] []]; vm_compute; congruence.
Qed.

Lemma not_space_not_blank (c : ascii) :
  not_space c = true → negb (Ascii.eqb c " "%char) = true.
Proof.
  destruct c as [[] [] [] [] [] [] [] []]; vm_compute; congruence.
Qed.

Lemma match_report_of_plain_line (addr : string) :
  addr ≠ "" → str_forall not_space addr = true →
  match_report (report_line addr) = Some (addr +:+ nl, None).
Proof.
  intros Hne Ha. unfold match_report, report_line.
  rewrite strip_prefix_app.
  rewrite <- (app_empty_r (addr +:+ nl)) at 1.
  rewrite span_app; [|cbn..].
  - destruct addr; [contradiction|]. rewrite app_cons. reflexivity.
  - induction addr as [|c a IH]; [reflexivity|]. rewrite app_cons. cbn [str_forall] in *.
    apply andb_prop in Ha as [Hc Ha]. rewrite (not_space_not_blank c Hc).
    destruct a as [|c' a']; [reflexivity|]. now apply IH.
  - exact I.
Qed.

Lemma match_report_of_named_line (name addr : string) :
  name ≠ "" → str_forall not_space name = true →
  addr ≠ "" → str_forall is_addr_char addr = true →
  match_report (named_report_line name addr) = Some (name, Some addr).
Proof.
  intros Hn Hname Ha Haddr. unfold match_report, named_report_line.
  rewrite strip_prefix_app.
  rewrite span_app; [| now apply (str_forall_impl not_space), Hname;
                        apply not_space_not_blank | reflexivity].
  rewrite (nonempty_ne name Hn), strip_prefix_app.
  fold is_addr_char.
  rewrite span_app; [|exact Haddr|reflexivity].
  now rewrite (nonempty_ne addr Ha).
Qed.

(** nmap's two forms of report line, [for <addr>] and [for <name> (<addr>)],
    both create the host [addr] when it has not been seen: the name nmap
    printed is not kept, the host name is the one of the reverse lookup. *)
Theorem report_line_adds_host `{G : Globals} (name addr : string) (hp : list host)
    (t : ScanThread) :
  name ≠ "" → str_forall not_space name = true →
  addr ≠ "" → str_forall is_addr_char addr = true →
  addr ∉ t_seen_ips t →
  let added :=
    (hp ++ [new_host addr (default "" (gethostbyaddr addr))],
     {| t_hosts := t_hosts t ++ [List.length hp];
        t_seen_ips := {[addr]} ∪ t_seen_ips t |}) in
  (report_step (report_line addr) hp t).1 = added
  ∧ (report_step (named_report_line name addr) hp t).1 = added.
Proof.
  intros Hn Hname Ha Haddr Hseen added. subst added.
  pose proof (str_forall_impl _ _ addr addr_char_not_space Haddr) as Hns.
  unfold report_step.
  rewrite (match_report_of_plain_line addr Ha Hns), (match_report_of_named_line name addr Hn Hname Ha Haddr).
  unfold strip.
  change (default (addr +:+ nl) None) with (addr +:+ nl).
  change (default name (Some addr)) with addr.
  rewrite (lstrip_no_space addr nl Ha Hns), (rstrip_no_space addr Hns).
  pose proof (lstrip_no_space addr "" Ha Hns) as Hl. rewrite app_empty_r in Hl.
  rewrite Hl.
  rewrite (rstrip_no_space_id addr Hns).
  destruct (decide (addr ∈ t_seen_ips t)); [contradiction|]. split; reflexivity.
Qed.

Lemma report_line_adds_host_witness :
  let added :=
    ([] ++ [new_host "10.0.0.9" (default "" (@gethostbyaddr demo_globals "10.0.0.9"))],
     {| t_hosts := t_hosts ScanThread_init ++ [List.length (@nil host)];
        t_seen_ips := {["10.0.0.9"]} ∪ t_seen_ips ScanThread_init |}) in
  (@report_step demo_globals (report_line "10.0.0.9") [] ScanThread_init).1 = added
  ∧ (@report_step demo_globals (named_report_line "printer.lan" "10.0.0.9") []
       ScanThread_init).1 = added.
Proof.
  apply (@report_line_adds_host demo_globals "printer.lan" "10.0.0.9" [] ScanThread_init);
    [discriminate | reflexivity | discriminate | reflexivity | apply not_elem_of_empty].
Defined.

Lemma mac_char_not_space (c : ascii) : is_mac_char c = true → not_space c = true.
Proof.
  destruct c as [[] [] [] [] [] [] [] []]; vm_compute; congruence.
Qed.

Lemma search_mac_vendor_line (m v : string) :
  m ≠ "" → str_forall is_mac_char m = true →
  v ≠ "" → str_forall not_paren v = true →
  search_mac (vendor_mac_line m v) = Some (m, Some v).
Proof.
  intros Hm Hmac Hv Hvs. apply search_here. unfold match_mac_here, vendor_mac_line.
  change ("MAC Address: " +:+ m +:+ " (" +:+ v +:+ ")" +:+ nl)
    with ("MAC Address:" +:+ String " " (m +:+ " (" +:+ v +:+ ")" +:+ nl)).
  rewrite strip_prefix_app.
  change (lstrip_by isspace (String " " ?x)) with (lstrip_by isspace x).
  rewrite lstrip_no_space by
    (try exact Hm; exact (str_forall_impl _ _ m mac_char_not_space Hmac)).
  rewrite span_app by (try exact Hmac; reflexivity).
  rewrite (nonempty_ne m Hm).
  change (lstrip_by isspace (" (" +:+ ?x)) with ("(" +:+ x).
  rewrite strip_prefix_app.
  rewrite (span_app (fun c => negb (Ascii.eqb c ")"%char)) v (")" +:+ nl) Hvs eq_refl).
  now rewrite (nonempty_ne v Hv).
Qed.

Lemma search_mac_bare_line (m : string) :
  m ≠ "" → str_forall is_mac_char m = true →
  search_mac (bare_mac_line m) = Some (m, None).
Proof.
  intros Hm Hmac. apply search_here. unfold match_mac_here, bare_mac_line.
  change ("MAC Address: " +:+ m +:+ nl)
    with ("MAC Address:" +:+ String " " (m +:+ nl)).
  rewrite strip_prefix_app.
  change (lstrip_by isspace (String " " ?x)) with (lstrip_by isspace x).
  rewrite lstrip_no_space by
    (try exact Hm; exact (str_forall_impl _ _ m mac_char_not_space Hmac)).
  rewrite span_app by (try exact Hmac; reflexivity).
  now rewrite (nonempty_ne m Hm).
Qed.

(** A MAC line as nmap prints it, [MAC Address: <mac> (<vendor>)], gives
    the most recent host that MAC and that vendor: the vendor in
    parentheses wins over every table.  Without the parentheses the MAC
    is stored alike and the vendor comes from the tables. *)
Theorem mac_line_sets_mac_and_vendor `{G : Globals} (m v : string) (hp : list host)
    (t : ScanThread) (l : nat) (h : host) :
  m ≠ "" → str_forall is_mac_char m = true →
  v ≠ "" → str_forall not_paren v = true →
  last (t_hosts t) = Some l →
  hp !! l = Some h →
  (∃ h1, (mac_step (vendor_mac_line m v) hp t).1.1 !! l = Some h1
         ∧ mac h1 = m ∧ vendor h1 = v)
  ∧ (∃ h2, (mac_step (bare_mac_line m) hp t).1.1 !! l = Some h2
           ∧ mac h2 = m ∧ vendor h2 = resolve_vendor None m h).
Proof.
  intros Hm Hmac Hv Hvs Hlast Hl. unfold mac_step.
  rewrite (search_mac_vendor_line m v Hm Hmac Hv Hvs), (search_mac_bare_line m Hm Hmac), Hlast.
  cbn [fst snd]. rewrite !list_lookup_alter_eq, Hl. split.
  - eexists. split; [reflexivity|]. split; [reflexivity|].
    change (vendor (apply_mac m (Some v) h)) with (resolve_vendor (Some v) m h).
    unfold resolve_vendor. generalize (mac_prefix m) as p. intros p.
    destruct v as [|c s]; [contradiction|reflexivity].
  - eexists. split; [reflexivity|]. split; reflexivity.
Qed.

Lemma mac_line_sets_mac_and_vendor_witness :
  (∃ h1, (@mac_step demo_globals (vendor_mac_line "AA:BB:CC:00:00:01" "Acme Corp")
            [hinted_host] hinted_thread).1.1 !! 0%nat = Some h1
         ∧ mac h1 = "AA:BB:CC:00:00:01" ∧ vendor h1 = "Acme Corp")
  ∧ (∃ h2, (@mac_step demo_globals (bare_mac_line "AA:BB:CC:00:00:01")
              [hinted_host] hinted_thread).1.1 !! 0%nat = Some h2
           ∧ mac h2 = "AA:BB:CC:00:00:01"
           ∧ vendor h2 = @resolve_vendor demo_globals None "AA:BB:CC:00:00:01" hinted_host).
Proof.
  apply (@mac_line_sets_mac_and_vendor demo_globals "AA:BB:CC:00:00:01" "Acme Corp"
           [hinted_host] hinted_thread 0%nat hinted_host);
    [discriminate | reflexivity | discriminate | reflexivity | reflexivity | reflexivity].
Defined.

(** ** Port numbers *)



(** * The signals of a discovery pass *)

Lemma process_line_snapshots `{G : Globals} (line : string) (hp : list host)
    (t : ScanThread) :
  let r := process_line line hp t in
  t_hosts t `prefix_of` t_hosts r.1.2
  ∧ ∀ snap, Sresult snap ∈ r.2 → snap = t_hosts r.1.2.
Proof.
  cbn zeta. unfold process_line, report_step, mac_step.
  destruct (match_report line) as [[raw g_ip]|];
    [destruct (decide (_ ∈ t_seen_ips t))|];
    cbn [fst snd t_hosts];
    (destruct (search_mac line) as [[m v]|]; [destruct (last _)|]);
    cbn [fst snd app t_hosts];
    (split; [try reflexivity; now apply prefix_app_r|]);
    intros snap Hin;
    repeat (apply elem_of_cons in Hin as [Hin|Hin]; [congruence|]);
    now apply elem_of_nil in Hin.
Qed.

Lemma snapshots_elem (out : list scan_signal) (snap : list nat) :
  snap ∈ snapshots out ↔ Sresult snap ∈ out.
Proof.
  unfold snapshots. rewrite list_elem_of_omap. split.
  - intros (sig & Hin & Hs). destruct sig; try discriminate. now injection Hs as ->.
  - intros Hin. now exists (Sresult snap).
Qed.

Lemma constant_sorted (x : list nat) (l : list (list nat)) :
  Forall (fun s => s = x) l → StronglySorted prefix l.
Proof.
  intros Hall. induction l as [|s l IH]; constructor.
  - apply IH. now apply Forall_cons in Hall as [_ ?].
  - apply Forall_cons in Hall as [-> Hall]. apply Forall_forall. intros y Hy.
    rewrite Forall_forall in Hall. now rewrite (Hall y Hy).
Qed.

Lemma snapshots_of_line `{G : Globals} (line : string) (hp : list host) (t : ScanThread) :
  StronglySorted prefix (snapshots (process_line line hp t).2).
Proof.
  pose proof (process_line_snapshots line hp t) as [_ Hs]. cbn zeta in Hs.
  apply (constant_sorted (t_hosts (process_line line hp t).1.2)).
  apply Forall_forall. intros s Hin. apply Hs. now apply snapshots_elem.
Qed.

Lemma process_lines_snapshots `{G : Globals} (lines : list string) (hp : list host)
    (t : ScanThread) :
  let r := process_lines lines hp t in
  t_hosts t `prefix_of` t_hosts r.1.2
  ∧ (∀ snap, snap ∈ snapshots r.2 →
             t_hosts t `prefix_of` snap ∧ snap `prefix_of` t_hosts r.1.2)
  ∧ StronglySorted prefix (snapshots r.2).
Proof.
  cbn zeta. revert hp t. induction lines as [|line lines IH]; intros hp t.
  - cbn. split; [reflexivity|]. split; [|constructor].
    intros snap Hin. now apply elem_of_nil in Hin.
  - cbn [process_lines].
    pose proof (process_line_snapshots line hp t) as H1. cbn zeta in H1.
    pose proof (snapshots_of_line line hp t) as Hs1.
    destruct (process_line line hp t) as [[hp1 t1] out1].
    specialize (IH hp1 t1).
    destruct (process_lines lines hp1 t1) as [[hp2 t2] out2].
    cbn [fst snd] in *. destruct H1 as [Hp1 He1]. destruct IH as (Hp2 & Hb2 & Hs2).
    unfold snapshots in *. rewrite omap_app. fold (snapshots out1) (snapshots out2) in *.
    assert (Hb1 : ∀ snap, snap ∈ snapshots out1 → snap = t_hosts t1).
    { intros snap Hin. apply He1. now apply snapshots_elem. }
    split; [now transitivity (t_hosts t1)|]. split.
    + intros snap Hin. apply elem_of_app in Hin as [Hin|Hin].
      * rewrite (Hb1 snap Hin). split; [exact Hp1|exact Hp2].
      * destruct (Hb2 snap Hin) as [Ha Hb]. split; [|exact Hb].
        now transitivity (t_hosts t1).
    + apply StronglySorted_app_2; [|exact Hs1|exact Hs2].
      intros x1 x2 Hx1 Hx2. rewrite (Hb1 x1 Hx1). now apply Hb2.
Qed.

Lemma process_lines_app `{G : Globals} (lines more : list string) (hp : list host)
    (t : ScanThread) :
  (process_lines (lines ++ more) hp t).2
  = (process_lines lines hp t).2
    ++ (process_lines more (process_lines lines hp t).1.1 (process_lines lines hp t).1.2).2.
Proof.
  revert hp t. induction lines as [|line lines IH]; intros hp t; [reflexivity|].
  cbn [app process_lines].
  destruct (process_line line hp t) as [[hp1 t1] out1].
  specialize (IH hp1 t1).
  destruct (process_lines (lines ++ more) hp1 t1) as [[hp3 t3] out3].
  destruct (process_lines lines hp1 t1) as [[hp2 t2] out2].
  cbn [fst snd] in *. now rewrite IH, app_assoc.
Qed.

(** While the thread reads the output of the discovery process, the host
    lists it sends only grow: each is a prefix of every later one and of
    the thread's list at that point, and no error or [discovery_finished]
    is sent from inside the loop.  What has been sent after some lines
    does not depend on what follows them, so this holds of the lines read
    so far also when the reading stops short of the end. *)
Theorem discovery_snapshots_only_grow `{G : Globals} (lines : list string)
    (hp : list host) :
  let r := process_lines lines hp ScanThread_init in
  Forall progress_signal r.2
  ∧ StronglySorted prefix (snapshots r.2)
  ∧ (∀ snap, snap ∈ snapshots r.2 → snap `prefix_of` t_hosts r.1.2)
  ∧ (∀ more, r.2 `prefix_of` (process_lines (lines ++ more) hp ScanThread_init).2).
Proof.
  cbn zeta.
  pose proof (process_lines_snapshots lines hp ScanThread_init) as (_ & Hb & Hs).
  repeat split.
  - apply process_lines_progress.
  - exact Hs.
  - intros snap Hin. now apply Hb.
  - intros more. rewrite process_lines_app. now apply prefix_app_r.
Qed.

(** * The vendor tables *)

Lemma load_oui_items (acc : gmap string string) (data : list (string * string))
    (p : string) :
  foldl (fun acc kv => <[normalize_key kv.1 := kv.2]> acc) acc data !! p
  = match last (oui_values p data) with
    | Some v => Some v
    | None => acc !! p
    end.
Proof.
  revert acc. induction data as [|[k v] data IH]; intros acc; [reflexivity|].
  cbn [foldl]. rewrite IH. cbn [oui_values omap list_omap fst snd].
  fold (oui_values p data).
  destruct (decide (normalize_key k = p)) as [Hk|Hk].
  - destruct (oui_values p data) as [|v' vs] eqn:E.
    + cbn. subst p. now rewrite lookup_insert_eq.
    + rewrite last_cons_cons. destruct (last (v' :: vs)) eqn:E'; [reflexivity|].
      apply last_None in E'. discriminate.
  - destruct (last (oui_values p data)); [reflexivity|].
    now rewrite lookup_insert_ne.
Qed.

Lemma oui_values_app (p : string) (a b : list (string * string)) :
  oui_values p (a ++ b) = oui_values p a ++ oui_values p b.
Proof. unfold oui_values. apply omap_app. Qed.

Lemma load_oui_file_lookup (acc : gmap string string)
    (file : option (list (string * string))) (p : string) :
  load_oui_file acc file !! p
  = match last (oui_values p (file_items file)) with
    | Some v => Some v
    | None => acc !! p
    end.
Proof. destruct file as [data|]; [apply load_oui_items|reflexivity]. Qed.

(** The vendor table holds, for a normalised prefix, the last value the
    two files give for any spelling of it: an entry of mac_overrides.json
    replaces one of oui_extra.json, a later entry of a file an earlier
    one, and a file that cannot be loaded counts as empty. *)
Theorem load_extra_oui_last_wins (oui_extra mac_overrides : option (list (string * string)))
    (p : string) :
  load_extra_oui oui_extra mac_overrides !! p
  = last (oui_values p (file_items oui_extra ++ file_items mac_overrides)).
Proof.
  unfold load_extra_oui. rewrite !load_oui_file_lookup, lookup_empty, oui_values_app.
  destruct (oui_values p (file_items mac_overrides)) as [|v vs] eqn:E.
  - rewrite app_nil_r. cbn [last].
    now destruct (last (oui_values p (file_items oui_extra))).
  - rewrite last_app. destruct (last (v :: vs)) eqn:E'; [reflexivity|].
    apply last_None in E'. discriminate.
Qed.

Lemma mac_prefix_length (m : string) : (String.length (mac_prefix m) ≤ 6)%nat.
Proof.
  unfold mac_prefix. generalize (upper (remove_char ":"%char m)) as s. intros s.
  do 6 (destruct s as [|? s]; [cbn; lia|]). cbn. lia.
Qed.

(** The table is only ever asked for the first six characters of a MAC
    (without colons, upper-cased), so an entry whose key has more than
    six characters once normalised, a full MAC address for example, is
    never found, whatever MAC nmap reports. *)
Theorem extra_oui_long_keys_are_dead (oui_extra mac_overrides : option (list (string * string)))
    (m : string) :
  Forall (fun kv => (6 < String.length (normalize_key kv.1))%nat)
         (file_items oui_extra ++ file_items mac_overrides) →
  load_extra_oui oui_extra mac_overrides !! mac_prefix m = None.
Proof.
  intros Hall. unfold load_extra_oui.
  rewrite !load_oui_file_lookup, lookup_empty.
  apply Forall_app in Hall as [Ha Hb].
  assert (Hnone : ∀ data, Forall (fun kv => (6 < String.length (normalize_key kv.1))%nat) data →
                          oui_values (mac_prefix m) data = []).
  { intros data Hd. induction Hd as [|[k v] data Hk _ IH]; [reflexivity|].
    cbn [oui_values omap list_omap fst snd]. fold (oui_values (mac_prefix m) data).
    destruct (decide (normalize_key k = mac_prefix m)) as [E|E]; [|exact IH].
    pose proof (mac_prefix_length m). cbn [fst] in Hk. rewrite E in Hk. lia. }
  now rewrite (Hnone _ Ha), (Hnone _ Hb).
Qed.

Lemma extra_oui_long_keys_are_dead_witness :
  load_extra_oui None (Some [("AA:BB:CC:00:00:01", "Acme")])
    !! mac_prefix "AA:BB:CC:00:00:01" = None.
Proof.
  apply (extra_oui_long_keys_are_dead None (Some [("AA:BB:CC:00:00:01", "Acme")])
           "AA:BB:CC:00:00:01").
  repeat constructor.
Defined.

(** An entry of mac_overrides.json names the vendor of every host whose
    MAC has its prefix, however the key is spelled (case, dashes,
    colons), when it is the last entry for that prefix, nmap prints no
    vendor and manuf knows none; oui_extra.json has no say. *)
Theorem override_entry_names_vendor `{G : Globals}
    (oui_extra : option (list (string * string))) (before after : list (string * string))
    (k v m : string) (h : host) :
  extra_oui = load_extra_oui oui_extra (Some (before ++ (k, v) :: after)) →
  normalize_key k = mac_prefix m →
  oui_values (mac_prefix m) after = [] →
  v ≠ "" →
  manuf_vendor m = "" →
  resolve_vendor None m h = v.
Proof.
  intros Htab Hk Hafter Hv Hmanuf. unfold resolve_vendor. rewrite Hmanuf, Htab.
  assert (Hlook : load_extra_oui oui_extra (Some (before ++ (k, v) :: after))
                  !! mac_prefix m = Some v).
  { unfold load_extra_oui. rewrite load_oui_file_lookup.
    change (file_items (Some ?l)) with l. rewrite oui_values_app.
    cbn [oui_values omap list_omap fst snd]. fold (oui_values (mac_prefix m) after).
    rewrite Hafter. destruct (decide (normalize_key k = mac_prefix m)); [|contradiction].
    now rewrite last_snoc. }
  generalize dependent (mac_prefix m). intros p _ _ Hlook. rewrite Hlook.
  destruct v as [|c s]; [contradiction|]. reflexivity.
Qed.

Lemma override_entry_names_vendor_witness :
  @resolve_vendor
    {| mac_parser := None;
       extra_oui := load_extra_oui (Some [("AABBCC", "Other")])
                      (Some ([("00-11-22", "First")] ++ ("aa-bb-cc", "Acme") :: []));
       apple_model_map := ∅;
       gethostbyaddr := fun _ => None;
       getservbyport := fun _ => None;
       SERVICE_NAMES := ∅;
       is_valid_subnet := fun _ => true |}
    None "AA:BB:CC:00:00:01" hinted_host = "Acme".
Proof.
  apply (@override_entry_names_vendor
           {| mac_parser := None;
              extra_oui := load_extra_oui (Some [("AABBCC", "Other")])
                             (Some ([("00-11-22", "First")] ++ ("aa-bb-cc", "Acme") :: []));
              apple_model_map := ∅;
              gethostbyaddr := fun _ => None;
              getservbyport := fun _ => None;
              SERVICE_NAMES := ∅;
              is_valid_subnet := fun _ => true |}
           (Some [("AABBCC", "Other")]) [("00-11-22", "First")] [] "aa-bb-cc" "Acme"
           "AA:BB:CC:00:00:01" hinted_host);
    [reflexivity | reflexivity | reflexivity | discriminate | reflexivity].
Defined.

(** * The mDNS listeners and lookups *)

Lemma dict_set_keys {V} (k : string) (v : V) (d : list (string * V)) :
  (dict_set k v d).*1 = if decide (k ∈ d.*1) then d.*1 else d.*1 ++ [k].
Proof.
  unfold dict_set. destruct (decide (k ∈ d.*1)) as [Hin|Hin].
  - clear Hin. induction d as [|[k' v'] d IH]; [reflexivity|].
    cbn [map fmap list_fmap fst]. destruct (decide (k' = k)) as [->|Hne];
      cbn [fst]; f_equal; exact IH.
  - now rewrite fmap_app.
Qed.

Lemma dict_set_Forall {V} (P : string * V → Prop) (k : string) (v : V)
    (d : list (string * V)) :
  P (k, v) → Forall P d → Forall P (dict_set k v d).
Proof.
  intros Hk Hd. unfold dict_set. destruct (decide (k ∈ d.*1)) as [Hin|Hin].
  - clear Hin. induction Hd as [|kv d Hkv _ IH]; [constructor|].
    cbn [map]. constructor; [now destruct (decide (kv.1 = k))|exact IH].
  - apply Forall_app. split; [exact Hd|now constructor].
Qed.

Lemma dict_pop_Forall {V} (P : string * V → Prop) (k : string) (d : list (string * V)) :
  Forall P d → Forall P (dict_pop k d).
Proof.
  intros Hd. unfold dict_pop. induction Hd as [|kv d Hkv _ IH]; [constructor|].
  rewrite filter_cons. destruct (decide (kv.1 ≠ k)); [now constructor|exact IH].
Qed.

Lemma dict_pop_keys {V} (k : string) (d : list (string * V)) :
  (dict_pop k d).*1 = filter (fun n => n ≠ k) (d.*1).
Proof.
  unfold dict_pop. induction d as [|[k' v'] d IH]; [reflexivity|].
  cbn [fmap list_fmap fst]. rewrite !filter_cons. cbn [fst].
  destruct (decide (k' ≠ k)); cbn [fmap list_fmap fst]; now rewrite IH.
Qed.

Lemma last_about_snoc (nm : string) (events : list browse_event) (ev : browse_event) :
  last_about nm (events ++ [ev])
  = if about nm ev then Some ev else last_about nm events.
Proof.
  unfold last_about. rewrite omap_app. cbn [omap list_omap].
  destruct (about nm ev); [apply last_snoc|now rewrite app_nil_r].
Qed.

Lemma all_unresolved_empty (found : list (string * option ServiceInfo)) :
  Forall (fun kv => kv.2 = None) found → MDNSWorker_hosts found = ∅.
Proof.
  unfold MDNSWorker_hosts. generalize (∅ : gmap string mdns_fact) as acc.
  intros acc H. revert acc. induction H as [|[n i] found Hi _ IH]; intros acc; [reflexivity|].
  cbn [foldl]. cbn in Hi. subst i. unfold add_instance at 2. cbn [snd]. apply IH.
Qed.

(** [discover_all_mdns] returns names only: every value is [None], never
    a [ServiceInfo].  A name is in the result exactly when the last
    [add_service] or [remove_service] event about it is an [add_service]
    ([update_service] changes nothing), each name once; and what the
    worker builds from such a dictionary alone is the empty mapping. *)
Theorem discover_all_mdns_names_only (events : list browse_event) :
  Forall (fun kv => kv.2 = None) (discover_all_mdns events)
  ∧ NoDup (discover_all_mdns events).*1
  ∧ (∀ nm, nm ∈ (discover_all_mdns events).*1
             ↔ last_about nm events = Some (add_service nm))
  ∧ MDNSWorker_hosts (discover_all_mdns events) = ∅.
Proof.
  assert (H : Forall (fun kv => kv.2 = None) (discover_all_mdns events)
              ∧ NoDup (discover_all_mdns events).*1
              ∧ (∀ nm, nm ∈ (discover_all_mdns events).*1
                         ↔ last_about nm events = Some (add_service nm))).
  { unfold discover_all_mdns. induction events as [|ev events IH] using rev_ind.
    - cbn. repeat split; try constructor; [intros H; now apply elem_of_nil in H|discriminate].
    - rewrite foldl_app. cbn [foldl].
      destruct IH as (Hnone & Hnd & Hkeys).
      set (d := foldl HostListener_step [] events) in *.
      destruct ev as [n|n|n]; cbn [HostListener_step].
      + repeat split.
        * now apply dict_set_Forall.
        * rewrite dict_set_keys. destruct (decide (n ∈ d.*1)); [exact Hnd|].
          apply NoDup_app. repeat split; [exact Hnd| |apply NoDup_singleton].
          intros x Hx Hx'. apply list_elem_of_singleton in Hx'. now subst x.
        * rewrite last_about_snoc. cbn [about]. rewrite dict_set_keys.
          destruct (decide (n = nm)) as [->|Hne].
          -- rewrite bool_decide_eq_true_2 by reflexivity. intros _. reflexivity.
          -- rewrite bool_decide_eq_false_2 by exact Hne. rewrite <- Hkeys.
             destruct (decide (n ∈ d.*1)); [tauto|].
             intros Hin. apply elem_of_app in Hin as [Hin|Hin]; [exact Hin|].
             apply list_elem_of_singleton in Hin. congruence.
        * rewrite last_about_snoc. cbn [about]. rewrite dict_set_keys.
          destruct (decide (n = nm)) as [->|Hne].
          -- intros _. destruct (decide (nm ∈ d.*1)); [assumption|].
             apply elem_of_app. right. now apply list_elem_of_singleton.
          -- rewrite bool_decide_eq_false_2 by exact Hne. rewrite <- Hkeys.
             destruct (decide (n ∈ d.*1)); [tauto|].
             intros Hin. apply elem_of_app. now left.
      + repeat split.
        * now apply dict_pop_Forall.
        * rewrite dict_pop_keys. now apply NoDup_filter.
        * rewrite last_about_snoc. cbn [about]. rewrite dict_pop_keys.
          intros Hin. apply list_elem_of_filter in Hin as [Hne Hin].
          rewrite bool_decide_eq_false_2 by congruence. now apply Hkeys.
        * rewrite last_about_snoc. cbn [about]. rewrite dict_pop_keys.
          destruct (decide (n = nm)) as [->|Hne].
          -- rewrite bool_decide_eq_true_2 by reflexivity. discriminate.
          -- rewrite bool_decide_eq_false_2 by exact Hne. intros Hl.
             apply list_elem_of_filter. split; [congruence|now apply Hkeys].
      + repeat split; try assumption;
          rewrite last_about_snoc; cbn [about]; apply Hkeys. }
  destruct H as (Hnone & Hnd & Hkeys). repeat split; try assumption; try apply Hkeys.
  now apply all_unresolved_empty.
Qed.

Lemma dict_set_present {V} (k : string) (v : V) (d : list (string * V)) :
  k ∈ d.*1 →
  dict_set k v d = map (fun kv => if decide (kv.1 = k) then (k, v) else kv) d.
Proof. intros Hin. unfold dict_set. now destruct (decide (k ∈ d.*1)). Qed.

Lemma lookup_steps (lookup : string → string → option ServiceInfo) (ty : string)
    (names : list string) (hosts : list (string * option ServiceInfo)) :
  names ⊆ hosts.*1 →
  foldl (lookup_step lookup ty) hosts names
  = map (fun kv => if decide (kv.1 ∈ names) then answer lookup ty kv else kv) hosts.
Proof.
  revert hosts. induction names as [|n names IH]; intros hosts Hsub.
  - cbn [foldl]. induction hosts as [|kv hosts IHh]; [reflexivity|].
    cbn [map]. rewrite <- IHh by (intros x Hx; now apply elem_of_nil in Hx).
    destruct (decide (kv.1 ∈ [])) as [Hin|]; [now apply elem_of_nil in Hin|reflexivity].
  - cbn [foldl].
    assert (Hn : n ∈ hosts.*1) by (apply Hsub; now left).
    assert (Hkeys : (lookup_step lookup ty hosts n).*1 = hosts.*1).
    { unfold lookup_step. destruct (lookup ty n); [|reflexivity].
      rewrite dict_set_keys. now destruct (decide (n ∈ hosts.*1)). }
    rewrite IH by (rewrite Hkeys; intros x Hx; apply Hsub; now right).
    unfold lookup_step. destruct (lookup ty n) as [i|] eqn:El.
    + rewrite (dict_set_present _ _ _ Hn), map_map. apply map_ext_in. intros [k v] _.
      cbn [fst]. destruct (decide (k = n)) as [->|Hne]; cbv beta iota; cbn [fst snd].
      * unfold answer. cbn [fst snd]. rewrite El.
        destruct (decide (n ∈ names));
          (destruct (decide (n ∈ n :: names)) as [|Hno]; [reflexivity|]);
          exfalso; apply Hno; now left.
      * destruct (decide (k ∈ names)) as [Hin|Hin];
          destruct (decide (k ∈ n :: names)) as [Hin'|Hin']; try reflexivity.
        -- exfalso. apply Hin'. now right.
        -- exfalso. apply elem_of_cons in Hin' as [?|?]; contradiction.
    + apply map_ext_in. intros [k v] _. cbn [fst].
      destruct (decide (k ∈ names)) as [Hin|Hin];
        destruct (decide (k ∈ n :: names)) as [Hin'|Hin']; try reflexivity.
      * exfalso. apply Hin'. now right.
      * apply elem_of_cons in Hin' as [->|?]; [|contradiction].
        unfold answer. cbn [fst snd]. now rewrite El.
Qed.

Lemma phase3_answers (types : list string) (lookup : string → string → option ServiceInfo)
    (hosts : list (string * option ServiceInfo)) :
  phase3 types lookup hosts
  = map (fun kv => (kv.1, match last_answer types lookup kv.1 with
                          | Some i => Some i
                          | None => kv.2
                          end)) hosts.
Proof.
  unfold phase3. revert hosts. induction types as [|ty types IH]; intros hosts.
  - cbn [foldl]. unfold last_answer. cbn. rewrite <- (map_id hosts) at 1.
    apply map_ext. now intros [k v].
  - cbn [foldl]. rewrite IH, lookup_steps by reflexivity. rewrite map_map.
    apply map_ext_in. intros [k v] Hin.
    destruct (decide ((k, v).1 ∈ hosts.*1)) as [_|Hno].
    2:{ exfalso. apply Hno. apply list_elem_of_fmap. exists (k, v). split; [reflexivity|].
        now apply list_elem_of_In. }
    unfold answer, last_answer. cbn [fst snd omap list_omap].
    fold (omap (fun ty => lookup ty k) types).
    destruct (lookup ty k) as [i|]; [|reflexivity].
    destruct (omap (fun ty => lookup ty k) types) as [|i' rest]; [reflexivity|].
    rewrite last_cons_cons. destruct (last (i' :: rest)) eqn:E; [reflexivity|].
    apply last_None in E. discriminate.
Qed.

(** The worker looks every browsed name up under every service type and
    keeps the answer of the last type that gives one; names keep their
    order, a name that no type answers for is skipped.  So the mapping
    sent with [mdns_done] is the one built from the names that were
    announced and not withdrawn, each with that last answer. *)
Theorem MDNSWorker_run_resolution (types : list string) (events : list browse_event)
    (lookup : string → string → option ServiceInfo) :
  MDNSWorker_run types events lookup
  = MDNSWorker_hosts
      (map (fun kv => (kv.1, last_answer types lookup kv.1)) (discover_all_mdns events)).
Proof.
  unfold MDNSWorker_run. rewrite phase3_answers. fold (discover_all_mdns events).
  f_equal. apply map_ext_in. intros [k v] Hin.
  assert (Hnone : Forall (fun kv => kv.2 = None) (discover_all_mdns events)).
  { unfold discover_all_mdns. generalize (Forall_nil_2 (fun kv : string * option ServiceInfo
                                                         => kv.2 = None)).
    generalize (@nil (string * option ServiceInfo)) as d. revert Hin. clear.
    intros _. induction events as [|ev events IH]; intros d Hd; [exact Hd|].
    cbn [foldl]. apply IH. destruct ev as [n|n|n]; cbn [HostListener_step].
    - now apply dict_set_Forall.
    - now apply dict_pop_Forall.
    - exact Hd. }
  rewrite Forall_forall in Hnone. apply list_elem_of_In in Hin.
  specialize (Hnone _ Hin). cbn [fst snd] in *. subst v.
  now destruct (last_answer types lookup k).
Qed.
